(** * RAGBook: the tool-calling conversation loop and the vector retrieval
    subsystem, embedded from [agent/agent.py], [agent/tools.py] and
    [rag_system/vector_store.py]. *)

From Stdlib Require Import ZArith Ascii String Floats.PrimFloat.
From stdpp Require Import gmap strings list fin_maps pretty.

Local Open Scope Z_scope.
Local Open Scope string_scope.
Local Open Scope list_scope.

(** ** Python values, exceptions and the state-and-exception monad *)
Module Py.

(** The exception classes the three modules distinguish.  Everything here
    derives from Python's [Exception]; [RequestException] is the class
    [tools.py] catches separately. *)
Inductive exc_class :=
| RequestException | AttributeError | IndexError | KeyError
| TypeError | ValueError | RuntimeError.

(** An exception instance: its class and [str(e)]. *)
Record exc := Exc { exc_cls : exc_class; exc_str : string }.

(** What a call into an external collaborator does: return or raise. *)
Inductive result (A : Type) :=
| Returns (a : A)
| Raises (e : exc).
Arguments Returns {A} a.
Arguments Raises {A} e.

(** What a computation of ours does: return, raise, or (for the unbounded
    [while] of [chat]) still be running when the step budget is spent. *)
Inductive outcome (A : Type) :=
| Ok (a : A)
| Raise (e : exc)
| OutOfFuel.
Arguments Ok {A} a.
Arguments Raise {A} e.
Arguments OutOfFuel {A}.

(** A computation over a mutable state [S].  The state is returned also
    when an exception is raised: Python does not roll back assignments. *)
Definition M (S A : Type) : Type := S -> S * outcome A.

Definition ret {S A} (a : A) : M S A := fun s => (s, Ok a).

Definition bind {S A B} (c : M S A) (k : A -> M S B) : M S B :=
  fun s =>
    match c s with
    | (s', Ok a) => k a s'
    | (s', Raise e) => (s', Raise e)
    | (s', OutOfFuel) => (s', OutOfFuel)
    end.

Definition raise {S A} (e : exc) : M S A := fun s => (s, Raise e).
Definition out_of_fuel {S A} : M S A := fun s => (s, OutOfFuel).
Definition get {S} : M S S := fun s => (s, Ok s).
Definition put {S} (s : S) : M S unit := fun _ => (s, Ok tt).
Definition modify {S} (f : S -> S) : M S unit := fun s => (f s, Ok tt).

(** Lift a pure step that returns or raises. *)
Definition lift {S A} (r : result A) : M S A :=
  fun s => match r with Returns a => (s, Ok a) | Raises e => (s, Raise e) end.

(** [try: c  except Exception as e: h e]. *)
Definition try_except {S A} (c : M S A) (h : exc -> M S A) : M S A :=
  fun s =>
    match c s with
    | (s', Raise e) => h e s'
    | r => r
    end.

(** [try: c  except <class p> as e: h1 e  except Exception as e: h2 e].
    An exception raised by a handler is not caught by its sibling. *)
Definition try_except2 {S A} (c : M S A) (p : exc -> bool)
    (h1 h2 : exc -> M S A) : M S A :=
  fun s =>
    match c s with
    | (s', Raise e) => if p e then h1 e s' else h2 e s'
    | r => r
    end.

(** Run [f] on each element in order, stopping at the first exception. *)
Fixpoint mapM {S A B} (f : A -> M S B) (l : list A) : M S (list B) :=
  match l with
  | [] => ret []
  | x :: rest =>
      bind (f x) (fun y => bind (mapM f rest) (fun ys => ret (y :: ys)))
  end.

(** A computation that comes to an end, by returning or by raising, from
    every state. *)
Definition finishes {S A} (c : M S A) : Prop :=
  forall s, snd (c s) <> OutOfFuel.

Declare Scope py_scope.
Delimit Scope py_scope with py.
Notation "x <- c ;; k" := (bind c (fun x => k))
  (at level 100, c at next level, right associativity) : py_scope.
Notation "c ;;; k" := (bind c (fun _ => k))
  (at level 100, right associativity) : py_scope.

(** Values that travel through metadata dicts, JSON bodies and tool
    arguments. *)
Unset Elimination Schemes.
Inductive PyVal :=
| PNone
| PBool (b : bool)
| PInt (z : Z)
| PFloat (f : float)
| PStr (s : string)
| PList (l : list PyVal)
| PDict (d : gmap string PyVal).
Set Elimination Schemes.

(** [isinstance(value, (str, int, float, bool))]. *)
Definition is_scalar (v : PyVal) : bool :=
  match v with
  | PBool _ | PInt _ | PFloat _ | PStr _ => true
  | PNone | PList _ | PDict _ => false
  end.

Definition str_truthy (s : string) : bool :=
  match s with EmptyString => false | String _ _ => true end.

(** Truth value testing ([if v], [not v]). *)
Definition truthy (v : PyVal) : bool :=
  match v with
  | PNone => false
  | PBool b => b
  | PInt z => negb (z =? 0)%Z
  | PFloat f => negb (PrimFloat.eqb f 0%float)
  | PStr s => str_truthy s
  | PList l => match l with [] => false | _ :: _ => true end
  | PDict d => negb (bool_decide (d = ∅))
  end.

(** [type(v).__name__], as it appears in interpreter error messages. *)
Definition type_name (v : PyVal) : string :=
  match v with
  | PNone => "NoneType"
  | PBool _ => "bool"
  | PInt _ => "int"
  | PFloat _ => "float"
  | PStr _ => "str"
  | PList _ => "list"
  | PDict _ => "dict"
  end.

(** How the interpreter prints the values whose text form this
    development does not spell out (floats, lists, dicts). *)
Class Runtime := { format_other : PyVal -> string }.

(** [f"{v}"]. *)
Definition py_str `{Runtime} (v : PyVal) : string :=
  match v with
  | PStr s => s
  | PInt z => pretty z
  | PBool true => "True"
  | PBool false => "False"
  | PNone => "None"
  | _ => format_other v
  end.

(** [v.get(key, dflt)]: only a dict has the method. *)
Definition py_get (v : PyVal) (key : string) (dflt : PyVal) : result PyVal :=
  match v with
  | PDict d => Returns (default dflt (d !! key))
  | _ =>
      Raises (Exc AttributeError
                ("'" +:+ type_name v +:+ "' object has no attribute 'get'"))
  end.

Fixpoint chars (s : string) : list PyVal :=
  match s with
  | EmptyString => []
  | String c rest => PStr (String c EmptyString) :: chars rest
  end.

(** The items a [for] loop draws from a value.  A dict yields its keys
    (here in the map's canonical order, which no caller observes). *)
Definition py_iter (v : PyVal) : result (list PyVal) :=
  match v with
  | PList l => Returns l
  | PStr s => Returns (chars s)
  | PDict d => Returns (PStr <$> (map_to_list d).*1)
  | _ =>
      Raises (Exc TypeError ("'" +:+ type_name v +:+ "' object is not iterable"))
  end.

Definition NL : string := String "010"%char EmptyString.

(** [sep.join(parts)]. *)
Fixpoint join (sep : string) (parts : list string) : string :=
  match parts with
  | [] => EmptyString
  | [p] => p
  | p :: rest => p +:+ sep +:+ join sep rest
  end.

Fixpoint is_prefix (p s : string) : bool :=
  match p, s with
  | EmptyString, _ => true
  | String a p', String b s' => if Ascii.eqb a b then is_prefix p' s' else false
  | String _ _, EmptyString => false
  end.

(** [needle in haystack] on strings. *)
Fixpoint contains (needle haystack : string) : bool :=
  if is_prefix needle haystack then true
  else match haystack with
       | EmptyString => false
       | String _ rest => contains needle rest
       end.

(** [l[start:]] with Python's rule for a negative or oversized start. *)
Definition slice_from {A} (start : Z) (l : list A) : list A :=
  let n := Z.of_nat (length l) in
  let lo := if (start <? 0)%Z then Z.max (n + start) 0 else Z.min start n in
  drop (Z.to_nat lo) l.

End Py.

(** ** agent/agent.py: the conversation loop *)
Module agent.
Import Py.
Local Open Scope py_scope.

(** A function-call request of the model: [function_call.name] and
    [dict(function_call.args)]. *)
Record FunctionCall := { name : string; args : gmap string PyVal }.

(** A response part.  [None] is an attribute that [hasattr] does not
    find; an empty name or text is the falsy value the SDK reports for
    the member of the union that is not set. *)
Record Part := { function_call : option FunctionCall; text : option string }.

Record Content := { parts : option (list Part) }.

Record Candidate := {
  candidate_content : option Content;
  finish_reason : option Z
}.

(** An attribute computed on access ([response.text]): missing, a value,
    or an exception raised by the accessor. *)
Inductive attr (A : Type) :=
| Absent
| Value (a : A)
| Raising (e : exc).
Arguments Absent {A}.
Arguments Value {A} a.
Arguments Raising {A} e.

Record Response := {
  response_text : attr string;
  candidates : option (list Candidate)
}.

(** What [chat_session.send_message] is given: the user's text, or the
    [FunctionResponse(name, {"result": tool_result})] part. *)
Inductive Message :=
| UserText (user_message : string)
| FunctionResponse (fname : string) (tool_result : string).

(** The language-model provider: [model.start_chat(history=[])] and
    [chat_session.send_message]. *)
Class Provider := {
  ChatSession : Type;
  start_chat : ChatSession;
  send_message : ChatSession -> Message -> ChatSession * result Response
}.

(** The callables behind [TOOL_MAP], called as [tool_func( **args)] on the
    storage, mail and network they reach. *)
Class ToolEnv := {
  ToolWorld : Type;
  search_knowledge_base : gmap string PyVal -> ToolWorld -> ToolWorld * result string;
  create_booking : gmap string PyVal -> ToolWorld -> ToolWorld * result string;
  send_confirmation_email : gmap string PyVal -> ToolWorld -> ToolWorld * result string;
  get_booking_info : gmap string PyVal -> ToolWorld -> ToolWorld * result string;
  web_search_movies : gmap string PyVal -> ToolWorld -> ToolWorld * result string
}.

(** One entry of [chat_history]: [{"role": ..., "content": ...}]. *)
Record Entry := { role : string; content : string }.

Section Loop.
Context `{Provider} `{ToolEnv}.

Definition TOOL_MAP
  : gmap string (gmap string PyVal -> ToolWorld -> ToolWorld * result string) :=
  <["search_knowledge_base" := search_knowledge_base]>
  (<["create_booking" := create_booking]>
  (<["send_confirmation_email" := send_confirmation_email]>
  (<["get_booking_info" := get_booking_info]>
  (<["web_search_movies" := web_search_movies]> ∅)))).

(** The fields of a [BookingAssistant]. *)
Record BookingAssistant := {
  chat_history : list Entry;
  max_history : Z;
  chat_session : option ChatSession
}.

(** What a [chat] call can change: the assistant object and whatever the
    tools reach.  [executed] records, in order, every call handed to
    [_execute_tool] (where the source prints its debug line). *)
Record State := {
  self : BookingAssistant;
  world : ToolWorld;
  executed : list FunctionCall
}.

Definition set_history (h : list Entry) (st : State) : State :=
  {| self := {| chat_history := h;
                max_history := max_history (self st);
                chat_session := chat_session (self st) |};
     world := world st; executed := executed st |}.

Definition set_session (cs : option ChatSession) (st : State) : State :=
  {| self := {| chat_history := chat_history (self st);
                max_history := max_history (self st);
                chat_session := cs |};
     world := world st; executed := executed st |}.

Definition set_world (w : ToolWorld) (st : State) : State :=
  {| self := self st; world := w; executed := executed st |}.

Definition log_executed (fc : FunctionCall) (st : State) : State :=
  {| self := self st; world := world st; executed := executed st ++ [fc] |}.

(** [BookingAssistant(max_history)]. *)
Definition __init__ (max_history : Z) : BookingAssistant :=
  {| chat_history := []; max_history := max_history; chat_session := None |}.

Definition _trim_history : M State unit :=
  st <- get ;;
  let h := chat_history (self st) in
  let m := max_history (self st) in
  if (Z.of_nat (length h) >? m * 2)%Z
  then put (set_history (slice_from (- (m * 2)) h) st)
  else ret tt.

(** [tool_func( **args)]. *)
Definition call_tool
    (tool_func : gmap string PyVal -> ToolWorld -> ToolWorld * result string)
    (a : gmap string PyVal) : M State string :=
  fun st =>
    match tool_func a (world st) with
    | (w, Returns r) => (set_world w st, Ok r)
    | (w, Raises e) => (set_world w st, Raise e)
    end.

Definition _execute_tool (function_call : FunctionCall) : M State string :=
  let tool_name := name function_call in
  let a := args function_call in
  modify (log_executed function_call) ;;;
  match TOOL_MAP !! tool_name with
  | None => ret ("Error: Unknown tool '" +:+ tool_name +:+ "'")
  | Some tool_func =>
      try_except
        (call_tool tool_func a)
        (fun e => ret ("Error executing " +:+ tool_name +:+ ": " +:+ exc_str e))
  end.

(** [self.chat_session.send_message(msg)]; the session object keeps the
    dialogue it has had. *)
Definition session_send (msg : Message) : M State Response :=
  fun st =>
    match chat_session (self st) with
    | None =>
        (st, Raise (Exc AttributeError
                      "'NoneType' object has no attribute 'send_message'"))
    | Some cs =>
        match send_message cs msg with
        | (cs', Returns r) => (set_session (Some cs') st, Ok r)
        | (cs', Raises e) => (set_session (Some cs') st, Raise e)
        end
    end.

(** [response.candidates[0].content.parts]. *)
Definition response_parts (response : Response) : result (list Part) :=
  match candidates response with
  | None =>
      Raises (Exc AttributeError
                "'GenerateContentResponse' object has no attribute 'candidates'")
  | Some [] => Raises (Exc IndexError "list index out of range")
  | Some (candidate :: _) =>
      match candidate_content candidate with
      | None =>
          Raises (Exc AttributeError "'Candidate' object has no attribute 'content'")
      | Some c =>
          match parts c with
          | None =>
              Raises (Exc AttributeError "'Content' object has no attribute 'parts'")
          | Some ps => Returns ps
          end
      end
  end.

(** [hasattr(part, 'function_call') and part.function_call.name]. *)
Definition is_call_part (part : Part) : bool :=
  match function_call part with
  | Some fc => str_truthy (name fc)
  | None => false
  end.

(** [hasattr(part, 'text') and part.text]. *)
Definition has_text (part : Part) : bool :=
  match text part with
  | Some t => str_truthy t
  | None => false
  end.

(** The [for part in ...parts] scan of [chat]: stop at the first
    function-call part, collect the text of the parts before it. *)
Fixpoint scan_parts (ps : list Part) (text_parts : list string)
    : option FunctionCall * list string :=
  match ps with
  | [] => (None, text_parts)
  | part :: rest =>
      if is_call_part part then (function_call part, text_parts)
      else if has_text part
           then scan_parts rest (text_parts ++ [default EmptyString (text part)])
           else scan_parts rest text_parts
  end.

(** One pass through the body of [while response....parts:].  [inl]
    is the response to evaluate next, [inr] the one the loop ends on. *)
Definition chat_cycle (response : Response) : M State (Response + Response) :=
  ps <- lift (response_parts response) ;;
  match ps with
  | [] => ret (inr response)
  | _ :: _ =>
      match scan_parts ps [] with
      | (Some function_call, _) =>
          tool_result <- _execute_tool function_call ;;
          response' <- session_send (FunctionResponse (name function_call) tool_result) ;;
          ret (inl response')
      | (None, _) => ret (inr response)
      end
  end.

(** The [while] loop, with a budget of passes. *)
Fixpoint chat_loop (fuel : nat) (response : Response) : M State Response :=
  match fuel with
  | O => out_of_fuel
  | S fuel' =>
      r <- chat_cycle response ;;
      match r with
      | inl response' => chat_loop fuel' response'
      | inr final => ret final
      end
  end.

Definition texts_of (ps : list Part) : list string :=
  omap (fun part => if has_text part then text part else None) ps.

Definition SAFETY_REPLY : string :=
  "I apologize, but I can't respond to that request due to content restrictions.".
Definition BLOCKED_REPLY : string :=
  "I apologize, but I couldn't generate a response. Please try rephrasing your request.".
Definition GENERIC_REPLY : string :=
  "I apologize, but I couldn't generate a response. Please try again.".

(** The part of [_extract_response_text] after the [response.text] test. *)
Definition extract_from_candidates (response : Response) : string :=
  match candidates response with
  | Some (candidate :: _) =>
      let text_parts :=
        match candidate_content candidate with
        | Some c => match parts c with Some ps => texts_of ps | None => [] end
        | None => []
        end in
      match text_parts with
      | _ :: _ => join NL text_parts
      | [] =>
          match finish_reason candidate with
          | Some 3 => SAFETY_REPLY
          | Some 12 => BLOCKED_REPLY
          | _ => GENERIC_REPLY
          end
      end
  | _ => GENERIC_REPLY
  end.

Definition _extract_response_text (response : Response) : string :=
  match response_text response with
  | Value t => if str_truthy t then t else extract_from_candidates response
  | Absent => extract_from_candidates response
  | Raising e =>
      match exc_cls e with
      | AttributeError => extract_from_candidates response
      | _ => "Error processing response: " +:+ exc_str e
      end
  end.

Definition user_entry (m : string) : Entry := {| role := "user"; content := m |}.
Definition assistant_entry (m : string) : Entry :=
  {| role := "assistant"; content := m |}.

Definition append_history (e : Entry) (st : State) : State :=
  set_history (chat_history (self st) ++ [e]) st.

(** The [try] block of [chat]. *)
Definition chat_body (fuel : nat) (user_message : string) : M State string :=
  st <- get ;;
  match chat_session (self st) with
  | None => put (set_session (Some start_chat) st)
  | Some _ => ret tt
  end ;;;
  response <- session_send (UserText user_message) ;;
  response <- chat_loop fuel response ;;
  let assistant_message := _extract_response_text response in
  modify (append_history (user_entry user_message)) ;;;
  modify (append_history (assistant_entry assistant_message)) ;;;
  _trim_history ;;;
  ret assistant_message.

Definition REPHRASE_REPLY : string :=
  "I apologize, but I couldn't process that request. Please try rephrasing your message or provide the information in a different way.".

(** The [except Exception as e] block of [chat]. *)
Definition chat_handler (e : exc) : string :=
  let error_str := exc_str e in
  if contains "finish_reason" error_str then REPHRASE_REPLY
  else "I encountered an error: " +:+ error_str
       +:+ ". Please try again or rephrase your request.".

Definition chat (fuel : nat) (user_message : string) : M State string :=
  try_except (chat_body fuel user_message) (fun e => ret (chat_handler e)).

Definition clear_history : M State unit :=
  modify (fun st => set_session None (set_history [] st)).

Definition get_history_length (st : State) : Z :=
  Z.of_nat (length (chat_history (self st))).

End Loop.
End agent.

(** ** rag_system/vector_store.py: the embedding client and the index *)
Module vector_store.
Import Py.
Local Open Scope py_scope.

Inductive TaskType := retrieval_document | retrieval_query.

(** What the index rests on: the embedding service
    ([genai.embed_content], whose answer is a dict), the metric of the
    collection, and the identifiers [uuid.uuid4()] hands out, numbered by
    draw. *)
Class Backend := {
  EmbedState : Type;
  embed_content :
    EmbedState -> string -> string -> TaskType ->
    EmbedState * result (gmap string (list float));
  distance : list float -> list float -> float;
  uuid4 : nat -> string
}.

(** An item of the [documents] argument of [add_documents]:
    [doc['content']], [doc['title']], [doc['metadata']]. *)
Record Document := {
  content : string;
  title : string;
  metadata : gmap string PyVal
}.

(** A stored record of the collection. *)
Record EmbeddingRecord := {
  rec_id : string;
  rec_embedding : list float;
  rec_metadata : gmap string PyVal;
  rec_document : string
}.

(** The calls that leave the process, in the order they are issued. *)
Inductive Event :=
| EmbedRequest (text : string) (task : TaskType)
| CollectionAdd (n : nat)
| CollectionQuery (n_results : Z)
| CollectionGet
| CollectionDelete
| CollectionCreate.

Section Store.
Context `{Backend}.

(** Everything the methods of [VectorStore] read or change.  [fault] is
    the exception every call into the persistent store raises while the
    store is unavailable. *)
Record World := {
  records : list EmbeddingRecord;
  embedder : EmbedState;
  uuid_next : nat;
  fault : option exc;
  trace : list Event
}.

Definition set_records (rs : list EmbeddingRecord) (w : World) : World :=
  {| records := rs; embedder := embedder w; uuid_next := uuid_next w;
     fault := fault w; trace := trace w |}.

Definition set_embedder (e : EmbedState) (w : World) : World :=
  {| records := records w; embedder := e; uuid_next := uuid_next w;
     fault := fault w; trace := trace w |}.

Definition log (ev : Event) (w : World) : World :=
  {| records := records w; embedder := embedder w; uuid_next := uuid_next w;
     fault := fault w; trace := trace w ++ [ev] |}.

Definition EMBEDDING_DIM : nat := 768.

(** A [VectorStore] object; [client] and [collection] are handles on the
    persistent store held in [World]. *)
Record VectorStore := { embedding_model_name : string }.

(** [str(uuid.uuid4())]. *)
Definition new_uuid : M World string :=
  fun w =>
    ({| records := records w; embedder := embedder w;
        uuid_next := S (uuid_next w); fault := fault w; trace := trace w |},
     Ok (uuid4 (uuid_next w))).

(** [genai.embed_content(model=..., content=text, task_type=...)]. *)
Definition genai_embed_content (model text : string) (task : TaskType)
    : M World (gmap string (list float)) :=
  fun w =>
    let w1 := log (EmbedRequest text task) w in
    match embed_content (embedder w) model text task with
    | (e', Returns r) => (set_embedder e' w1, Ok r)
    | (e', Raises x) => (set_embedder e' w1, Raise x)
    end.

(** [result['embedding']]. *)
Definition embedding_of (r : gmap string (list float)) : result (list float) :=
  match r !! "embedding" with
  | Some v => Returns v
  | None => Raises (Exc KeyError "'embedding'")
  end.

Definition zero_vector : list float := replicate EMBEDDING_DIM 0%float.

Definition _get_embedding (self : VectorStore) (text : string)
    : M World (list float) :=
  try_except
    (r <- genai_embed_content (embedding_model_name self) text retrieval_document ;;
     lift (embedding_of r))
    (fun _ => ret zero_vector).

Definition _get_query_embedding (self : VectorStore) (text : string)
    : M World (list float) :=
  try_except
    (r <- genai_embed_content (embedding_model_name self) text retrieval_query ;;
     lift (embedding_of r))
    (fun _ => ret zero_vector).

(** Modelled from the spec: the persisted collection, which is the
    third-party index and not part of the repository.  It is an ordered
    list of (id, embedding, text, metadata) records; [add] appends,
    [query] returns up to [k] nearest records by ascending distance (none
    for an empty index), [get] is an exact match on one metadata key, and
    deleting and recreating the collection leaves it empty.  A call into
    the store is logged, and raises while the store is unavailable. *)
Definition store_call {A} (ev : Event) (f : World -> World * A) : M World A :=
  fun w =>
    let w1 := log ev w in
    match fault w with
    | Some e => (w1, Raise e)
    | None => let '(w2, a) := f w1 in (w2, Ok a)
    end.

Fixpoint zip_records (ids : list string) (embeddings : list (list float))
    (metadatas : list (gmap string PyVal)) (documents : list string)
    : list EmbeddingRecord :=
  match ids, embeddings, metadatas, documents with
  | i :: ids', e :: embeddings', m :: metadatas', d :: documents' =>
      {| rec_id := i; rec_embedding := e; rec_metadata := m; rec_document := d |}
      :: zip_records ids' embeddings' metadatas' documents'
  | _, _, _, _ => []
  end.

(** Modelled from the spec: [collection.add(ids=..., embeddings=...,
    metadatas=..., documents=...)] writes one record per position, after
    the records already stored. *)
Definition collection_add (ids : list string) (embeddings : list (list float))
    (metadatas : list (gmap string PyVal)) (documents : list string)
    : M World unit :=
  store_call (CollectionAdd (length ids))
    (fun w =>
       (set_records (records w ++ zip_records ids embeddings metadatas documents) w,
        tt)).

(** Insert a scored record before the first one that is not nearer, so
    that equal distances keep their stored order. *)
Fixpoint insert_by_distance (x : float * EmbeddingRecord)
    (l : list (float * EmbeddingRecord)) : list (float * EmbeddingRecord) :=
  match l with
  | [] => [x]
  | y :: rest =>
      if PrimFloat.leb (fst x) (fst y) then x :: y :: rest
      else y :: insert_by_distance x rest
  end.

(** Modelled from the spec: the [k] nearest records, by ascending
    distance. *)
Definition nearest (query_embedding : list float) (k : Z)
    (rs : list EmbeddingRecord) : list (float * EmbeddingRecord) :=
  take (Z.to_nat k)
    (foldr insert_by_distance []
       ((fun r => (distance query_embedding (rec_embedding r), r)) <$> rs)).

(** The answer of [collection.query]: one inner list per query embedding. *)
Record QueryResult := {
  q_documents : list (list string);
  q_metadatas : list (list (gmap string PyVal));
  q_distances : list (list float)
}.

(** Modelled from the spec: [collection.query(query_embeddings=...,
    n_results=..., include=[...])]. *)
Definition collection_query (query_embeddings : list (list float))
    (n_results : Z) : M World QueryResult :=
  store_call (CollectionQuery n_results)
    (fun w =>
       let hits := (fun q => nearest q n_results (records w)) <$> query_embeddings in
       (w, {| q_documents := (fun h => (rec_document ∘ snd) <$> h) <$> hits;
              q_metadatas := (fun h => (rec_metadata ∘ snd) <$> h) <$> hits;
              q_distances := (fun h => fst <$> h) <$> hits |})).

(** Equality of a stored metadata value with the value of a [where]
    clause. *)
Definition where_eqb (v w : PyVal) : bool :=
  match v, w with
  | PStr a, PStr b => String.eqb a b
  | PInt a, PInt b => (a =? b)%Z
  | PBool a, PBool b => Bool.eqb a b
  | PFloat a, PFloat b => PrimFloat.eqb a b
  | _, _ => false
  end.

Definition matches (key : string) (value : PyVal) (r : EmbeddingRecord) : bool :=
  match rec_metadata r !! key with
  | Some v => where_eqb v value
  | None => false
  end.

(** Modelled from the spec: [collection.get(where={key: value},
    limit=..., include=['metadatas'])], reduced to its ['metadatas']
    entry: the first [limit] records, in stored order, whose metadata has
    [value] under [key]. *)
Definition collection_get (key : string) (value : PyVal) (limit : nat)
    : M World (list (gmap string PyVal)) :=
  store_call CollectionGet
    (fun w =>
       (w, rec_metadata
             <$> take limit
                   (filter (fun r => matches key value r = true) (records w)))).

(** Modelled from the spec: [client.delete_collection(COLLECTION_NAME)]
    drops every record. *)
Definition delete_collection : M World unit :=
  store_call CollectionDelete (fun w => (set_records [] w, tt)).

(** Modelled from the spec: [client.get_or_create_collection(...)] keeps
    what is stored. *)
Definition get_or_create_collection : M World unit :=
  store_call CollectionCreate (fun w => (w, tt)).

(** [VectorStore()]. *)
Definition __init__ : M World VectorStore :=
  get_or_create_collection ;;;
  ret {| embedding_model_name := "models/embedding-001" |}.

(** The four lists [add_documents] fills before the single write. *)
Record Batch := {
  ids : list string;
  embeddings : list (list float);
  metadatas : list (gmap string PyVal);
  documents_text : list string
}.

(** The metadata stored for [doc]: the scalar entries of
    [doc['metadata']], then [metadata['title'] = doc['title']]. *)
Definition stored_metadata (doc : Document) : gmap string PyVal :=
  <["title" := PStr (title doc)]>
    (filter (fun kv => is_scalar kv.2 = true) (metadata doc)).

(** The body of [for doc in documents]. *)
Fixpoint add_loop (self : VectorStore) (documents : list Document) (b : Batch)
    : M World Batch :=
  match documents with
  | [] => ret b
  | doc :: rest =>
      doc_id <- new_uuid ;;
      embedding <- _get_embedding self (content doc) ;;
      add_loop self rest
        {| ids := ids b ++ [doc_id];
           embeddings := embeddings b ++ [embedding];
           metadatas := metadatas b ++ [stored_metadata doc];
           documents_text := documents_text b ++ [content doc] |}
  end.

Definition add_documents (self : VectorStore) (documents : list Document)
    : M World unit :=
  match documents with
  | [] => ret tt
  | _ :: _ =>
      b <- add_loop self documents
             {| ids := []; embeddings := []; metadatas := []; documents_text := [] |} ;;
      collection_add (ids b) (embeddings b) (metadatas b) (documents_text b)
  end.

(** [l[i]] on a list. *)
Definition index {A} (l : list A) (i : nat) : result A :=
  match l !! i with
  | Some x => Returns x
  | None => Raises (Exc IndexError "list index out of range")
  end.

(** The dict [search] builds for hit [i]. *)
Definition hit (results : QueryResult) (i : nat) : M World (gmap string PyVal) :=
  metas <- lift (index (q_metadatas results) 0) ;;
  md <- lift (index metas i) ;;
  docs <- lift (index (q_documents results) 0) ;;
  doc <- lift (index docs i) ;;
  dists <- lift (index (q_distances results) 0) ;;
  dist <- lift (index dists i) ;;
  ret (<["content" := PStr doc]>
      (<["metadata" := PDict md]>
      (<["similarity_score" := PFloat (1 - dist)%float]>
      (<["title" := default (PStr "Unknown") (md !! "title")]>
      (<["source_file" := default (PStr "Unknown") (md !! "source_file")]>
      (<["page_number" := default PNone (md !! "page_number")]>
      (<["chunk_id" := default PNone (md !! "chunk_id")]>
      (<["original_document_id" := default PNone (md !! "original_document_id")]>
      (<["has_full_context" := PBool (bool_decide (is_Some (md !! "full_content")))]>
       ∅))))))))).

Definition search (self : VectorStore) (query : string) (top_k : Z)
    : M World (list (gmap string PyVal)) :=
  query_embedding <- _get_query_embedding self query ;;
  results <- collection_query [query_embedding] top_k ;;
  match q_documents results with
  | (_ :: _) as first :: _ => mapM (hit results) (seq 0 (length first))
  | _ => ret []
  end.

Definition NOT_FOUND : gmap string PyVal :=
  {[ "error" := PStr "Document not found" ]}.

Definition get_full_context (self : VectorStore) (original_document_id : string)
    : M World (gmap string PyVal) :=
  try_except
    (metas <- collection_get "original_document_id" (PStr original_document_id) 1 ;;
     match metas with
     | md :: _ =>
         ret (<["full_content" := default (PStr EmptyString) (md !! "full_content")]>
             (<["title" := default (PStr "Unknown") (md !! "title")]>
             (<["source_file" := default (PStr "Unknown") (md !! "source_file")]>
             (<["page_number" := default PNone (md !! "page_number")]>
             (<["total_pages" := default PNone (md !! "total_pages")]>
             (<["file_type" := default PNone (md !! "file_type")]> ∅))))))
     | [] => ret NOT_FOUND
     end)
    (fun _ => ret NOT_FOUND).

Definition reset_collection (self : VectorStore) : M World unit :=
  try_except delete_collection (fun _ => ret tt) ;;;
  get_or_create_collection.

End Store.
End vector_store.

(** ** agent/tools.py: the retrieval tool *)
Module tools.
Import Py.
Local Open Scope py_scope.

(** The answer of [requests.post]: [response.status_code] and what
    [response.json()] does. *)
Record HttpResponse := { status_code : Z; json : result PyVal }.

(** The network: [requests.post(url, json=..., timeout=...)] returns a
    response or raises. *)
Class Network := {
  NetState : Type;
  requests_post :
    NetState -> string -> gmap string PyVal -> Z -> NetState * result HttpResponse
}.

Section Retrieval.
Context `{Runtime} `{vector_store.Backend} `{Network}.

(** The module globals and what they reach: the network, the lazily
    created [_vector_store], and the persistent index. *)
Record ToolsWorld := {
  net : NetState;
  _vector_store : option vector_store.VectorStore;
  index : vector_store.World
}.

Definition set_net (n : NetState) (w : ToolsWorld) : ToolsWorld :=
  {| net := n; _vector_store := _vector_store w; index := index w |}.

(** Run a method of the vector store on the index of the tools' world. *)
Definition on_index {A} (c : M vector_store.World A) : M ToolsWorld A :=
  fun w =>
    let '(i, r) := c (index w) in
    ({| net := net w; _vector_store := _vector_store w; index := i |}, r).

Definition get_vector_store : M ToolsWorld vector_store.VectorStore :=
  w <- get ;;
  match _vector_store w with
  | Some vs => ret vs
  | None =>
      vs <- on_index vector_store.__init__ ;;
      modify (fun w => {| net := net w; _vector_store := Some vs; index := index w |}) ;;;
      ret vs
  end.

Definition API_URL : string :=
  "https://ai-booking-assistant-svqo.onrender.com/search".

Definition TOP_K : Z := 3.

Definition NO_INFO : string :=
  "No relevant information found in the knowledge base. The user may need to upload documents first.".

Definition SEPARATOR : string := NL +:+ NL +:+ "---" +:+ NL +:+ NL.

(** One pass of the formatting loop, the same in both search paths:
    [[Source: {source}{page_info}]\n{content}]. *)
Definition format_block (r : PyVal) : result string :=
  match py_get r "source_file" (PStr "Unknown") with
  | Raises e => Raises e
  | Returns source =>
      match py_get r "page_number" (PStr EmptyString) with
      | Raises e => Raises e
      | Returns page =>
          match py_get r "content" (PStr EmptyString) with
          | Raises e => Raises e
          | Returns content =>
              let page_info :=
                if truthy page then " (Page " +:+ py_str page +:+ ")"
                else EmptyString in
              Returns ("[Source: " +:+ py_str source +:+ page_info +:+ "]"
                       +:+ NL +:+ py_str content)
          end
      end
  end.

Fixpoint format_blocks (rs : list PyVal) : result (list string) :=
  match rs with
  | [] => Returns []
  | r :: rest =>
      match format_block r with
      | Raises e => Raises e
      | Returns b =>
          match format_blocks rest with
          | Raises e => Raises e
          | Returns bs => Returns (b :: bs)
          end
      end
  end.

Definition _search_local_knowledge_base (query : string) : M ToolsWorld string :=
  try_except
    (vector_store <- get_vector_store ;;
     results <- on_index (vector_store.search vector_store query TOP_K) ;;
     match results with
     | [] => ret NO_INFO
     | _ :: _ =>
         context_parts <- lift (format_blocks (PDict <$> results)) ;;
         ret (join SEPARATOR context_parts)
     end)
    (fun e => ret ("Error searching local knowledge base: " +:+ exc_str e)).

Definition post_search (query : string) : M ToolsWorld HttpResponse :=
  fun w =>
    match requests_post (net w) API_URL
            (<["query" := PStr query]> (<["top_k" := PInt TOP_K]> ∅)) 30 with
    | (n, Returns r) => (set_net n w, Ok r)
    | (n, Raises e) => (set_net n w, Raise e)
    end.

Definition is_request_exception (e : exc) : bool :=
  match exc_cls e with RequestException => true | _ => false end.

Definition search_knowledge_base (query : string) : M ToolsWorld string :=
  try_except2
    (response <- post_search query ;;
     if negb (status_code response =? 200)%Z
     then _search_local_knowledge_base query
     else
       data <- lift (json response) ;;
       results <- lift (py_get data "results" (PList [])) ;;
       if negb (truthy results) then ret NO_INFO
       else
         items <- lift (py_iter results) ;;
         context_parts <- lift (format_blocks items) ;;
         ret (join SEPARATOR context_parts))
    is_request_exception
    (fun e => _search_local_knowledge_base query)
    (fun e => ret ("Error searching knowledge base: " +:+ exc_str e)).

End Retrieval.
End tools.

(** ** Concrete collaborators, for running the definitions *)
Module Scenario.
Import Py.

(** A provider that answers from a fixed script, one entry per message,
    and fails once the script is over. *)
Definition scripted (script : list (result agent.Response)) : agent.Provider :=
  {| agent.ChatSession := list (result agent.Response);
     agent.start_chat := script;
     agent.send_message := fun cs _ =>
       match cs with
       | [] => ([], Raises (Exc RuntimeError "no answer"))
       | r :: rest => (rest, r)
       end |}.

(** Tools over a counter of bookings.  [create_booking] without its
    first argument fails the way a Python call with a missing argument
    does. *)
Definition demo_tools : agent.ToolEnv :=
  {| agent.ToolWorld := nat;
     agent.search_knowledge_base := fun _ w => (w, Returns "context");
     agent.create_booking := fun a w =>
       match a !! "customer_name" with
       | Some _ => (S w, Returns "Booking created")
       | None =>
           (w, Raises (Exc TypeError
                 "create_booking() missing 1 required positional argument: 'customer_name'"))
       end;
     agent.send_confirmation_email := fun _ w => (w, Returns "sent");
     agent.get_booking_info := fun _ w => (w, Returns "No booking found");
     agent.web_search_movies := fun _ w => (w, Returns "movies") |}.

Definition text_part (t : string) : agent.Part :=
  {| agent.function_call := None; agent.text := Some t |}.

Definition call_part (n : string) (a : gmap string PyVal) : agent.Part :=
  {| agent.function_call := Some {| agent.name := n; agent.args := a |};
     agent.text := Some EmptyString |}.

Definition response_of (ps : list agent.Part) : agent.Response :=
  {| agent.response_text := agent.Absent;
     agent.candidates :=
       Some [ {| agent.candidate_content := Some {| agent.parts := Some ps |};
                 agent.finish_reason := Some 1 |} ] |}.

Definition fresh `{agent.Provider} `{agent.ToolEnv} (m : Z) (w : agent.ToolWorld)
    : agent.State :=
  {| agent.self := agent.__init__ m; agent.world := w; agent.executed := [] |}.

(** A model that answers with plain text. *)
Definition greeter : agent.Provider :=
  scripted [Returns (response_of [text_part "hello"])].

(** A model whose first answer is blocked. *)
Definition blocked : exc := Exc ValueError "finish_reason: SAFETY".
Definition refusing : agent.Provider := scripted [Raises blocked].

(** A model that first asks for two tools at once, after some text, and
    answers in text once it has the first tool's result. *)
Definition booking_call : agent.FunctionCall :=
  {| agent.name := "create_booking"; agent.args := ∅ |}.
Definition two_calls : agent.Response :=
  response_of [text_part "one moment";
               call_part "create_booking" ∅;
               call_part "send_confirmation_email" ∅].
Definition done : agent.Response := response_of [text_part "done"].
Definition booker : agent.Provider := scripted [Returns two_calls; Returns done].

(** A model that asks for a tool that is not registered. *)
Definition flight_call : agent.FunctionCall :=
  {| agent.name := "book_flight"; agent.args := ∅ |}.
Definition asks_flight : agent.Response := response_of [call_part "book_flight" ∅].
Definition sorry : agent.Response := response_of [text_part "sorry"].
Definition confused : agent.Provider := scripted [Returns asks_flight; Returns sorry].

(** An embedding service that answers with a fixed 768-dimensional
    vector and is down for the text ["unreachable"]; squared Euclidean
    distance; identifiers numbered by draw. *)
Definition ones : list float := replicate 768 1%float.

Definition squared_l2 (a b : list float) : float :=
  foldr (fun xy acc => ((xy.1 - xy.2) * (xy.1 - xy.2) + acc)%float) 0%float
    (zip a b).

Definition demo_backend : vector_store.Backend :=
  {| vector_store.EmbedState := nat;
     vector_store.embed_content := fun n _ text _ =>
       if String.eqb text "unreachable"
       then (S n, Raises (Exc RuntimeError "503 Service Unavailable"))
       else (S n, Returns {[ "embedding" := ones ]});
     vector_store.distance := squared_l2;
     vector_store.uuid4 := fun n => "uuid-" +:+ pretty n |}.

Definition demo_store : vector_store.VectorStore :=
  {| vector_store.embedding_model_name := "models/embedding-001" |}.

Definition empty_index : @vector_store.World demo_backend :=
  @vector_store.Build_World demo_backend [] 0%nat 0%nat None [].

(** Two chunks of one source document; only the second carries the full
    text. *)
Definition chunk_without_full : vector_store.Document :=
  {| vector_store.content := "page one";
     vector_store.title := "Guide";
     vector_store.metadata :=
       <["original_document_id" := PStr "doc-1"]>
       (<["page_number" := PInt 1]> ∅) |}.

Definition chunk_with_full : vector_store.Document :=
  {| vector_store.content := "page two";
     vector_store.title := "Guide";
     vector_store.metadata :=
       <["original_document_id" := PStr "doc-1"]>
       (<["full_content" := PStr "page one page two"]> ∅) |}.

(** A record whose metadata has its own [title] and a list-valued entry. *)
Definition retitled : vector_store.Document :=
  {| vector_store.content := "text";
     vector_store.title := "B";
     vector_store.metadata :=
       <["title" := PStr "A"]> (<["tags" := PList [PStr "x"]]> ∅) |}.

(** The index after the two chunks were stored, the one with the full
    text first. *)
Definition guide_index : @vector_store.World demo_backend :=
  fst (@vector_store.add_documents demo_backend demo_store
         [chunk_with_full; chunk_without_full] empty_index).

Definition demo_runtime : Runtime := {| format_other := fun _ => "<value>" |}.

(** A search endpoint that times out, one that answers 503, and one that
    answers 200 with no results. *)
Definition timing_out : tools.Network :=
  {| tools.NetState := unit;
     tools.requests_post := fun _ _ _ _ =>
       (tt, Raises (Exc RequestException "Read timed out. (read timeout=30)")) |}.

Definition unavailable : tools.Network :=
  {| tools.NetState := unit;
     tools.requests_post := fun _ _ _ _ =>
       (tt, Returns {| tools.status_code := 503;
                       tools.json := Raises (Exc RequestException "Expecting value") |}) |}.

Definition answering_nothing : tools.Network :=
  {| tools.NetState := unit;
     tools.requests_post := fun _ _ _ _ =>
       (tt, Returns {| tools.status_code := 200;
                       tools.json := Returns (PDict {[ "results" := PList [] ]}) |}) |}.

Definition tools_world `{tools.Network} (n : tools.NetState)
    (i : @vector_store.World demo_backend)
    : @tools.ToolsWorld demo_backend _ :=
  @tools.Build_ToolsWorld demo_backend _ n None i.

End Scenario.

(** ** Vocabulary of the statements about the conversation loop *)
Module agent_spec.
Import Py agent.
Local Open Scope py_scope.

Section Vocabulary.
Context `{Provider} `{ToolEnv}.

Definition history (st : State) : list Entry := chat_history (self st).

Definition limit (st : State) : Z := max_history (self st).

(** The last [k] elements of a list, in their order. *)
Definition lastn {A} (k : nat) (l : list A) : list A := drop (length l - k) l.

(** What [_trim_history] leaves of a history [h] under [max_history = m]. *)
Definition trimmed (m : Z) (h : list Entry) : list Entry :=
  if (Z.of_nat (length h) >? m * 2)%Z then slice_from (- (m * 2)) h else h.

(** The entries a sequence of exchanges appends: the user's message,
    then the reply, exchange after exchange. *)
Definition appended (turns : list (string * string)) : list Entry :=
  turns ≫= (fun t => [user_entry t.1; assistant_entry t.2]).

(** [chat] calls that return through the end of the [try] block, one
    after the other on the same assistant, with the exchanges they made. *)
Inductive successful_calls : State -> list (string * string) -> State -> Prop :=
| no_call st : successful_calls st [] st
| next_call st turns st1 fuel user_message reply st2 :
    successful_calls st turns st1 ->
    chat_body fuel user_message st1 = (st2, Ok reply) ->
    successful_calls st (turns ++ [(user_message, reply)]) st2.

(** A computation that leaves the history and its bound alone. *)
Definition keeps_log {A} (c : M State A) : Prop :=
  forall st, history (fst (c st)) = history st /\ limit (fst (c st)) = limit st.

(** A computation that hands nothing to [_execute_tool]. *)
Definition keeps_executed {A} (c : M State A) : Prop :=
  forall st, executed (fst (c st)) = executed st.

(** [chat] up to the end of the loop, and from there on. *)
Definition chat_prefix (fuel : nat) (user_message : string) : M State Response :=
  st <- get ;;
  match chat_session (self st) with
  | None => put (set_session (Some start_chat) st)
  | Some _ => ret tt
  end ;;;
  response <- session_send (UserText user_message) ;;
  chat_loop fuel response.

Definition chat_suffix (user_message : string) (response : Response)
    : M State string :=
  let assistant_message := _extract_response_text response in
  modify (append_history (user_entry user_message)) ;;;
  modify (append_history (assistant_entry assistant_message)) ;;;
  _trim_history ;;;
  ret assistant_message.

(** The dispatcher's two failures and the string each is turned into. *)
Inductive dispatch_error (fc : FunctionCall) (st : State) : string -> Prop :=
| unknown_tool :
    TOOL_MAP !! name fc = None ->
    dispatch_error fc st ("Error: Unknown tool '" +:+ name fc +:+ "'")
| tool_raised tool_func w e :
    TOOL_MAP !! name fc = Some tool_func ->
    tool_func (args fc) (world st) = (w, Raises e) ->
    dispatch_error fc st ("Error executing " +:+ name fc +:+ ": " +:+ exc_str e).

(** The first function-call part of the response, scanning its parts in
    order, carries [fc]: the parts before it are not function calls,
    whatever text they hold, and what follows it is arbitrary. *)
Definition requests (response : Response) (fc : FunctionCall) : Prop :=
  exists (pre : list Part) (p : Part) (rest : list Part),
    response_parts response = Returns (pre ++ p :: rest)%list
    /\ Forall (fun q => is_call_part q = false) pre
    /\ function_call p = Some fc
    /\ name fc <> EmptyString.

(** The response has parts and none of them is a function call. *)
Definition requests_nothing (response : Response) : Prop :=
  exists ps,
    response_parts response = Returns ps
    /\ Forall (fun q => is_call_part q = false) ps.

(** The state [chat] sends the user's message from: the session is
    created if there is none. *)
Definition started (st : State) : State :=
  match chat_session (self st) with
  | Some _ => st
  | None => set_session (Some start_chat) st
  end.

(** What one pass of the loop does when it acts on the call [fc]. *)
Definition act_on (fc : FunctionCall) : M State (Response + Response) :=
  tool_result <- _execute_tool fc ;;
  response' <- session_send (FunctionResponse (name fc) tool_result) ;;
  ret (inl response').

End Vocabulary.
End agent_spec.

(** ** Vocabulary of the statements about the index and the retrieval tool *)
Module store_spec.
Import Py vector_store.

Section Vocabulary.
Context `{Backend}.

(** Every stored id is one of the identifiers drawn so far. *)
Definition ids_drawn (w : World) : Prop :=
  forall r, r ∈ records w ->
    exists i, (i < uuid_next w)%nat /\ rec_id r = uuid4 i.

(** The metadata belongs to the group of document [X]. *)
Definition in_group (X : string) (md : gmap string PyVal) : Prop :=
  md !! "original_document_id" = Some (PStr X).

(** The vector an embedding call ends with, given what the service did. *)
Definition embedded (r : result (gmap string (list float))) : list float :=
  match r with
  | Returns d => default zero_vector (d !! "embedding")
  | Raises _ => zero_vector
  end.

(** The service keeps to one dimensionality: every vector it returns has
    [EMBEDDING_DIM] components. *)
Definition fixed_dimension : Prop :=
  forall es model text task es' d v,
    embed_content es model text task = (es', Returns d) ->
    d !! "embedding" = Some v ->
    length v = EMBEDDING_DIM.

(** The request [add_documents] issues for a document. *)
Definition embed_event (doc : Document) : Event :=
  EmbedRequest (content doc) retrieval_document.

(** The dict [get_full_context] builds from a record's metadata. *)
Definition context_of (md : gmap string PyVal) : gmap string PyVal :=
  <["full_content" := default (PStr EmptyString) (md !! "full_content")]>
  (<["title" := default (PStr "Unknown") (md !! "title")]>
  (<["source_file" := default (PStr "Unknown") (md !! "source_file")]>
  (<["page_number" := default PNone (md !! "page_number")]>
  (<["total_pages" := default PNone (md !! "total_pages")]>
  (<["file_type" := default PNone (md !! "file_type")]> ∅))))).

End Vocabulary.
End store_spec.

Module tools_spec.
Import Py tools.

Section Vocabulary.
Context `{Runtime} `{vector_store.Backend} `{Network}.

(** The body of the request [search_knowledge_base] posts. *)
Definition search_request (query : string) : gmap string PyVal :=
  <["query" := PStr query]> (<["top_k" := PInt TOP_K]> ∅).

(** The remote search failed in a way the tool recovers from: a status
    other than 200, or a network exception (a timeout is one).  [n] is
    the network after the attempt. *)
Inductive remote_failed (query : string) (w : ToolsWorld) : NetState -> Prop :=
| bad_status n r :
    requests_post (net w) API_URL (search_request query) 30 = (n, Returns r) ->
    status_code r <> 200%Z ->
    remote_failed query w n
| network_error n e :
    requests_post (net w) API_URL (search_request query) 30 = (n, Raises e) ->
    exc_cls e = RequestException ->
    remote_failed query w n.

(** The remote search answered 200 and its [results] entry is missing or
    empty. *)
Inductive remote_empty (query : string) (w : ToolsWorld) : Prop :=
| no_remote_results n r data results :
    requests_post (net w) API_URL (search_request query) 30 = (n, Returns r) ->
    status_code r = 200%Z ->
    json r = Returns data ->
    py_get data "results" (PList []) = Returns results ->
    truthy results = false ->
    remote_empty query w.

(** The local search returns an empty list. *)
Definition local_empty (query : string) (w : ToolsWorld) : Prop :=
  exists vs w1 w2,
    get_vector_store w = (w1, Ok vs)
    /\ on_index (vector_store.search vs query TOP_K) w1 = (w2, Ok []).

(** A computation that neither reads nor changes the network state. *)
Definition net_frame {A} (c : M ToolsWorld A) : Prop :=
  forall n w, c (set_net n w) = (set_net n (fst (c w)), snd (c w)).

End Vocabulary.
End tools_spec.

(** ** agent/tools.py: the booking tools, over the tables of main.py *)
Module booking.
Import Py.
Local Open Scope py_scope.

Definition DQ : string := String "034"%char EmptyString.

(** A row of [customers]: [customer_id], [name], [email], [phone]. *)
Record Customer := {
  customer_id : Z;
  name : string;
  email : string;
  phone : string
}.

(** A row of [bookings]. *)
Record Booking := {
  id : Z;
  booking_customer_id : Z;
  booking_type : string;
  date : string;
  time : string;
  status : string;
  created_at : string
}.

(** Modelled from the spec: the SQLite file, which the repository only
    reaches through SQL.  Following the schema of [init_booking_db]
    (main.py) it holds the tables [customers] and [bookings], rows in
    rowid order, and for each table the largest rowid ever used, which
    AUTOINCREMENT keeps. *)
Record Database := {
  customers : list Customer;
  bookings : list Booking;
  customers_seq : Z;
  bookings_seq : Z
}.

(** [Mail(from_email=..., to_emails=..., subject=..., html_content=...)]. *)
Record Mail := {
  from_email : string;
  to_emails : string;
  subject : string;
  html_content : string
}.

(** What the booking tools read or change: the database, the exception
    [sqlite3] raises while the file cannot be used, the clock behind
    [datetime('now')], [os.environ], the exceptions importing [sendgrid]
    and sending raise when they fail, and the mails the mail service
    accepted, each with the API key it was sent under. *)
Record World := {
  db : Database;
  db_fault : option exc;
  now : string;
  environ : gmap string string;
  import_fault : option exc;
  send_fault : option exc;
  outbox : list (string * Mail)
}.

Definition set_db (d : Database) (w : World) : World :=
  {| db := d; db_fault := db_fault w; now := now w; environ := environ w;
     import_fault := import_fault w; send_fault := send_fault w;
     outbox := outbox w |}.

(** Modelled from the spec: [sqlite3.connect(DB_PATH)]. *)
Definition connect : M World unit :=
  fun w =>
    match db_fault w with
    | Some e => (w, Raise e)
    | None => (w, Ok tt)
    end.

(** Modelled from the spec: [cursor.execute(...)] for a statement that
    maps the tables to new tables and an answer, or fails. *)
Definition execute {A} (statement : Database -> Database * result A) : M World A :=
  fun w =>
    match db_fault w with
    | Some e => (w, Raise e)
    | None =>
        match statement (db w) with
        | (d, Returns a) => (set_db d w, Ok a)
        | (d, Raises e) => (set_db d w, Raise e)
        end
    end.

(** [with sqlite3.connect(DB_PATH) as conn: body]: what the body wrote is
    rolled back when it raises. *)
Definition with_connection {A} (body : M World A) : M World A :=
  fun w =>
    match bind connect (fun _ => body) w with
    | (w', Raise e) => (set_db (db w) w', Raise e)
    | r => r
    end.

(** [SELECT customer_id FROM customers WHERE email = ?], [fetchone()]. *)
Definition select_customer_id (e : string) (d : Database)
    : Database * result (option Z) :=
  (d, Returns (customer_id
                 <$> List.find (fun c => String.eqb (email c) e) (customers d))).

(** [UPDATE customers SET name = ?, phone = ? WHERE customer_id = ?]. *)
Definition update_customer (n p : string) (cid : Z) (d : Database)
    : Database * result unit :=
  ({| customers :=
        (fun c => if (customer_id c =? cid)%Z
                  then {| customer_id := customer_id c; name := n;
                          email := email c; phone := p |}
                  else c) <$> customers d;
      bookings := bookings d;
      customers_seq := customers_seq d;
      bookings_seq := bookings_seq d |},
   Returns tt).

Definition largest (ids : list Z) : Z := foldr Z.max 0%Z ids.

(** The rowid AUTOINCREMENT gives a new row: one more than the largest
    rowid the table has ever had. *)
Definition next_rowid (seq : Z) (ids : list Z) : Z :=
  (Z.max seq (largest ids) + 1)%Z.

(** [INSERT INTO customers (name, email, phone) VALUES (?, ?, ?)]; the
    answer is [cursor.lastrowid].  The column [email] is UNIQUE. *)
Definition insert_customer (n e p : string) (d : Database)
    : Database * result Z :=
  if existsb (fun c => String.eqb (email c) e) (customers d)
  then (d, Raises (Exc RuntimeError "UNIQUE constraint failed: customers.email"))
  else
    let cid := next_rowid (customers_seq d) (customer_id <$> customers d) in
    ({| customers :=
          customers d
          ++ [{| customer_id := cid; name := n; email := e; phone := p |}];
        bookings := bookings d;
        customers_seq := cid;
        bookings_seq := bookings_seq d |},
     Returns cid).

(** [INSERT INTO bookings (customer_id, booking_type, date, time, status,
    created_at) VALUES (?, ?, ?, ?, 'confirmed', datetime('now'))]; the
    answer is [cursor.lastrowid]. *)
Definition insert_booking (cid : Z) (ty da ti created : string) (d : Database)
    : Database * result Z :=
  let bid := next_rowid (bookings_seq d) (id <$> bookings d) in
  ({| customers := customers d;
      bookings :=
        bookings d
        ++ [{| id := bid; booking_customer_id := cid; booking_type := ty;
               date := da; time := ti; status := "confirmed";
               created_at := created |}];
      customers_seq := customers_seq d;
      bookings_seq := bid |},
   Returns bid).

(** [SELECT ... FROM bookings b JOIN customers c ON b.customer_id =
    c.customer_id WHERE b.id = ?], [fetchone()]. *)
Definition select_booking (bid : Z) (d : Database)
    : Database * result (option (Booking * Customer)) :=
  (d, Returns (head (b ← filter (fun b => id b = bid) (bookings d);
                     c ← filter (fun c => customer_id c = booking_customer_id b)
                           (customers d);
                     [(b, c)]))).

Definition create_booking
    (customer_name customer_email customer_phone
     booking_type booking_date booking_time : string) : M World string :=
  try_except
    (booking_id <-
       with_connection
         (row <- execute (select_customer_id customer_email) ;;
          customer_id <-
            match row with
            | Some cid =>
                execute (update_customer customer_name customer_phone cid) ;;;
                ret cid
            | None =>
                execute (insert_customer customer_name customer_email
                           customer_phone)
            end ;;
          w <- get ;;
          execute (insert_booking customer_id booking_type booking_date
                     booking_time (now w))) ;;
     ret (
       "‚úÖ Booking created successfully!" +:+ NL +:+ NL +:+
       "**Booking ID:** " +:+ pretty booking_id +:+ NL +:+ "**Customer:** " +:+
       customer_name +:+ NL +:+ "**Type:** " +:+ booking_type +:+ NL +:+
       "**Date:** " +:+ booking_date +:+ NL +:+ "**Time:** " +:+ booking_time))
    (fun e => ret (
       "‚ùå Error creating booking: " +:+ exc_str e)).

(** The text [get_booking_info] returns for a booking and its customer. *)
Definition booking_details (b : Booking) (c : Customer) : string :=
  "**Booking Details:**" +:+ NL +:+ "- **Booking ID:** " +:+
  pretty (id b) +:+ NL +:+ "- **Customer:** " +:+ name c +:+ NL +:+
  "- **Email:** " +:+ email c +:+ NL +:+ "- **Phone:** " +:+ phone c +:+
  NL +:+ "- **Type:** " +:+ booking_type b +:+ NL +:+ "- **Date:** " +:+
  date b +:+ NL +:+ "- **Time:** " +:+ time b +:+ NL +:+ "- **Status:** " +:+
  status b.

Definition get_booking_info (booking_id : Z) : M World string :=
  try_except
    (row <- with_connection (execute (select_booking booking_id)) ;;
     match row with
     | None => ret (
       "No booking found with ID " +:+ pretty booking_id +:+ ".")
     | Some (b, c) => ret (booking_details b c)
     end)
    (fun e => ret (
       "Error retrieving booking: " +:+ exc_str e)).

(** [from sendgrid import SendGridAPIClient], [... import Mail]. *)
Definition import_sendgrid : M World unit :=
  fun w =>
    match import_fault w with
    | Some e => (w, Raise e)
    | None => (w, Ok tt)
    end.

(** [SendGridAPIClient(key).send(message)]. *)
Definition sendgrid_send (key : string) (message : Mail) : M World unit :=
  fun w =>
    match send_fault w with
    | Some e => (w, Raise e)
    | None =>
        ({| db := db w; db_fault := db_fault w; now := now w;
            environ := environ w; import_fault := import_fault w;
            send_fault := send_fault w;
            outbox := outbox w ++ [(key, message)] |},
         Ok tt)
    end.

(** The mail [send_confirmation_email] writes for a booking. *)
Definition confirmation (sender : string) (b : Booking) (c : Customer) : Mail :=
  {| from_email := sender;
     to_emails := email c;
     subject :=
       "Booking Confirmation - " +:+ booking_type b;
     html_content :=
       NL +:+ "        <html>" +:+ NL +:+ "            <body style=" +:+ DQ +:+
       "font-family: Arial, sans-serif;" +:+ DQ +:+ ">" +:+ NL +:+
       "                <h2 style=" +:+ DQ +:+ "color: #2563eb;" +:+ DQ +:+
       ">Booking Confirmation</h2>" +:+ NL +:+ "                <p>Dear " +:+
       name c +:+ ",</p>" +:+ NL +:+
       "                <p>Your booking has been confirmed:</p>" +:+ NL +:+
       "                <div style=" +:+ DQ +:+
       "background: #f3f4f6; padding: 20px; border-radius: 8px;" +:+ DQ +:+
       ">" +:+ NL +:+ "                    <p><strong>Booking ID:</strong> " +:+
       pretty (id b) +:+ "</p>" +:+ NL +:+
       "                    <p><strong>Type:</strong> " +:+ booking_type b +:+
       "</p>" +:+ NL +:+ "                    <p><strong>Date:</strong> " +:+
       date b +:+ "</p>" +:+ NL +:+
       "                    <p><strong>Time:</strong> " +:+ time b +:+ "</p>" +:+
       NL +:+ "                </div>" +:+ NL +:+
       "                <p>Thank you!</p>" +:+ NL +:+ "            </body>" +:+
       NL +:+ "        </html>" +:+ NL +:+ "        " |}.

Definition NOT_CONFIGURED : string :=
  "‚ùå Email service not configured.".

Definition send_confirmation_email (booking_id : Z) : M World string :=
  try_except
    (import_sendgrid ;;;
     row <- with_connection (execute (select_booking booking_id)) ;;
     match row with
     | None => ret (
       "‚ùå Booking with ID " +:+ pretty booking_id +:+ " not found.")
     | Some (b, c) =>
         w <- get ;;
         let sendgrid_api_key := environ w !! "SENDGRID_API_KEY" in
         let sender := default "bookings@example.com" (environ w !! "FROM_EMAIL") in
         match sendgrid_api_key with
         | Some (String k key) =>
             sendgrid_send (String k key) (confirmation sender b c) ;;;
             ret (
               "‚úÖ Confirmation email sent to " +:+ email c +:+ "!")
         | _ => ret NOT_CONFIGURED
         end
     end)
    (fun e => ret (
       "‚ùå Failed to send email: " +:+ exc_str e)).

End booking.

(** ** rag_system/vector_store.py and main.py: statistics and the context
    endpoint *)
Module vector_store_stats.
Import Py vector_store.
Local Open Scope py_scope.

(** [COLLECTION_NAME] of [rag_system/config.py]. *)
Class Config := { COLLECTION_NAME : string }.

(** The answer of an endpoint: the body it returns, or the
    [HTTPException] it raises. *)
Inductive http_result (A : Type) :=
| Respond (body : A)
| HTTPException (status_code : Z) (detail : string).
Arguments Respond {A} body.
Arguments HTTPException {A} status_code detail.

Section Stats.
Context `{Backend} `{Config}.

(** Modelled from the spec: [collection.count()], the number of stored
    records. *)
Definition collection_count : M World Z :=
  fun w =>
    match fault w with
    | Some e => (w, Raise e)
    | None => (w, Ok (Z.of_nat (length (records w))))
    end.

Definition get_collection_stats (self : VectorStore) : M World (gmap string PyVal) :=
  count <- collection_count ;;
  ret (<["total_documents" := PInt count]>
      (<["collection_name" := PStr COLLECTION_NAME]>
      (<["embedding_model" := PStr (embedding_model_name self)]> ∅))).

(** main.py, [GET /context/{document_id}], on the module's
    [vector_store]. *)
Definition get_context (vector_store : VectorStore) (document_id : string)
    : M World (http_result (gmap string PyVal)) :=
  try_except
    (context <- get_full_context vector_store document_id ;;
     ret (Respond context))
    (fun e =>
       ret (HTTPException 500 ("Failed to get context: " +:+ exc_str e))).

End Stats.
End vector_store_stats.

(** ** Further vocabulary: the index, the retrieval tool, the bookings *)
Module store_more.
Import Py vector_store store_spec.

Section Vocabulary.
Context `{Backend}.

(** The dict [search] builds for a stored record at distance [dist]. *)
Definition result_of (hit : float * EmbeddingRecord) : gmap string PyVal :=
  let md := rec_metadata hit.2 in
  <["content" := PStr (rec_document hit.2)]>
  (<["metadata" := PDict md]>
  (<["similarity_score" := PFloat (1 - hit.1)%float]>
  (<["title" := default (PStr "Unknown") (md !! "title")]>
  (<["source_file" := default (PStr "Unknown") (md !! "source_file")]>
  (<["page_number" := default PNone (md !! "page_number")]>
  (<["chunk_id" := default PNone (md !! "chunk_id")]>
  (<["original_document_id" := default PNone (md !! "original_document_id")]>
  (<["has_full_context" := PBool (bool_decide (is_Some (md !! "full_content")))]>
   ∅)))))))).

(** The [content] entries of a list of search results. *)
Definition contents (results : list (gmap string PyVal)) : list (option PyVal) :=
  (fun res => res !! "content") <$> results.

End Vocabulary.
End store_more.

Module tools_more.
Import Py tools tools_spec.

Section Vocabulary.
Context `{Runtime} `{vector_store.Backend} `{Network}.

(** The remote search answers 200 with a JSON object; [n] is the network
    after the request and [data] the decoded body. *)
Definition remote_answers (query : string) (w : ToolsWorld) (n : NetState)
    (data : PyVal) : Prop :=
  exists r,
    requests_post (net w) API_URL (search_request query) 30 = (n, Returns r)
    /\ status_code r = 200%Z
    /\ json r = Returns data.

(** The local search finds the list [results]. *)
Definition local_finds (query : string) (w : ToolsWorld)
    (results : list (gmap string PyVal)) : Prop :=
  exists vs w1 w2,
    get_vector_store w = (w1, Ok vs)
    /\ on_index (vector_store.search vs query TOP_K) w1 = (w2, Ok results).

End Vocabulary.
End tools_more.

Module booking_spec.
Import Py booking.

(** The key of [customers] and the key of [bookings] hold. *)
Definition keys_hold (d : Database) : Prop :=
  NoDup (customer_id <$> customers d) /\ NoDup (id <$> bookings d).

(** No two customers share an email (the UNIQUE column). *)
Definition emails_unique (d : Database) : Prop :=
  NoDup (email <$> customers d).

(** Every booking is the booking of a stored customer. *)
Definition references_hold (d : Database) : Prop :=
  forall b, b ∈ bookings d ->
    exists c, c ∈ customers d /\ customer_id c = booking_customer_id b.

(** The reply of [create_booking] for the new booking [bid]. *)
Definition created_reply (bid : Z) (n ty da ti : string) : string :=
  "‚úÖ Booking created successfully!" +:+ NL +:+ NL +:+
  "**Booking ID:** " +:+ pretty bid +:+ NL +:+ "**Customer:** " +:+
  n +:+ NL +:+ "**Type:** " +:+ ty +:+ NL +:+
  "**Date:** " +:+ da +:+ NL +:+ "**Time:** " +:+ ti.

(** What [send_confirmation_email] reads from the environment: the API
    key, when it is set and not empty, and the sender. *)
Definition configured_key (w : World) : option string :=
  match environ w !! "SENDGRID_API_KEY" with
  | Some (String k key) => Some (String k key)
  | _ => None
  end.

Definition sender_of (w : World) : string :=
  default "bookings@example.com" (environ w !! "FROM_EMAIL").

(** The booking [bid] joined with its customer, as both tools read it. *)
Definition lookup_booking (bid : Z) (d : Database) : option (Booking * Customer) :=
  head (b ← filter (fun b => id b = bid) (bookings d);
        c ← filter (fun c => customer_id c = booking_customer_id b)
              (customers d);
        [(b, c)]).

End booking_spec.

(** ** main.py: the booking endpoints *)
Module main_api.
Import Py vector_store_stats.
Local Open Scope py_scope.

(** [BookingRequest], after validation: [status] is [Optional[str]], so a
    request may carry [null] there. *)
Record BookingRequest := {
  name : string;
  email : string;
  phone : string;
  booking_type : string;
  date : string;
  time : string;
  status : option string
}.

Record BookingResponse := {
  booking_id : Z;
  customer_id : Z;
  message : string
}.

(** [EmailRequest] and [EmailResponse]; the fields both call
    [booking_id] and [message] are told apart by a prefix. *)
Record EmailRequest := {
  email_booking_id : Z;
  recipient_email : option string
}.

Record EmailResponse := {
  success : bool;
  email_message : string;
  email_response_booking_id : Z
}.

(** [INSERT INTO bookings (customer_id, booking_type, date, time, status,
    created_at) VALUES (?, ?, ?, ?, ?, datetime('now'))]; the column
    [status] is NOT NULL. *)
Definition insert_booking (cid : Z) (ty da ti : string) (st : option string)
    (created : string) (d : booking.Database) : booking.Database * result Z :=
  match st with
  | None =>
      (d, Raises (Exc RuntimeError "NOT NULL constraint failed: bookings.status"))
  | Some s =>
      let bid := booking.next_rowid (booking.bookings_seq d)
                   (booking.id <$> booking.bookings d) in
      ({| booking.customers := booking.customers d;
          booking.bookings :=
            booking.bookings d
            ++ [{| booking.id := bid; booking.booking_customer_id := cid;
                   booking.booking_type := ty; booking.date := da;
                   booking.time := ti; booking.status := s;
                   booking.created_at := created |}];
          booking.customers_seq := booking.customers_seq d;
          booking.bookings_seq := bid |},
       Returns bid)
  end.

(** [POST /booking].  The answer is the body returned or the
    [HTTPException] raised. *)
Definition create_booking (request : BookingRequest)
    : M booking.World (http_result BookingResponse) :=
  try_except
    (ids <-
       booking.with_connection
         (row <- booking.execute (booking.select_customer_id (email request)) ;;
          customer_id <-
            match row with
            | Some cid =>
                booking.execute
                  (booking.update_customer (name request) (phone request) cid) ;;;
                ret cid
            | None =>
                booking.execute
                  (booking.insert_customer (name request) (email request)
                     (phone request))
            end ;;
          w <- get ;;
          booking_id <-
            booking.execute
              (insert_booking customer_id (booking_type request) (date request)
                 (time request) (status request) (booking.now w)) ;;
          ret (booking_id, customer_id)) ;;
     ret (Respond {| booking_id := ids.1; customer_id := ids.2;
                     message := "Booking stored successfully" |}))
    (fun e =>
       ret (HTTPException 500 ("Failed to create booking: " +:+ exc_str e))).

(** [email_request.recipient_email or customer_email]. *)
Definition recipient (email_request : EmailRequest) (c : booking.Customer)
    : string :=
  match recipient_email email_request with
  | Some (String a rest) => String a rest
  | _ => booking.email c
  end.

(** The mail [send_booking_email] writes. *)
Definition booking_mail (sender to_email : string) (b : booking.Booking)
    (c : booking.Customer) : booking.Mail :=
  {| booking.from_email := sender;
     booking.to_emails := to_email;
     booking.subject :=
       "Booking Confirmation - " +:+ booking.booking_type b;
     booking.html_content :=
       NL +:+ "        <html>" +:+ NL +:+ "            <body>" +:+ NL +:+
       "                <h2>Booking Confirmation</h2>" +:+ NL +:+
       "                <p>Dear " +:+ booking.name c +:+ ",</p>" +:+ NL +:+
       "                <p>Your booking has been confirmed with the following details:</p>" +:+
       NL +:+ "                <ul>" +:+ NL +:+
       "                    <li><strong>Booking ID:</strong> " +:+
       pretty (booking.id b) +:+ "</li>" +:+ NL +:+
       "                    <li><strong>Type:</strong> " +:+
       booking.booking_type b +:+ "</li>" +:+ NL +:+
       "                    <li><strong>Date:</strong> " +:+
       booking.date b +:+ "</li>" +:+ NL +:+
       "                    <li><strong>Time:</strong> " +:+
       booking.time b +:+ "</li>" +:+ NL +:+
       "                    <li><strong>Status:</strong> " +:+
       booking.status b +:+ "</li>" +:+ NL +:+ "                </ul>" +:+
       NL +:+
       "                <p>If you have any questions, please contact us.</p>" +:+
       NL +:+ "                <p>Thank you!</p>" +:+ NL +:+
       "            </body>" +:+ NL +:+ "        </html>" +:+ NL +:+
       "        " |}.

(** [POST /booking/send-email].  The two [HTTPException]s raised inside
    the [try] block pass through [except HTTPException: raise]; the one
    raised inside the [with] block follows a [SELECT], so that the
    rollback of the connection has nothing to undo. *)
Definition send_booking_email (email_request : EmailRequest)
    : M booking.World (http_result EmailResponse) :=
  try_except
    (row <- booking.with_connection
              (booking.execute
                 (booking.select_booking (email_booking_id email_request))) ;;
     match row with
     | None => ret (HTTPException 404 "Booking not found")
     | Some (b, c) =>
         let to_email := recipient email_request c in
         w <- get ;;
         let sendgrid_api_key := booking.environ w !! "SENDGRID_API_KEY" in
         let from_email :=
           default "bookings@example.com" (booking.environ w !! "FROM_EMAIL") in
         match sendgrid_api_key with
         | Some (String k key) =>
             booking.sendgrid_send (String k key)
               (booking_mail from_email to_email b c) ;;;
             ret (Respond
                    {| success := true;
                       email_message := "Email sent successfully to " +:+ to_email;
                       email_response_booking_id := booking.id b |})
         | _ =>
             ret (HTTPException 500 "SENDGRID_API_KEY not configured in .env file")
         end
     end)
    (fun e => ret (HTTPException 500 ("Failed to send email: " +:+ exc_str e))).

End main_api.

(** ** agent/tools.py: the movie search tool *)
Module movies.
Import Py.
Local Open Scope py_scope.

(** The [tavily] package: the constructor of [TavilyClient] and its
    [search(query=..., search_depth=..., max_results=...)], whose answer
    is a decoded JSON value. *)
Class Tavily := {
  TavilyState : Type;
  Client : Type;
  TavilyClient : string -> result Client;
  client_search :
    TavilyState -> Client -> string -> string -> Z -> TavilyState * result PyVal
}.

Section Movies.
Context `{Runtime} `{Tavily}.

(** What the tool reads or changes: the search service, [os.environ],
    and the exception importing [tavily] raises when it fails. *)
Record World := {
  tavily : TavilyState;
  environ : gmap string string;
  import_fault : option exc
}.

(** [from tavily import TavilyClient]. *)
Definition import_tavily : M World unit :=
  fun w =>
    match import_fault w with
    | Some e => (w, Raise e)
    | None => (w, Ok tt)
    end.

Definition search (client : Client) (query search_depth : string)
    (max_results : Z) : M World PyVal :=
  fun w =>
    match client_search (tavily w) client query search_depth max_results with
    | (t, Returns r) =>
        ({| tavily := t; environ := environ w; import_fault := import_fault w |},
         Ok r)
    | (t, Raises e) =>
        ({| tavily := t; environ := environ w; import_fault := import_fault w |},
         Raise e)
    end.

(** [v[key]]. *)
Definition py_getitem (v : PyVal) (key : string) : result PyVal :=
  match v with
  | PDict d =>
      match d !! key with
      | Some x => Returns x
      | None => Raises (Exc KeyError ("'" +:+ key +:+ "'"))
      end
  | PStr _ =>
      Raises (Exc TypeError "string indices must be integers, not 'str'")
  | PList _ =>
      Raises (Exc TypeError "list indices must be integers or slices, not str")
  | _ =>
      Raises (Exc TypeError ("'" +:+ type_name v +:+ "' object is not subscriptable"))
  end.

(** A byte [10xxxxxx], which continues a code point of a UTF-8 string. *)
Definition is_continuation (a : ascii) : bool :=
  let n := nat_of_ascii a in (128 <=? n)%nat && (n <? 192)%nat.

(** [s[:n]] on a string.  Strings here are the UTF-8 bytes of Python's
    strings, and Python counts code points. *)
Fixpoint take_code_points (n : nat) (s : string) : string :=
  match s with
  | EmptyString => EmptyString
  | String a rest =>
      if is_continuation a then String a (take_code_points n rest)
      else
        match n with
        | O => EmptyString
        | S n' => String a (take_code_points n' rest)
        end
  end.

(** [v[:n]]. *)
Definition py_slice_to (n : nat) (v : PyVal) : result PyVal :=
  match v with
  | PStr s => Returns (PStr (take_code_points n s))
  | PList l => Returns (PList (take n l))
  | PDict _ => Raises (Exc TypeError "unhashable type: 'slice'")
  | _ =>
      Raises (Exc TypeError ("'" +:+ type_name v +:+ "' object is not subscriptable"))
  end.

Definition NOT_CONFIGURED : string :=
  "‚ùå Tavily API key not configured. Please add TAVILY_API_KEY to your .env file.".

Definition NO_MOVIES : string :=
  "No movie information found. Please try a different search query.".

Definition HEADER : string :=
  "üé¨ **Currently Running Movies:**" +:+ NL +:+ NL.

Definition ERROR_PREFIX : string :=
  "‚ùå Error searching for movies: ".

(** What one pass of the loop appends to [results_text] for result
    number [i]. *)
Definition movie_block (i : Z) (res : PyVal) : result string :=
  match py_get res "title" (PStr "Unknown") with
  | Raises e => Raises e
  | Returns title =>
      match py_get res "content" (PStr EmptyString) with
      | Raises e => Raises e
      | Returns whole =>
          match py_slice_to 200 whole with
          | Raises e => Raises e
          | Returns content =>
              match py_get res "url" (PStr EmptyString) with
              | Raises e => Raises e
              | Returns url =>
                  Returns
                    (("**" +:+ pretty i +:+ ". " +:+ py_str title +:+ "**" +:+ NL) +:+
                     (py_str content +:+ "..." +:+ NL) +:+
                     (if truthy url
                      then "üîó [Source](" +:+ py_str url +:+ ")" +:+ NL
                      else EmptyString) +:+
                     NL)
              end
          end
      end
  end.

(** [for i, result in enumerate(items, i): results_text += ...]. *)
Fixpoint movie_loop (items : list PyVal) (i : Z) (results_text : string)
    : result string :=
  match items with
  | [] => Returns results_text
  | res :: rest =>
      match movie_block i res with
      | Raises e => Raises e
      | Returns block => movie_loop rest (i + 1) (results_text +:+ block)
      end
  end.

Definition web_search_movies (query : string) : M World string :=
  try_except
    (import_tavily ;;;
     w <- get ;;
     match environ w !! "TAVILY_API_KEY" with
     | Some (String k key) =>
         client <- lift (TavilyClient (String k key)) ;;
         let enhanced_query :=
           query +:+ " movies currently running in theaters 2026" in
         response <- search client enhanced_query "advanced" 5 ;;
         found <- lift (py_get response "results" PNone) ;;
         if negb (truthy found) then ret NO_MOVIES
         else
           results <- lift (py_getitem response "results") ;;
           items <- lift (py_iter results) ;;
           lift (movie_loop items 1 HEADER)
     | _ => ret NOT_CONFIGURED
     end)
    (fun e => ret (ERROR_PREFIX +:+ exc_str e)).

End Movies.
End movies.

(** ** Further vocabulary: the conversation after the claims *)
Module agent_more.
Import Py agent agent_spec.
Local Open Scope py_scope.

Section Vocabulary.
Context `{Provider} `{ToolEnv}.

(** The assistant after [clear_history]. *)
Definition cleared (st : State) : State := fst (clear_history st).

(** The assistant holds a dialogue session. *)
Definition has_session (st : State) : Prop := is_Some (chat_session (self st)).

(** A computation that keeps a session once there is one. *)
Definition keeps_session {A} (c : M State A) : Prop :=
  forall st, has_session st -> has_session (fst (c st)).

(** [needle] occurs in [haystack]. *)
Definition occurs_in (needle haystack : string) : Prop :=
  exists before after, haystack = before +:+ needle +:+ after.

End Vocabulary.
End agent_more.

Module Scenario_more.
Import Py Scenario.

(** A model that answers two messages in text. *)
Definition chatty : agent.Provider :=
  scripted [Returns (response_of [text_part "one"]);
            Returns (response_of [text_part "two"])].

(** A database with one customer and her booking, a configured mail
    service, and a date. *)
Definition ada : booking.Customer :=
  {| booking.customer_id := 1; booking.name := "Ada";
     booking.email := "ada@example.org"; booking.phone := "555-0100" |}.

Definition first_booking : booking.Booking :=
  {| booking.id := 1; booking.booking_customer_id := 1;
     booking.booking_type := "Movie"; booking.date := "2025-06-01";
     booking.time := "19:30"; booking.status := "confirmed";
     booking.created_at := "2025-05-30 10:00:00" |}.

Definition small_db : booking.Database :=
  {| booking.customers := [ada]; booking.bookings := [first_booking];
     booking.customers_seq := 1; booking.bookings_seq := 1 |}.

Definition office : booking.World :=
  {| booking.db := small_db; booking.db_fault := None;
     booking.now := "2025-05-31 09:00:00";
     booking.environ := {[ "SENDGRID_API_KEY" := "SG.key" ]};
     booking.import_fault := None; booking.send_fault := None;
     booking.outbox := [] |}.

(** The same office while the database file is locked. *)
Definition locked : exc := Exc RuntimeError "database is locked".

Definition locked_office : booking.World :=
  {| booking.db := small_db; booking.db_fault := Some locked;
     booking.now := "2025-05-31 09:00:00";
     booking.environ := {[ "SENDGRID_API_KEY" := "SG.key" ]};
     booking.import_fault := None; booking.send_fault := None;
     booking.outbox := [] |}.

Definition demo_config : vector_store_stats.Config :=
  {| vector_store_stats.COLLECTION_NAME := "booking_rag" |}.

(** An index that cannot be reached. *)
Definition broken_index : @vector_store.World demo_backend :=
  @vector_store.Build_World demo_backend [] 0%nat 0%nat
    (Some (Exc RuntimeError "disk I/O error")) [].

(** A search endpoint that answers what the local search over
    [guide_index] finds. *)
Definition guide_results : list (gmap string PyVal) :=
  match snd (@vector_store.search demo_backend demo_store "full text" 3
               guide_index) with
  | Ok results => results
  | _ => []
  end.

Definition mirroring : tools.Network :=
  {| tools.NetState := unit;
     tools.requests_post := fun _ _ _ _ =>
       (tt, Returns
              {| tools.status_code := 200;
                 tools.json :=
                   Returns (PDict {[ "results" := PList (PDict <$> guide_results) ]}) |}) |}.



Definition mail_request : main_api.EmailRequest :=
  {| main_api.email_booking_id := 1; main_api.recipient_email := None |}.

(** A movie search service that knows two films; the text of the second
    is [null]. *)
Definition dune : PyVal :=
  PDict (<["title" := PStr "Dune"]>
         (<["content" := PStr "A desert planet."]>
         (<["url" := PStr "https://example.org/dune"]> ∅))).

Definition untold : PyVal :=
  PDict (<["title" := PStr "Untold"]> (<["content" := PNone]> ∅)).

Definition cinema : movies.Tavily :=
  {| movies.TavilyState := nat;
     movies.Client := string;
     movies.TavilyClient := fun key => Returns key;
     movies.client_search := fun n _ _ _ _ =>
       (S n, Returns (PDict {[ "results" := PList [dune; untold] ]})) |}.

Definition movie_world : @movies.World cinema :=
  @movies.Build_World cinema 0%nat {[ "TAVILY_API_KEY" := "tvly-key" ]} None.

(** A search endpoint that answers 200 with a body that is not JSON. *)
Definition garbled : tools.Network :=
  {| tools.NetState := unit;
     tools.requests_post := fun _ _ _ _ =>
       (tt, Returns
              {| tools.status_code := 200;
                 tools.json :=
                   Raises (Exc RequestException
                             "Expecting value: line 1 column 1 (char 0)") |}) |}.

End Scenario_more.

(** ** Facts about the state-and-exception monad *)
Module PyFacts.
Import Py.

Lemma bind_assoc {S A B C} (c : M S A) (k : A -> M S B) (k' : B -> M S C) s :
  bind (bind c k) k' s = bind c (fun a => bind (k a) k') s.
Proof. unfold bind. destruct (c s) as [s1 [a|e|]]; reflexivity. Qed.

Lemma bind_unfold {S A B} (c : M S A) (k : A -> M S B) s :
  bind c k s
  = match c s with
    | (s', Ok a) => k a s'
    | (s', Raise e) => (s', Raise e)
    | (s', OutOfFuel) => (s', OutOfFuel)
    end.
Proof. reflexivity. Qed.

Lemma bind_ok {S A B} (c : M S A) (k : A -> M S B) s s1 a :
  c s = (s1, Ok a) -> bind c k s = k a s1.
Proof. intros E. unfold bind. rewrite E. reflexivity. Qed.

Lemma bind_raise {S A B} (c : M S A) (k : A -> M S B) s s1 e :
  c s = (s1, Raise e) -> bind c k s = (s1, Raise e).
Proof. intros E. unfold bind. rewrite E. reflexivity. Qed.

Lemma bind_inv_ok {S A B} (c : M S A) (k : A -> M S B) s s2 b :
  bind c k s = (s2, Ok b) ->
  exists s1 a, c s = (s1, Ok a) /\ k a s1 = (s2, Ok b).
Proof.
  unfold bind. destruct (c s) as [s1 [a|e|]]; intros E; try discriminate.
  exists s1, a. split; [reflexivity | exact E].
Qed.

Lemma bind_inv_raise {S A B} (c : M S A) (k : A -> M S B) s s2 e :
  bind c k s = (s2, Raise e) ->
  c s = (s2, Raise e) \/ exists s1 a, c s = (s1, Ok a) /\ k a s1 = (s2, Raise e).
Proof.
  unfold bind. destruct (c s) as [s1 [a|e'|]]; intros E; try discriminate.
  - right. exists s1, a. split; [reflexivity | exact E].
  - left. congruence.
Qed.

Lemma try_except_ok {S A} (c : M S A) h s s1 a :
  c s = (s1, Ok a) -> try_except c h s = (s1, Ok a).
Proof. intros E. unfold try_except. rewrite E. reflexivity. Qed.

Lemma try_except_raise {S A} (c : M S A) h s s1 e :
  c s = (s1, Raise e) -> try_except c h s = h e s1.
Proof. intros E. unfold try_except. rewrite E. reflexivity. Qed.

Lemma finishes_ret {S A} (a : A) : finishes (@ret S A a).
Proof. intros s. discriminate. Qed.

Lemma finishes_lift {S A} (r : result A) : finishes (@lift S A r).
Proof. intros s. unfold lift. destruct r; discriminate. Qed.

Lemma finishes_modify {S} (f : S -> S) : finishes (modify f).
Proof. intros s. discriminate. Qed.

Lemma finishes_bind {S A B} (c : M S A) (k : A -> M S B) :
  finishes c -> (forall a, finishes (k a)) -> finishes (bind c k).
Proof.
  intros Hc Hk s. unfold bind. specialize (Hc s).
  destruct (c s) as [s1 [a|e|]]; simpl in *;
    [apply Hk | discriminate | congruence].
Qed.

Lemma finishes_try_except {S A} (c : M S A) (h : exc -> M S A) :
  finishes c -> (forall e, finishes (h e)) -> finishes (try_except c h).
Proof.
  intros Hc Hh s. unfold try_except. specialize (Hc s).
  destruct (c s) as [s1 [a|e|]]; simpl in *;
    [discriminate | apply Hh | congruence].
Qed.

Lemma finishes_mapM {S A B} (f : A -> M S B) (l : list A) :
  (forall x, finishes (f x)) -> finishes (mapM f l).
Proof.
  intros Hf. induction l as [|x l IH]; simpl.
  - apply finishes_ret.
  - apply finishes_bind; [apply Hf|]. intros y.
    apply finishes_bind; [exact IH|]. intros ys. apply finishes_ret.
Qed.

Lemma slice_from_neg_drop {A} (k : nat) (l : list A) :
  (0 < k)%nat -> slice_from (- Z.of_nat k) l = drop (length l - k) l.
Proof.
  intros Hk. unfold slice_from.
  destruct (Z.ltb_spec (- Z.of_nat k) 0) as [_|Hge]; [|lia].
  f_equal. lia.
Qed.

(** The pitfall of a zero bound: [l[-0:]] is [l[0:]], the whole list. *)
Lemma slice_from_minus_zero {A} (l : list A) : slice_from (- 0) l = l.
Proof.
  unfold slice_from. change (- 0)%Z with 0%Z. cbn [Z.ltb Z.compare].
  rewrite Z.min_l by lia. reflexivity.
Qed.

End PyFacts.

(** ** The conversation loop: history, dispatch, one call per response *)
Module AgentFacts.
Import Py agent agent_spec PyFacts.
Local Open Scope py_scope.

Section Loop.
Context `{Provider} `{ToolEnv}.

Lemma keeps_log_ret {A} (a : A) : keeps_log (ret a).
Proof. intros st. split; reflexivity. Qed.

Lemma keeps_log_lift {A} (r : result A) : keeps_log (lift r).
Proof. intros st. unfold lift. destruct r; split; reflexivity. Qed.

Lemma keeps_log_out_of_fuel {A} : keeps_log (@out_of_fuel State A).
Proof. intros st. split; reflexivity. Qed.

Lemma keeps_log_bind {A B} (c : M State A) (k : A -> M State B) :
  keeps_log c -> (forall a, keeps_log (k a)) -> keeps_log (bind c k).
Proof.
  intros Hc Hk st. unfold bind.
  destruct (Hc st) as [Hh Hl]. destruct (c st) as [s1 [a|e|]]; simpl in *.
  - destruct (Hk a s1) as [Hh' Hl']. split; congruence.
  - split; assumption.
  - split; assumption.
Qed.

Lemma keeps_log_try_except {A} (c : M State A) (h : exc -> M State A) :
  keeps_log c -> (forall e, keeps_log (h e)) -> keeps_log (try_except c h).
Proof.
  intros Hc Hh st. unfold try_except.
  destruct (Hc st) as [Hh1 Hl1]. destruct (c st) as [s1 [a|e|]]; simpl in *.
  - split; assumption.
  - destruct (Hh e s1) as [Hh2 Hl2]. split; congruence.
  - split; assumption.
Qed.

Lemma keeps_log_call_tool tool_func a : keeps_log (call_tool tool_func a).
Proof.
  intros st. unfold call_tool.
  destruct (tool_func a (world st)) as [w [r|e]]; split; reflexivity.
Qed.

Lemma keeps_log_execute_tool fc : keeps_log (_execute_tool fc).
Proof.
  unfold _execute_tool. apply keeps_log_bind.
  - intros st. split; reflexivity.
  - intros _. destruct (TOOL_MAP !! name fc) as [tool_func|].
    + apply keeps_log_try_except.
      * apply keeps_log_call_tool.
      * intros e. apply keeps_log_ret.
    + apply keeps_log_ret.
Qed.

Lemma keeps_log_session_send msg : keeps_log (session_send msg).
Proof.
  intros st. unfold session_send.
  destruct (chat_session (self st)) as [cs|]; [|split; reflexivity].
  destruct (send_message cs msg) as [cs' [r|e]]; split; reflexivity.
Qed.

Lemma keeps_log_chat_cycle response : keeps_log (chat_cycle response).
Proof.
  unfold chat_cycle. apply keeps_log_bind; [apply keeps_log_lift|].
  intros [|p ps]; [apply keeps_log_ret|].
  destruct (scan_parts (p :: ps) []) as [[fc|] texts]; [|apply keeps_log_ret].
  apply keeps_log_bind; [apply keeps_log_execute_tool|].
  intros tool_result. apply keeps_log_bind; [apply keeps_log_session_send|].
  intros r. apply keeps_log_ret.
Qed.

Lemma keeps_log_chat_loop fuel : forall response, keeps_log (chat_loop fuel response).
Proof.
  induction fuel as [|fuel IH]; intros response; simpl.
  - apply keeps_log_out_of_fuel.
  - apply keeps_log_bind; [apply keeps_log_chat_cycle|].
    intros [response'|final]; [apply IH | apply keeps_log_ret].
Qed.

Lemma chat_prefix_started fuel user_message st :
  chat_prefix fuel user_message st
  = bind (session_send (UserText user_message)) (chat_loop fuel) (started st).
Proof.
  unfold chat_prefix, started. unfold bind at 1 2, get, put, ret.
  destruct (chat_session (self st)); reflexivity.
Qed.

Lemma keeps_log_chat_prefix fuel user_message :
  keeps_log (chat_prefix fuel user_message).
Proof.
  assert (Hrest : keeps_log (bind (session_send (UserText user_message))
                               (chat_loop fuel))).
  { apply keeps_log_bind; [apply keeps_log_session_send|].
    intros r. apply keeps_log_chat_loop. }
  intros st. rewrite chat_prefix_started. unfold started.
  destruct (chat_session (self st)) as [cs|]; [apply Hrest|].
  destruct (Hrest (set_session (Some start_chat) st)) as [Hh Hl].
  split; [rewrite Hh | rewrite Hl]; reflexivity.
Qed.

Lemma chat_body_split fuel user_message st :
  chat_body fuel user_message st
  = bind (chat_prefix fuel user_message) (chat_suffix user_message) st.
Proof.
  rewrite (bind_unfold (chat_prefix fuel user_message)), chat_prefix_started.
  rewrite <- bind_unfold. unfold started.
  unfold chat_body. fold (chat_suffix user_message).
  unfold bind at 1 2, get, put, ret.
  destruct (chat_session (self st)); cbv beta iota; rewrite bind_assoc; reflexivity.
Qed.

Lemma trim_history_spec st :
  exists st', _trim_history st = (st', Ok tt)
    /\ history st' = trimmed (limit st) (history st)
    /\ limit st' = limit st.
Proof.
  unfold _trim_history, trimmed, history, limit.
  rewrite (bind_ok get _ st st st eq_refl).
  destruct (Z.of_nat (length (chat_history (self st))) >? max_history (self st) * 2)%Z.
  - eexists. split; [reflexivity|]. split; reflexivity.
  - eexists. split; [reflexivity|]. split; reflexivity.
Qed.

Lemma chat_suffix_spec user_message response st :
  exists st', chat_suffix user_message response st
              = (st', Ok (_extract_response_text response))
    /\ history st'
       = trimmed (limit st)
           (history st ++ [user_entry user_message;
                           assistant_entry (_extract_response_text response)])
    /\ limit st' = limit st.
Proof.
  unfold chat_suffix.
  set (st2 := append_history (assistant_entry (_extract_response_text response))
                (append_history (user_entry user_message) st)).
  destruct (trim_history_spec st2) as (st' & Et & Hh & Hl).
  exists st'. split; [|split].
  - unfold bind, modify. fold st2. rewrite Et. reflexivity.
  - rewrite Hh. unfold st2, history, limit. simpl. rewrite <- app_assoc. reflexivity.
  - rewrite Hl. reflexivity.
Qed.

Lemma chat_body_ok fuel user_message st st' reply :
  chat_body fuel user_message st = (st', Ok reply) ->
  history st'
  = trimmed (limit st)
      (history st ++ [user_entry user_message; assistant_entry reply])
  /\ limit st' = limit st.
Proof.
  rewrite chat_body_split. intros E.
  apply bind_inv_ok in E as (s1 & response & Ep & Es).
  destruct (keeps_log_chat_prefix fuel user_message st) as [Hh Hl].
  rewrite Ep in Hh, Hl. simpl in Hh, Hl.
  destruct (chat_suffix_spec user_message response s1) as (s2 & Es' & Hh' & Hl').
  rewrite Es in Es'. injection Es' as <- ->.
  rewrite Hh', Hl', Hh, Hl. split; reflexivity.
Qed.

Lemma chat_body_raise fuel user_message st st' e :
  chat_body fuel user_message st = (st', Raise e) ->
  history st' = history st /\ limit st' = limit st.
Proof.
  rewrite chat_body_split. intros E.
  destruct (keeps_log_chat_prefix fuel user_message st) as [Hh Hl].
  apply bind_inv_raise in E as [Ep | (s1 & response & Ep & Es)].
  - rewrite Ep in Hh, Hl. split; assumption.
  - destruct (chat_suffix_spec user_message response s1) as (s2 & Es' & _).
    rewrite Es in Es'. discriminate.
Qed.

Lemma lastn_all {A} (k : nat) (l : list A) :
  (length l <= k)%nat -> lastn k l = l.
Proof.
  intros Hle. unfold lastn. replace (length l - k)%nat with 0%nat by lia.
  reflexivity.
Qed.

Lemma length_lastn {A} (k : nat) (l : list A) :
  length (lastn k l) = Nat.min k (length l).
Proof. unfold lastn. rewrite length_drop. lia. Qed.

Lemma lastn_snoc {A} (k : nat) (l x : list A) :
  lastn k (lastn k l ++ x) = lastn k (l ++ x).
Proof.
  destruct (Nat.le_gt_cases (length l) k) as [Hle|Hgt].
  - rewrite (lastn_all k l Hle). reflexivity.
  - unfold lastn. rewrite !length_app, length_drop.
    replace (length l - (length l - k) + length x - k)%nat with (length x) by lia.
    replace (length l + length x - k)%nat
      with ((length l - k) + length x)%nat by lia.
    rewrite <- drop_drop. rewrite (drop_app_le l x (length l - k)) by lia.
    reflexivity.
Qed.

Lemma trimmed_lastn (m : Z) (h : list Entry) :
  (0 < m)%Z -> trimmed m h = lastn (Z.to_nat (2 * m)) h.
Proof.
  intros Hm. unfold trimmed.
  destruct (Z.gtb_spec (Z.of_nat (length h)) (m * 2)) as [Hgt|Hle].
  - replace (- (m * 2))%Z with (- Z.of_nat (Z.to_nat (2 * m)))%Z by lia.
    apply slice_from_neg_drop. lia.
  - symmetry. apply lastn_all. lia.
Qed.

(** With a zero bound the guard fires but the slice [h[-0:]] keeps all. *)
Lemma trimmed_zero (h : list Entry) : trimmed 0 h = h.
Proof.
  unfold trimmed. destruct (Z.of_nat (length h) >? 0 * 2)%Z; [|reflexivity].
  apply slice_from_minus_zero.
Qed.

Lemma appended_snoc turns user_message reply :
  appended (turns ++ [(user_message, reply)])
  = appended turns ++ [user_entry user_message; assistant_entry reply].
Proof. unfold appended. rewrite bind_app. reflexivity. Qed.

Lemma length_appended turns : length (appended turns) = (2 * length turns)%nat.
Proof.
  induction turns as [|t turns IH]; [reflexivity|].
  unfold appended in *. rewrite bind_cons, length_app, IH. simpl. lia.
Qed.

Lemma successful_calls_limit st turns st' :
  successful_calls st turns st' -> limit st' = limit st.
Proof.
  induction 1 as [|st turns st1 fuel um reply st2 _ IH Hc]; [reflexivity|].
  apply chat_body_ok in Hc as [_ Hl]. congruence.
Qed.

(** The history bound on every positive [max_history]: after [N]
    successful calls on a new assistant the history is the last
    [min(2N, 2M)] appended entries. *)
Lemma history_bound_positive st turns st' :
  successful_calls st turns st' ->
  history st = [] ->
  (0 < limit st)%Z ->
  let k := Z.to_nat (Z.min (2 * Z.of_nat (length turns)) (2 * limit st)) in
  length (history st') = k /\ history st' = lastn k (appended turns).
Proof.
  intros Hrun Hnil Hpos.
  assert (Hh : history st' = lastn (Z.to_nat (2 * limit st)) (appended turns)).
  { induction Hrun as [|st turns st1 fuel um reply st2 Hrun IH Hc].
    - rewrite Hnil. reflexivity.
    - pose proof (successful_calls_limit _ _ _ Hrun) as Hl.
      apply chat_body_ok in Hc as [Hh _].
      rewrite Hh, Hl, trimmed_lastn by assumption.
      rewrite (IH Hnil Hpos), lastn_snoc, appended_snoc. reflexivity. }
  pose proof (length_appended turns) as Hlen. cbv zeta.
  destruct (Z.le_gt_cases (2 * Z.of_nat (length turns)) (2 * limit st)) as [Hle|Hgt].
  - rewrite Z.min_l by assumption.
    rewrite Hh, !lastn_all by lia. split; [lia | reflexivity].
  - rewrite Z.min_r by lia. rewrite Hh, length_lastn. split; [lia | reflexivity].
Qed.

(** With [max_history = 0] nothing is ever dropped. *)
Lemma history_unbounded_at_zero st turns st' :
  successful_calls st turns st' ->
  history st = [] ->
  limit st = 0%Z ->
  history st' = appended turns.
Proof.
  intros Hrun Hnil Hzero.
  induction Hrun as [|st turns st1 fuel um reply st2 Hrun IH Hc].
  - assumption.
  - pose proof (successful_calls_limit _ _ _ Hrun) as Hl.
    apply chat_body_ok in Hc as [Hh _].
    rewrite Hh, Hl, Hzero, trimmed_zero, (IH Hnil Hzero), appended_snoc.
    reflexivity.
Qed.

(** C9: when the [try] block of [chat] raises, the call returns the
    apology built by the handler and [chat_history] is what it was before
    the call: neither the user's message nor the apology is appended. *)
Theorem history_unchanged_on_exception fuel user_message st st' e :
  chat_body fuel user_message st = (st', Raise e) ->
  chat fuel user_message st = (st', Ok (chat_handler e))
  /\ history st' = history st.
Proof.
  intros Hraise. split.
  - unfold chat. rewrite (try_except_raise _ _ _ _ _ Hraise). reflexivity.
  - apply (chat_body_raise _ _ _ _ _ Hraise).
Qed.

Lemma scan_parts_first pre : forall p rest fc acc,
  Forall (fun q => is_call_part q = false) pre ->
  function_call p = Some fc ->
  name fc <> EmptyString ->
  exists texts, scan_parts (pre ++ p :: rest) acc = (Some fc, texts).
Proof.
  induction pre as [|q pre IH]; intros p rest fc acc Hpre Hp Hname.
  - exists acc. simpl. unfold is_call_part. rewrite Hp.
    destruct (name fc); [congruence | reflexivity].
  - apply Forall_cons in Hpre as [Hq Hpre]. simpl. rewrite Hq.
    destruct (has_text q); apply IH; assumption.
Qed.

Lemma scan_parts_none ps : forall acc,
  Forall (fun q => is_call_part q = false) ps ->
  exists texts, scan_parts ps acc = (None, texts).
Proof.
  induction ps as [|q ps IH]; intros acc Hps.
  - exists acc. reflexivity.
  - apply Forall_cons in Hps as [Hq Hps]. simpl. rewrite Hq.
    destruct (has_text q); apply IH; assumption.
Qed.

Lemma executed_session_send msg : keeps_executed (session_send msg).
Proof.
  intros st. unfold session_send.
  destruct (chat_session (self st)) as [cs|]; [|reflexivity].
  destruct (send_message cs msg) as [cs' [r|e]]; reflexivity.
Qed.

Lemma executed_execute_tool fc st :
  executed (fst (_execute_tool fc st)) = executed st ++ [fc].
Proof.
  unfold _execute_tool, bind, modify.
  destruct (TOOL_MAP !! name fc) as [tool_func|]; [|reflexivity].
  unfold try_except, call_tool. simpl.
  destruct (tool_func (args fc) (world st)) as [w [r|e]]; reflexivity.
Qed.

Lemma execute_tool_total fc st :
  exists st' r, _execute_tool fc st = (st', Ok r).
Proof.
  unfold _execute_tool, bind, modify.
  destruct (TOOL_MAP !! name fc) as [tool_func|]; [|eexists _, _; reflexivity].
  unfold try_except, call_tool. simpl.
  destruct (tool_func (args fc) (world st)) as [w [r|e]];
    eexists _, _; reflexivity.
Qed.

Lemma executed_act_on fc st :
  executed (fst (act_on fc st)) = executed st ++ [fc].
Proof.
  unfold act_on. rewrite bind_unfold.
  pose proof (executed_execute_tool fc st) as He.
  destruct (execute_tool_total fc st) as (st1 & r & E). rewrite E in He |- *.
  simpl in He. rewrite bind_unfold.
  pose proof (executed_session_send (FunctionResponse (name fc) r) st1) as Hs.
  destruct (session_send (FunctionResponse (name fc) r) st1) as [s2 [r2|e|]];
    simpl in *; congruence.
Qed.

Lemma chat_cycle_requests response fc st :
  requests response fc -> chat_cycle response st = act_on fc st.
Proof.
  intros (pre & p & rest & Hps & Hpre & Hp & Hname).
  unfold chat_cycle. rewrite bind_unfold. unfold lift at 1. rewrite Hps.
  destruct (scan_parts_first pre p rest fc [] Hpre Hp Hname) as [texts Hs].
  rewrite Hs. destruct (pre ++ p :: rest) eqn:Hl; [|reflexivity].
  destruct pre; discriminate.
Qed.

(** C3: one pass of the loop acts on exactly one tool call, the first
    function-call part of the response in part order.  Text in the parts
    before it does not stop the scan, and the parts after it, further
    function calls included, play no role; a response without a
    function-call part gets no tool executed and ends the loop. *)
Theorem one_call_per_response response fc st :
  requests response fc ->
  chat_cycle response st = act_on fc st
  /\ executed (fst (chat_cycle response st)) = executed st ++ [fc]
  /\ (forall response', requests_nothing response' ->
        chat_cycle response' st = (st, Ok (inr response'))).
Proof.
  intros Hreq. rewrite (chat_cycle_requests _ _ _ Hreq).
  split; [reflexivity|]. split; [apply executed_act_on|].
  intros response' (ps & Hps & Hnone).
  unfold chat_cycle. rewrite bind_unfold. unfold lift at 1. rewrite Hps.
  destruct ps as [|q ps]; [reflexivity|].
  destruct (scan_parts_none (q :: ps) [] Hnone) as [texts Hs].
  rewrite Hs. reflexivity.
Qed.

Lemma execute_tool_error fc st err :
  dispatch_error fc st err -> snd (_execute_tool fc st) = Ok err.
Proof.
  intros [Hnone | tool_func w e Hsome Hcall];
    unfold _execute_tool, bind, modify.
  - rewrite Hnone. reflexivity.
  - rewrite Hsome. unfold try_except, call_tool. simpl. rewrite Hcall.
    reflexivity.
Qed.

Lemma chat_of_loop fuel user_message st st1 r1 st3 r3 :
  session_send (UserText user_message) (started st) = (st1, Ok r1) ->
  chat_loop fuel r1 st1 = (st3, Ok r3) ->
  snd (chat fuel user_message st) = Ok (_extract_response_text r3).
Proof.
  intros Hsend Hloop.
  assert (Hp : chat_prefix fuel user_message st = (st3, Ok r3)).
  { rewrite chat_prefix_started, (bind_ok _ _ _ _ _ Hsend). exact Hloop. }
  destruct (chat_suffix_spec user_message r3 st3) as (st4 & Es & _).
  unfold chat.
  rewrite (try_except_ok _ _ _ st4 (_extract_response_text r3)); [reflexivity|].
  rewrite chat_body_split, (bind_ok _ _ _ _ _ Hp). exact Es.
Qed.

(** C4: dispatch never raises.  For every call the dispatcher returns a
    string; an unregistered name gives the unknown-tool string and a
    callable that raises gives [Error executing {name}: {detail}].  In
    both cases the loop goes on: the string is sent back to the model as
    the tool's result and the loop carries on from the model's next
    response, so that [chat] returns the text extracted from the response
    the loop ends on. *)
Theorem dispatch_errors_are_strings fc st err :
  dispatch_error fc st err ->
  (forall fc' st', exists st'' r, _execute_tool fc' st' = (st'', Ok r))
  /\ snd (_execute_tool fc st) = Ok err
  /\ (forall fuel response,
        requests response fc ->
        chat_loop (S fuel) response st
        = bind (session_send (FunctionResponse (name fc) err)) (chat_loop fuel)
            (fst (_execute_tool fc st)))
  /\ (forall fuel user_message st0 r1 st2 r2 st3 r3,
        session_send (UserText user_message) (started st0) = (st, Ok r1) ->
        requests r1 fc ->
        session_send (FunctionResponse (name fc) err) (fst (_execute_tool fc st))
        = (st2, Ok r2) ->
        chat_loop fuel r2 st2 = (st3, Ok r3) ->
        snd (chat (S fuel) user_message st0) = Ok (_extract_response_text r3)).
Proof.
  intros Herr. pose proof (execute_tool_error _ _ _ Herr) as Hstr.
  assert (Hloop : forall fuel response,
            requests response fc ->
            chat_loop (S fuel) response st
            = bind (session_send (FunctionResponse (name fc) err)) (chat_loop fuel)
                (fst (_execute_tool fc st))).
  { intros fuel response Hreq. cbn [chat_loop].
    rewrite bind_unfold, (chat_cycle_requests _ _ _ Hreq).
    unfold act_on. rewrite bind_unfold.
    destruct (_execute_tool fc st) as [st1 o]. simpl in Hstr. subst o.
    cbn [fst]. rewrite !bind_unfold.
    destruct (session_send (FunctionResponse (name fc) err) st1) as [s2 [r2|e|]];
      reflexivity. }
  split; [apply execute_tool_total|]. split; [exact Hstr|]. split; [exact Hloop|].
  intros fuel user_message st0 r1 st2 r2 st3 r3 Hsend Hreq Hback Hrest.
  apply (chat_of_loop (S fuel) user_message st0 st r1 st3 r3 Hsend).
  rewrite (Hloop fuel r1 Hreq), (bind_ok _ _ _ _ _ Hback). exact Hrest.
Qed.

End Loop.
End AgentFacts.

(** ** The statements above on concrete conversations *)
Module AgentRuns.
Import Py agent agent_spec Scenario.

(** C1, at [max_history = 0]: one successful call on a new assistant
    leaves both entries in the history, where the bound [min(2N, 2M)] is
    [0].  The guard of [_trim_history] fires, but [chat_history[-0:]] is
    the whole list. *)
Theorem history_bound_fails_at_zero :
  let st := @fresh greeter demo_tools 0 0%nat in
  exists st',
    @chat greeter demo_tools 1 "hi" st = (st', Ok "hello")
    /\ @chat_body greeter demo_tools 1 "hi" st = (st', Ok "hello")
    /\ @history greeter demo_tools st' = [user_entry "hi"; assistant_entry "hello"]
    /\ Z.to_nat (Z.min (2 * 1) (2 * @limit greeter demo_tools st)) = 0%nat.
Proof. eexists. repeat split. Qed.

(** One exchange under the default-like bound of 20. *)
Lemma history_bound_positive_witness :
  let st := @fresh greeter demo_tools 20 0%nat in
  exists st',
    length (@history greeter demo_tools st') = 2%nat
    /\ @history greeter demo_tools st' = lastn 2 (appended [("hi", "hello")]).
Proof.
  eexists.
  apply (@AgentFacts.history_bound_positive greeter demo_tools
           (@fresh greeter demo_tools 20 0%nat) [("hi", "hello")]).
  - refine (next_call _ [] _ 1%nat "hi" "hello" _ _ _); [apply no_call | vm_compute; reflexivity].
  - reflexivity.
  - reflexivity.
Defined.

(** The model's answer is blocked: the apology is returned and the
    history stays empty. *)
Lemma history_unchanged_on_exception_witness :
  let st := @fresh refusing demo_tools 20 0%nat in
  exists st',
    @chat_body refusing demo_tools 3 "hi" st = (st', Raise blocked)
    /\ @chat refusing demo_tools 3 "hi" st = (st', Ok (chat_handler blocked))
    /\ @history refusing demo_tools st' = @history refusing demo_tools st.
Proof.
  eexists. split; [vm_compute; reflexivity|].
  apply (@AgentFacts.history_unchanged_on_exception refusing demo_tools
           3 "hi" (@fresh refusing demo_tools 20 0%nat) _ blocked).
  vm_compute. reflexivity.
Defined.

(** A response with text, then two function calls: only the first call
    is executed; a response of text alone ends the loop. *)
Lemma one_call_per_response_witness :
  let st := @fresh booker demo_tools 20 0%nat in
  requests two_calls booking_call
  /\ @executed booker demo_tools (fst (@chat_cycle booker demo_tools two_calls st))
     = [booking_call]
  /\ @chat_cycle booker demo_tools done st = (st, Ok (inr done)).
Proof.
  assert (Hreq : requests two_calls booking_call).
  { exists [text_part "one moment"], (call_part "create_booking" ∅),
      [call_part "send_confirmation_email" ∅].
    repeat split; [repeat constructor | discriminate]. }
  split; [exact Hreq|].
  destruct (@AgentFacts.one_call_per_response booker demo_tools two_calls
              booking_call (@fresh booker demo_tools 20 0%nat) Hreq)
    as (_ & Hone & Hnone).
  split; [exact Hone|].
  apply Hnone. exists [text_part "done"]. split; [reflexivity|].
  repeat constructor.
Defined.

(** An unregistered tool, and a registered tool called without its
    arguments: the turn still ends with the model's text. *)
Lemma dispatch_errors_are_strings_witness :
  snd (@chat confused demo_tools 2 "fly me" (@fresh confused demo_tools 20 0%nat))
  = Ok "sorry"
  /\ snd (@chat booker demo_tools 2 "book it" (@fresh booker demo_tools 20 0%nat))
     = Ok "done".
Proof.
  split.
  - set (st0 := @fresh confused demo_tools 20 0%nat).
    set (st1 := fst (@session_send confused demo_tools (UserText "fly me")
                       (@started confused demo_tools st0))).
    assert (Herr : @dispatch_error confused demo_tools flight_call st1
                     "Error: Unknown tool 'book_flight'").
    { apply (@unknown_tool confused demo_tools flight_call st1). reflexivity. }
    destruct (@AgentFacts.dispatch_errors_are_strings confused demo_tools
                flight_call st1 _ Herr) as (_ & _ & _ & Hchat).
    refine (Hchat 1%nat "fly me" st0 asks_flight _ sorry _ sorry _ _ _ _).
    + vm_compute. reflexivity.
    + exists [], (call_part "book_flight" ∅), [].
      repeat split; [constructor | discriminate].
    + vm_compute. reflexivity.
    + vm_compute. reflexivity.
  - set (st0 := @fresh booker demo_tools 20 0%nat).
    set (st1 := fst (@session_send booker demo_tools (UserText "book it")
                       (@started booker demo_tools st0))).
    assert (Herr : @dispatch_error booker demo_tools booking_call st1
                     ("Error executing create_booking: "
                      +:+ "create_booking() missing 1 required positional argument: 'customer_name'")).
    { apply (@tool_raised booker demo_tools booking_call st1
               (@create_booking demo_tools) 0%nat
               (Exc TypeError
                  "create_booking() missing 1 required positional argument: 'customer_name'"));
        reflexivity. }
    destruct (@AgentFacts.dispatch_errors_are_strings booker demo_tools
                booking_call st1 _ Herr) as (_ & _ & _ & Hchat).
    refine (Hchat 1%nat "book it" st0 two_calls _ done _ done _ _ _ _).
    + vm_compute. reflexivity.
    + exists [text_part "one moment"], (call_part "create_booking" ∅),
        [call_part "send_confirmation_email" ∅].
      repeat split; [repeat constructor | discriminate].
    + vm_compute. reflexivity.
    + vm_compute. reflexivity.
Defined.

End AgentRuns.

(** ** The embedding client and the index *)
Module StoreFacts.
Import Py vector_store store_spec PyFacts.
Local Open Scope py_scope.

Section Store.
Context `{Backend}.

Lemma get_embedding_eq self text w :
  _get_embedding self text w
  = (set_embedder
       (fst (embed_content (embedder w) (embedding_model_name self) text
               retrieval_document))
       (log (EmbedRequest text retrieval_document) w),
     Ok (embedded (snd (embed_content (embedder w) (embedding_model_name self)
                          text retrieval_document)))).
Proof.
  unfold _get_embedding, try_except, bind, genai_embed_content, lift,
    embedding_of, embedded, ret.
  destruct (embed_content _ _ _ _) as [e' [d|x]]; simpl; [|reflexivity].
  destruct (d !! "embedding"); reflexivity.
Qed.

Lemma get_query_embedding_eq self text w :
  _get_query_embedding self text w
  = (set_embedder
       (fst (embed_content (embedder w) (embedding_model_name self) text
               retrieval_query))
       (log (EmbedRequest text retrieval_query) w),
     Ok (embedded (snd (embed_content (embedder w) (embedding_model_name self)
                          text retrieval_query)))).
Proof.
  unfold _get_query_embedding, try_except, bind, genai_embed_content, lift,
    embedding_of, embedded, ret.
  destruct (embed_content _ _ _ _) as [e' [d|x]]; simpl; [|reflexivity].
  destruct (d !! "embedding"); reflexivity.
Qed.

Lemma length_zero_vector : length zero_vector = EMBEDDING_DIM.
Proof. unfold zero_vector. apply length_replicate. Qed.

Lemma length_embedded es model text task :
  fixed_dimension ->
  length (embedded (snd (embed_content es model text task))) = EMBEDDING_DIM.
Proof.
  intros Hdim. unfold embedded.
  destruct (embed_content es model text task) as [es' [d|x]] eqn:E; simpl;
    [|apply length_zero_vector].
  destruct (d !! "embedding") as [v|] eqn:Ed; simpl;
    [apply (Hdim _ _ _ _ _ _ _ E Ed) | apply length_zero_vector].
Qed.

(** C8: under a service of fixed dimensionality, [_get_embedding] and
    [_get_query_embedding] return, for every text, a vector of
    [EMBEDDING_DIM] components; when the service call raises, the vector
    is all zeros, of the same length, and no exception leaves the call. *)
Theorem embeddings_have_fixed_dimension self text w :
  fixed_dimension ->
  (exists w' v,
      _get_embedding self text w = (w', Ok v)
      /\ length v = EMBEDDING_DIM
      /\ (forall es x,
            embed_content (embedder w) (embedding_model_name self) text
              retrieval_document = (es, Raises x) ->
            v = replicate EMBEDDING_DIM 0%float))
  /\ (exists w' v,
        _get_query_embedding self text w = (w', Ok v)
        /\ length v = EMBEDDING_DIM
        /\ (forall es x,
              embed_content (embedder w) (embedding_model_name self) text
                retrieval_query = (es, Raises x) ->
              v = replicate EMBEDDING_DIM 0%float)).
Proof.
  intros Hdim. split.
  - eexists _, _. split; [apply get_embedding_eq|].
    split; [apply length_embedded, Hdim|].
    intros es x E. rewrite E. reflexivity.
  - eexists _, _. split; [apply get_query_embedding_eq|].
    split; [apply length_embedded, Hdim|].
    intros es x E. rewrite E. reflexivity.
Qed.

Lemma zip_records_lookup ids : forall embeddings metadatas documents i r,
  zip_records ids embeddings metadatas documents !! i = Some r
  <-> ids !! i = Some (rec_id r)
      /\ embeddings !! i = Some (rec_embedding r)
      /\ metadatas !! i = Some (rec_metadata r)
      /\ documents !! i = Some (rec_document r).
Proof.
  induction ids as [|x ids IH]; intros [|e es] [|m ms] [|d ds] i r;
    try (simpl; split; [intros E; discriminate | intros (E1 & E2 & E3 & E4);
                        rewrite ?lookup_nil in *; discriminate]).
  destruct i as [|i]; simpl.
  - split.
    + intros E. injection E as <-. repeat split.
    + intros (E1 & E2 & E3 & E4). destruct r. simpl in *. congruence.
  - apply IH.
Qed.

Lemma length_zip_records ids : forall embeddings metadatas documents,
  length embeddings = length ids ->
  length metadatas = length ids ->
  length documents = length ids ->
  length (zip_records ids embeddings metadatas documents) = length ids.
Proof.
  induction ids as [|x ids IH]; intros [|e es] [|m ms] [|d ds] He Hm Hd;
    try discriminate; [reflexivity|].
  simpl in *. f_equal. apply IH; lia.
Qed.

Lemma add_loop_spec self documents : forall b w,
  exists w' b',
    add_loop self documents b w = (w', Ok b')
    /\ ids b' = ids b ++ (uuid4 <$> seq (uuid_next w) (length documents))
    /\ metadatas b' = metadatas b ++ (stored_metadata <$> documents)
    /\ documents_text b' = documents_text b ++ (content <$> documents)
    /\ length (embeddings b') = (length (embeddings b) + length documents)%nat
    /\ records w' = records w
    /\ fault w' = fault w
    /\ uuid_next w' = (uuid_next w + length documents)%nat
    /\ trace w' = trace w ++ (embed_event <$> documents).
Proof.
  induction documents as [|doc rest IH]; intros b w.
  - exists w, b. simpl. rewrite !app_nil_r, !Nat.add_0_r. repeat split.
  - cbn [add_loop]. rewrite bind_unfold. unfold new_uuid at 1.
    rewrite bind_unfold, get_embedding_eq.
    match goal with
    | |- context [add_loop self rest ?b2 ?w2] =>
        destruct (IH b2 w2)
          as (w' & b' & E & Hi & Hm & Hd & He & Hr & Hf & Hu & Ht)
    end.
    exists w', b'. split; [exact E|].
    simpl in Hi, Hm, Hd, He, Hr, Hf, Hu, Ht.
    rewrite Hi, Hm, Hd, He, Hr, Hf, Hu, Ht. simpl.
    rewrite <- !app_assoc, !length_app. simpl.
    repeat split; try reflexivity; lia.
Qed.

Lemma store_call_available {A} ev (f : World -> World * A) w :
  fault w = None ->
  store_call ev f w = (fst (f (log ev w)), Ok (snd (f (log ev w)))).
Proof.
  intros Hf. unfold store_call. rewrite Hf. destruct (f (log ev w)). reflexivity.
Qed.

(** What [add_documents] leaves in an available index. *)
Lemma add_documents_spec self documents w :
  fault w = None ->
  exists w' es,
    add_documents self documents w = (w', Ok tt)
    /\ length es = length documents
    /\ records w'
       = records w
         ++ zip_records (uuid4 <$> seq (uuid_next w) (length documents)) es
              (stored_metadata <$> documents) (content <$> documents)
    /\ fault w' = None
    /\ uuid_next w' = (uuid_next w + length documents)%nat.
Proof.
  intros Hf. destruct documents as [|doc rest].
  - exists w, []. simpl. rewrite app_nil_r, Nat.add_0_r. repeat split. exact Hf.
  - unfold add_documents. rewrite bind_unfold.
    destruct (add_loop_spec self (doc :: rest)
                {| ids := []; embeddings := []; metadatas := [];
                   documents_text := [] |} w)
      as (w1 & b & E & Hi & Hm & Hd & He & Hr & Hf1 & Hu & Ht).
    rewrite E. unfold collection_add.
    rewrite store_call_available by congruence.
    eexists _, (embeddings b). split; [reflexivity|].
    simpl in Hi, Hm, Hd, He. simpl. rewrite Hi, Hm, Hd, Hr.
    repeat split; [exact He | congruence | exact Hu].
Qed.

Lemma stored_metadata_lookup doc k v :
  stored_metadata doc !! k = Some v
  <-> (k = "title" /\ v = PStr (title doc))
      \/ (k <> "title" /\ metadata doc !! k = Some v /\ is_scalar v = true).
Proof.
  unfold stored_metadata. rewrite lookup_insert_Some, map_lookup_filter_Some.
  simpl. split.
  - intros [[<- <-] | [Hne Hk]]; [left | right]; split; auto; congruence.
  - intros [[-> ->] | [Hne Hk]]; [left | right]; split; auto; congruence.
Qed.

Lemma new_record_lookup documents u es i doc :
  length es = length documents ->
  documents !! i = Some doc ->
  exists e,
    zip_records (uuid4 <$> seq u (length documents)) es
      (stored_metadata <$> documents) (content <$> documents) !! i
    = Some {| rec_id := uuid4 (u + i); rec_embedding := e;
              rec_metadata := stored_metadata doc;
              rec_document := content doc |}.
Proof.
  intros Hlen Hdoc. pose proof (lookup_lt_Some _ _ _ Hdoc) as Hi.
  destruct (lookup_lt_is_Some_2 es i) as [e He]; [lia|].
  exists e. apply zip_records_lookup. simpl.
  rewrite !list_lookup_fmap, Hdoc, lookup_seq_lt by assumption.
  repeat split. exact He.
Qed.

Lemma new_record_inv documents u es i r :
  zip_records (uuid4 <$> seq u (length documents)) es
    (stored_metadata <$> documents) (content <$> documents) !! i = Some r ->
  exists doc,
    documents !! i = Some doc
    /\ rec_id r = uuid4 (u + i)
    /\ rec_metadata r = stored_metadata doc
    /\ rec_document r = content doc.
Proof.
  intros E. apply zip_records_lookup in E as (Hi & _ & Hm & Hd).
  rewrite list_lookup_fmap in Hi. rewrite list_lookup_fmap in Hm.
  rewrite list_lookup_fmap in Hd.
  destruct (documents !! i) as [doc|] eqn:Hdoc; [|discriminate].
  pose proof (lookup_lt_Some _ _ _ Hdoc) as Hlt.
  rewrite lookup_seq_lt in Hi by assumption. simpl in *.
  exists doc. repeat split; congruence.
Qed.

(** C7, as the code has it: every record of the batch is stored under
    an identifier of its own, drawn for it, which no other record of the
    index has (the source of identifiers never repeating), with its text,
    and with the metadata made of [title = doc['title']] and of the
    scalar-valued entries of [doc['metadata']] under the other keys;
    entries with other values are dropped. *)
Theorem add_documents_stores_scalar_metadata self documents w :
  fault w = None ->
  Inj (=) (=) uuid4 ->
  ids_drawn w ->
  exists w' new,
    add_documents self documents w = (w', Ok tt)
    /\ records w' = records w ++ new
    /\ length new = length documents
    /\ ids_drawn w'
    /\ forall i doc,
         documents !! i = Some doc ->
         exists r,
           new !! i = Some r
           /\ rec_id r = uuid4 (uuid_next w + i)
           /\ (forall r0, r0 ∈ records w -> rec_id r0 <> rec_id r)
           /\ (forall j r', new !! j = Some r' -> j <> i -> rec_id r' <> rec_id r)
           /\ rec_document r = content doc
           /\ (forall k v,
                 rec_metadata r !! k = Some v
                 <-> (k = "title" /\ v = PStr (title doc))
                     \/ (k <> "title" /\ metadata doc !! k = Some v
                         /\ is_scalar v = true)).
Proof.
  intros Hf Hinj Hdrawn.
  destruct (add_documents_spec self documents w Hf)
    as (w' & es & E & Hlen & Hr & Hf' & Hu).
  eexists w', _. split; [exact E|]. split; [exact Hr|].
  split.
  { rewrite length_zip_records; rewrite ?length_fmap, ?length_seq; auto. }
  split.
  - intros r Hin. rewrite Hr in Hin. apply elem_of_app in Hin as [Hold|Hnew].
    + destruct (Hdrawn r Hold) as (i & Hi & Hid). exists i. split; [lia|exact Hid].
    + apply list_elem_of_lookup in Hnew as [i Hi].
      apply new_record_inv in Hi as (doc & Hdoc & Hid & _).
      pose proof (lookup_lt_Some _ _ _ Hdoc).
      exists (uuid_next w + i)%nat. split; [lia|exact Hid].
  - intros i doc Hdoc.
    destruct (new_record_lookup documents (uuid_next w) es i doc Hlen Hdoc)
      as [e He].
    eexists. split; [exact He|]. simpl.
    split; [reflexivity|]. split; [|split]; [| |split; [reflexivity|]].
    + intros r0 Hin Heq. destruct (Hdrawn r0 Hin) as (j & Hj & Hid).
      rewrite Hid in Heq. apply Hinj in Heq. lia.
    + intros j r' Hj Hne Heq.
      apply new_record_inv in Hj as (doc' & _ & Hid & _).
      rewrite Hid in Heq. apply Hinj in Heq. lia.
    + intros k v. apply stored_metadata_lookup.
Qed.

Lemma where_eqb_str v X : where_eqb v (PStr X) = true <-> v = PStr X.
Proof.
  destruct v; simpl; try (split; intros E; discriminate).
  rewrite String.eqb_eq. split; congruence.
Qed.

Lemma matches_group X r :
  matches "original_document_id" (PStr X) r = true <-> in_group X (rec_metadata r).
Proof.
  unfold matches, in_group.
  destruct (rec_metadata r !! "original_document_id") as [v|].
  - rewrite where_eqb_str. split; congruence.
  - split; intros E; discriminate.
Qed.

Lemma filter_none {A} (P : A -> Prop) `{forall x, Decision (P x)} (l : list A) :
  Forall (fun x => ~ P x) l -> filter P l = [].
Proof.
  induction 1 as [|x l Hx _ IH]; [reflexivity|].
  rewrite filter_cons_False by assumption. exact IH.
Qed.

(** [get_full_context] reads the first record of the group, in index
    order, and no other. *)
Lemma get_full_context_first self X w before r after :
  fault w = None ->
  records w = before ++ r :: after ->
  Forall (fun r0 => ~ in_group X (rec_metadata r0)) before ->
  in_group X (rec_metadata r) ->
  get_full_context self X w
  = (log CollectionGet w, Ok (context_of (rec_metadata r))).
Proof.
  intros Hf Hrec Hbefore Hr.
  unfold get_full_context, try_except. rewrite bind_unfold.
  unfold collection_get. rewrite store_call_available by assumption.
  cbn [fst snd records log]. rewrite Hrec, filter_app.
  rewrite filter_none.
  2:{ eapply Forall_impl; [exact Hbefore|]. intros r0 Hn Hm. apply Hn.
      apply matches_group. exact Hm. }
  rewrite filter_cons_True by (apply matches_group; exact Hr).
  reflexivity.
Qed.

Lemma stored_metadata_group X doc :
  in_group X (stored_metadata doc) <-> in_group X (metadata doc).
Proof.
  unfold in_group. rewrite stored_metadata_lookup. split.
  - intros [[E _] | (_ & E & _)]; [discriminate | exact E].
  - intros E. right. repeat split; [discriminate | exact E].
Qed.

(** C6, as the code has it: after a batch is stored in an available
    index that holds no record of group [X] yet, [get_full_context X]
    returns the [full_content] of the first document of the batch that
    belongs to the group, when that document carries one with a scalar
    value.  The lookup reads that one record only. *)
Theorem full_context_of_first_chunk self documents X w pre d rest F :
  fault w = None ->
  Forall (fun r => ~ in_group X (rec_metadata r)) (records w) ->
  documents = pre ++ d :: rest ->
  Forall (fun doc => ~ in_group X (metadata doc)) pre ->
  in_group X (metadata d) ->
  metadata d !! "full_content" = Some F ->
  is_scalar F = true ->
  exists w1 w2 ctx,
    add_documents self documents w = (w1, Ok tt)
    /\ get_full_context self X w1 = (w2, Ok ctx)
    /\ ctx !! "full_content" = Some F.
Proof.
  intros Hf Hold Hdocs Hpre Hd HF Hscalar.
  destruct (add_documents_spec self documents w Hf)
    as (w1 & es & E & Hlen & Hr & Hf1 & _).
  set (new := zip_records (uuid4 <$> seq (uuid_next w) (length documents)) es
                (stored_metadata <$> documents) (content <$> documents)) in *.
  assert (Hdoc : documents !! length pre = Some d).
  { rewrite Hdocs. apply list_lookup_middle. reflexivity. }
  destruct (new_record_lookup documents (uuid_next w) es (length pre) d Hlen Hdoc)
    as [e He]. fold new in He.
  set (r := {| rec_id := uuid4 (uuid_next w + length pre); rec_embedding := e;
               rec_metadata := stored_metadata d; rec_document := content d |})
    in *.
  assert (Hbefore : Forall (fun r0 => ~ in_group X (rec_metadata r0))
                      (records w ++ take (length pre) new)).
  { apply Forall_app. split; [exact Hold|].
    apply Forall_lookup. intros j r' Hj.
    apply lookup_take_Some in Hj as [Hj Hlt].
    apply new_record_inv in Hj as (doc' & Hdoc' & _ & Hm & _).
    rewrite Hm, stored_metadata_group.
    rewrite Hdocs, lookup_app_l in Hdoc' by assumption.
    rewrite Forall_lookup in Hpre. apply (Hpre j doc' Hdoc'). }
  exists w1, (log CollectionGet w1), (context_of (rec_metadata r)).
  split; [exact E|]. split.
  - apply (get_full_context_first self X w1
             (records w ++ take (length pre) new) r (drop (S (length pre)) new));
      [exact Hf1 | | exact Hbefore | apply stored_metadata_group; exact Hd].
    rewrite Hr, <- app_assoc, (take_drop_middle new (length pre) r He).
    reflexivity.
  - unfold context_of. rewrite lookup_insert_eq. simpl.
    assert (Hs : stored_metadata d !! "full_content" = Some F).
    { apply stored_metadata_lookup. right. repeat split;
        [discriminate | exact HF | exact Hscalar]. }
    rewrite Hs. reflexivity.
Qed.

(** C10: [add_documents] with an empty list returns at once and leaves
    everything as it was: no embedding request, no write, the same
    records.  A list that is not empty does issue one embedding request
    per document and then one write. *)
Theorem add_documents_empty_is_noop self w :
  add_documents self [] w = (w, Ok tt)
  /\ forall doc rest,
       trace (fst (add_documents self (doc :: rest) w))
       = trace w ++ (embed_event <$> doc :: rest)
         ++ [CollectionAdd (S (length rest))].
Proof.
  split; [reflexivity|]. intros doc rest.
  unfold add_documents. rewrite bind_unfold.
  destruct (add_loop_spec self (doc :: rest)
              {| ids := []; embeddings := []; metadatas := [];
                 documents_text := [] |} w)
    as (w1 & b & E & Hi & _ & _ & _ & _ & _ & _ & Ht).
  rewrite E.
  assert (Hadd : forall i e m d,
            trace (fst (collection_add i e m d w1))
            = trace w1 ++ [CollectionAdd (length i)]).
  { intros i e m d. unfold collection_add, store_call.
    destruct (fault w1); reflexivity. }
  rewrite Hadd, Ht, Hi, <- app_assoc.
  do 3 f_equal. cbn [ids app]. rewrite length_fmap, length_seq. reflexivity.
Qed.

Lemma finishes_store_call {A} ev (f : World -> World * A) :
  finishes (store_call ev f).
Proof.
  intros w. unfold store_call. destruct (fault w); [discriminate|].
  destruct (f (log ev w)). discriminate.
Qed.

Lemma finishes_search self query top_k : finishes (search self query top_k).
Proof.
  unfold search. apply finishes_bind.
  { intros w. rewrite get_query_embedding_eq. discriminate. }
  intros query_embedding. apply finishes_bind; [apply finishes_store_call|].
  intros results. destruct (q_documents results) as [|[|d first] others];
    try apply finishes_ret.
  apply finishes_mapM. intros i. unfold hit.
  repeat (apply finishes_bind; [apply finishes_lift|]; intros ?).
  apply finishes_ret.
Qed.

Lemma finishes_init : finishes __init__.
Proof.
  unfold __init__. apply finishes_bind; [apply finishes_store_call|].
  intros _. apply finishes_ret.
Qed.

Lemma init_available w :
  fault w = None ->
  __init__ w
  = (log CollectionCreate w,
     Ok {| embedding_model_name := "models/embedding-001" |}).
Proof.
  intros Hf. unfold __init__, get_or_create_collection.
  rewrite bind_unfold, store_call_available by exact Hf. reflexivity.
Qed.

Lemma nearest_nil query_embedding k : nearest query_embedding k [] = [].
Proof. unfold nearest. simpl. apply take_nil. Qed.

(** A search of an available index without records returns the empty
    list. *)
Lemma search_empty self query top_k w :
  fault w = None ->
  records w = [] ->
  exists w', search self query top_k w = (w', Ok []) /\ records w' = []
             /\ fault w' = None.
Proof.
  intros Hf Hrec. unfold search.
  rewrite bind_unfold, get_query_embedding_eq, bind_unfold.
  unfold collection_query. rewrite store_call_available by exact Hf.
  cbn [fst snd records log set_embedder q_documents]. rewrite Hrec.
  cbn [fmap list_fmap]. rewrite nearest_nil.
  eexists. split; [reflexivity|]. split; [exact Hrec | exact Hf].
Qed.

(** Resetting an available index leaves it empty. *)
Lemma reset_collection_empties self w :
  fault w = None ->
  exists w', reset_collection self w = (w', Ok tt) /\ records w' = []
             /\ fault w' = None.
Proof.
  intros Hf. unfold reset_collection, try_except, delete_collection,
    get_or_create_collection.
  rewrite bind_unfold, store_call_available by exact Hf. cbn [fst snd].
  rewrite store_call_available by exact Hf.
  eexists. split; [reflexivity|]. split; [reflexivity | exact Hf].
Qed.

End Store.
End StoreFacts.

(** ** The retrieval tool: fallback and the no-information message *)
Module ToolsFacts.
Import Py tools tools_spec PyFacts.
Local Open Scope py_scope.

Section Retrieval.
Context `{Runtime} `{vector_store.Backend} `{Network}.

Lemma net_frame_ret {A} (a : A) : net_frame (ret a).
Proof. intros n w. reflexivity. Qed.

Lemma net_frame_lift {A} (r : result A) : net_frame (lift r).
Proof. intros n w. unfold lift. destruct r; reflexivity. Qed.

Lemma net_frame_bind {A B} (c : M ToolsWorld A) (k : A -> M ToolsWorld B) :
  net_frame c -> (forall a, net_frame (k a)) -> net_frame (bind c k).
Proof.
  intros Hc Hk n w. unfold bind. rewrite (Hc n w).
  destruct (c w) as [w1 [a|e|]]; simpl; [apply Hk | reflexivity | reflexivity].
Qed.

Lemma net_frame_try_except {A} (c : M ToolsWorld A) (h : exc -> M ToolsWorld A) :
  net_frame c -> (forall e, net_frame (h e)) -> net_frame (try_except c h).
Proof.
  intros Hc Hh n w. unfold try_except. rewrite (Hc n w).
  destruct (c w) as [w1 [a|e|]]; simpl; [reflexivity | apply Hh | reflexivity].
Qed.

Lemma net_frame_on_index {A} (c : M vector_store.World A) : net_frame (on_index c).
Proof.
  intros n w. unfold on_index. simpl. destruct (c (index w)). reflexivity.
Qed.

Lemma net_frame_get_vector_store : net_frame get_vector_store.
Proof.
  intros n w. unfold get_vector_store. rewrite !(bind_unfold get). unfold get.
  cbn [_vector_store set_net]. destruct (_vector_store w) as [vs|]; [reflexivity|].
  apply net_frame_bind; [apply net_frame_on_index|].
  intros vs. apply net_frame_bind; [|intros _; apply net_frame_ret].
  intros n' w'. reflexivity.
Qed.

Lemma net_frame_search_local query : net_frame (_search_local_knowledge_base query).
Proof.
  unfold _search_local_knowledge_base. apply net_frame_try_except.
  - apply net_frame_bind; [apply net_frame_get_vector_store|]. intros vs.
    apply net_frame_bind; [apply net_frame_on_index|]. intros [|r results].
    + apply net_frame_ret.
    + apply net_frame_bind; [apply net_frame_lift|]. intros parts.
      apply net_frame_ret.
  - intros e. apply net_frame_ret.
Qed.

Lemma search_local_never_raises query w w' e :
  _search_local_knowledge_base query w <> (w', Raise e).
Proof.
  unfold _search_local_knowledge_base, try_except.
  match goal with |- context [match ?c with _ => _ end] => destruct c as [w1 [a|x|]] end;
    discriminate.
Qed.

Lemma finishes_on_index {A} (c : M vector_store.World A) :
  finishes c -> finishes (on_index c).
Proof.
  intros Hc w. unfold on_index. specialize (Hc (index w)).
  destruct (c (index w)). exact Hc.
Qed.

Lemma finishes_get_vector_store : finishes get_vector_store.
Proof.
  intros w. unfold get_vector_store. rewrite (bind_unfold get). unfold get.
  destruct (_vector_store w) as [vs|]; [discriminate|].
  apply finishes_bind; [apply finishes_on_index, StoreFacts.finishes_init|].
  intros vs. apply finishes_bind; [apply finishes_modify|].
  intros _. apply finishes_ret.
Qed.

(** The local search always returns a string. *)
Lemma search_local_returns query w :
  exists w' answer, _search_local_knowledge_base query w = (w', Ok answer).
Proof.
  assert (Hfin : finishes (_search_local_knowledge_base query)).
  { unfold _search_local_knowledge_base. apply finishes_try_except.
    - apply finishes_bind; [apply finishes_get_vector_store|]. intros vs.
      apply finishes_bind;
        [apply finishes_on_index, StoreFacts.finishes_search|].
      intros [|r results]; [apply finishes_ret|].
      apply finishes_bind; [apply finishes_lift|]. intros parts.
      apply finishes_ret.
    - intros e. apply finishes_ret. }
  specialize (Hfin w).
  destruct (_search_local_knowledge_base query w) as [w1 [a|x|]] eqn:E.
  - exists w1, a. reflexivity.
  - exfalso. apply (search_local_never_raises _ _ _ _ E).
  - exfalso. apply Hfin. reflexivity.
Qed.

(** After a recoverable failure of the remote search the tool is the
    local search, run on the world the attempt left. *)
Lemma search_falls_back query w n :
  remote_failed query w n ->
  search_knowledge_base query w = _search_local_knowledge_base query (set_net n w).
Proof.
  intros [n' r Hpost Hstatus | n' e Hpost Hcls];
    unfold search_knowledge_base, try_except2; rewrite bind_unfold;
    unfold post_search; unfold search_request in Hpost; rewrite Hpost.
  - destruct (Z.eqb_spec (status_code r) 200) as [Heq|_]; [contradiction|].
    cbn [negb].
    destruct (_search_local_knowledge_base query (set_net n' w))
      as [w1 [a|x|]] eqn:E; try reflexivity.
    exfalso. apply (search_local_never_raises _ _ _ _ E).
  - unfold is_request_exception. rewrite Hcls. reflexivity.
Qed.

(** C2: when the remote search answers with a status other than 200 or
    the request raises a network exception (a timeout included),
    [search_knowledge_base] returns the very string
    [_search_local_knowledge_base] returns for the same query, with the
    same [top_k = 3], on the same index, and leaves the index as the
    local search leaves it. *)
Theorem fallback_equals_local_search query w n :
  remote_failed query w n ->
  snd (search_knowledge_base query w) = snd (_search_local_knowledge_base query w)
  /\ index (fst (search_knowledge_base query w))
     = index (fst (_search_local_knowledge_base query w))
  /\ _vector_store (fst (search_knowledge_base query w))
     = _vector_store (fst (_search_local_knowledge_base query w))
  /\ exists answer, snd (search_knowledge_base query w) = Ok answer.
Proof.
  intros Hfail. rewrite (search_falls_back _ _ _ Hfail).
  rewrite (net_frame_search_local query n w). cbn [fst snd set_net index _vector_store].
  repeat split.
  destruct (search_local_returns query w) as (w1 & answer & E).
  exists answer. rewrite E. reflexivity.
Qed.

Lemma local_empty_message query w :
  local_empty query w -> snd (_search_local_knowledge_base query w) = Ok NO_INFO.
Proof.
  intros (vs & w1 & w2 & Hvs & Hsearch).
  unfold _search_local_knowledge_base, try_except.
  rewrite (bind_ok _ _ _ _ _ Hvs), (bind_ok _ _ _ _ _ Hsearch). reflexivity.
Qed.

Lemma empty_index_local_empty query w :
  vector_store.fault (index w) = None ->
  vector_store.records (index w) = [] ->
  local_empty query w.
Proof.
  intros Hf Hrec. unfold local_empty, get_vector_store.
  destruct (_vector_store w) as [vs|] eqn:Hvs.
  - destruct (StoreFacts.search_empty vs query TOP_K (index w) Hf Hrec)
      as (i & Es & _).
    exists vs, w, {| net := net w; _vector_store := _vector_store w; index := i |}.
    split.
    + rewrite (bind_unfold get). unfold get. rewrite Hvs. reflexivity.
    + unfold on_index. rewrite Es. reflexivity.
  - set (i0 := vector_store.log vector_store.CollectionCreate (index w)).
    set (vs := {| vector_store.embedding_model_name := "models/embedding-001" |}).
    destruct (StoreFacts.search_empty vs query TOP_K i0 Hf Hrec) as (i & Es & _).
    exists vs, {| net := net w; _vector_store := Some vs; index := i0 |},
      {| net := net w; _vector_store := Some vs; index := i |}.
    split.
    + rewrite (bind_unfold get). unfold get. rewrite Hvs.
      rewrite (bind_unfold (on_index _)). unfold on_index at 1.
      rewrite StoreFacts.init_available by exact Hf. reflexivity.
    + unfold on_index. cbn [index]. rewrite Es. reflexivity.
Qed.

(** C5: a search of an empty index, or of one that has just been reset,
    returns the empty list, not an error (the index being available).
    When the remote search answers without results, or fails and the
    local search finds nothing, [search_knowledge_base] returns the fixed
    message [NO_INFO], which is not the empty string. *)
Theorem no_results_give_fixed_message :
  (forall self query top_k (w : vector_store.World),
      vector_store.fault w = None ->
      vector_store.records w = [] ->
      snd (vector_store.search self query top_k w) = Ok [])
  /\ (forall self query top_k (w : vector_store.World),
        vector_store.fault w = None ->
        snd (bind (vector_store.reset_collection self)
               (fun _ => vector_store.search self query top_k) w) = Ok [])
  /\ (forall query w,
        remote_empty query w ->
        snd (search_knowledge_base query w) = Ok NO_INFO)
  /\ (forall query w n,
        remote_failed query w n ->
        local_empty query w ->
        snd (search_knowledge_base query w) = Ok NO_INFO)
  /\ (forall query w n,
        remote_failed query w n ->
        vector_store.fault (index w) = None ->
        vector_store.records (index w) = [] ->
        snd (search_knowledge_base query w) = Ok NO_INFO)
  /\ NO_INFO <> EmptyString.
Proof.
  assert (Hfallback : forall query w n,
            remote_failed query w n ->
            local_empty query w ->
            snd (search_knowledge_base query w) = Ok NO_INFO).
  { intros query w n Hfail Hempty.
    rewrite (search_falls_back _ _ _ Hfail), (net_frame_search_local query n w).
    apply (local_empty_message _ _ Hempty). }
  repeat split.
  - intros self query top_k w Hf Hrec.
    destruct (StoreFacts.search_empty self query top_k w Hf Hrec) as (w' & E & _).
    rewrite E. reflexivity.
  - intros self query top_k w Hf.
    destruct (StoreFacts.reset_collection_empties self w Hf)
      as (w1 & E1 & Hrec & Hf1).
    destruct (StoreFacts.search_empty self query top_k w1 Hf1 Hrec)
      as (w2 & E2 & _).
    rewrite (bind_ok _ _ _ _ _ E1), E2. reflexivity.
  - intros query w [n r data results Hpost Hstatus Hjson Hget Hfalsy].
    unfold search_knowledge_base, try_except2. rewrite bind_unfold.
    unfold post_search. unfold search_request in Hpost. rewrite Hpost.
    rewrite Hstatus. cbn [Z.eqb Pos.eqb negb].
    rewrite bind_unfold, Hjson. unfold lift at 1.
    rewrite bind_unfold, Hget. unfold lift at 1. rewrite Hfalsy. reflexivity.
  - exact Hfallback.
  - intros query w n Hfail Hf Hrec.
    apply (Hfallback query w n Hfail), empty_index_local_empty; assumption.
  - discriminate.
Qed.

End Retrieval.
End ToolsFacts.

(** ** The statements about the index and the tool on concrete inputs *)
Module StoreRuns.
Import Py vector_store store_spec Scenario.

Lemma demo_fixed_dimension : @fixed_dimension demo_backend.
Proof.
  intros es model text task es' d v E Ed. simpl in E.
  destruct (String.eqb text "unreachable"); [discriminate|].
  injection E as _ <-. rewrite lookup_singleton_eq in Ed.
  injection Ed as <-. reflexivity.
Qed.

Lemma demo_uuid4_inj : Inj (=) (=) (@uuid4 demo_backend).
Proof.
  intros x y E. simpl in E. injection E as E. exact (pretty_nat_inj x y E).
Qed.

Lemma empty_index_ids_drawn : @ids_drawn demo_backend empty_index.
Proof. intros r Hin. apply elem_of_nil in Hin. contradiction. Qed.

(** The demo service is down for one text and answers the other. *)
Lemma embeddings_have_fixed_dimension_witness :
  @fixed_dimension demo_backend
  /\ (exists w' v,
        @_get_embedding demo_backend demo_store "unreachable" empty_index
        = (w', Ok v)
        /\ length v = EMBEDDING_DIM
        /\ v = replicate EMBEDDING_DIM 0%float)
  /\ (exists w' v,
        @_get_query_embedding demo_backend demo_store "opening hours" empty_index
        = (w', Ok v)
        /\ length v = EMBEDDING_DIM).
Proof.
  split; [exact demo_fixed_dimension|].
  destruct (@StoreFacts.embeddings_have_fixed_dimension demo_backend demo_store
              "unreachable" empty_index demo_fixed_dimension)
    as [(w1 & v1 & E1 & L1 & Z1) _].
  destruct (@StoreFacts.embeddings_have_fixed_dimension demo_backend demo_store
              "opening hours" empty_index demo_fixed_dimension)
    as [_ (w2 & v2 & E2 & L2 & _)].
  split.
  - exists w1, v1. split; [exact E1|]. split; [exact L1|].
    apply (Z1 1%nat (Exc RuntimeError "503 Service Unavailable")). reflexivity.
  - exists w2, v2. split; [exact E2 | exact L2].
Defined.

(** C7, as stated, fails: the record [retitled] has the scalar metadata
    entry [title = "A"], and what is stored under [title] is the record's
    own title ["B"]; the stored metadata is not the scalar part of the
    record's metadata. *)
Lemma scalar_title_entry_is_replaced :
  exists w' r,
    @add_documents demo_backend demo_store [retitled] empty_index = (w', Ok tt)
    /\ records w' = [r]
    /\ metadata retitled !! "title" = Some (PStr "A")
    /\ is_scalar (PStr "A") = true
    /\ rec_metadata r !! "title" = Some (PStr "B")
    /\ rec_metadata r
       <> filter (fun kv => is_scalar kv.2 = true) (metadata retitled).
Proof.
  eexists _, _. split; [vm_compute; reflexivity|].
  split; [vm_compute; reflexivity|].
  split; [vm_compute; reflexivity|]. split; [reflexivity|].
  split; [vm_compute; reflexivity|].
  intros E. apply (f_equal (fun m => m !! "title")) in E.
  vm_compute in E. discriminate.
Qed.

(** The record [retitled] stored in the empty index: its list-valued
    entry is dropped. *)
Lemma add_documents_stores_scalar_metadata_witness :
  exists w' new,
    @add_documents demo_backend demo_store [retitled] empty_index = (w', Ok tt)
    /\ records w' = records empty_index ++ new
    /\ length new = 1%nat
    /\ exists r,
         new !! 0%nat = Some r
         /\ rec_id r = "uuid-0"
         /\ rec_document r = "text"
         /\ (rec_metadata r !! "tags" = Some (PList [PStr "x"])
             <-> ("tags" = "title" /\ PList [PStr "x"] = PStr "B")
                 \/ ("tags" <> "title"
                     /\ metadata retitled !! "tags" = Some (PList [PStr "x"])
                     /\ is_scalar (PList [PStr "x"]) = true)).
Proof.
  destruct (@StoreFacts.add_documents_stores_scalar_metadata demo_backend
              demo_store [retitled] empty_index eq_refl demo_uuid4_inj
              empty_index_ids_drawn)
    as (w' & new & E & Hr & Hl & _ & Hdocs).
  exists w', new. split; [exact E|]. split; [exact Hr|]. split; [exact Hl|].
  destruct (Hdocs 0%nat retitled eq_refl) as (r & Hn & Hid & _ & _ & Hd & Hm).
  exists r. split; [exact Hn|]. split; [exact Hid|]. split; [exact Hd|].
  apply Hm.
Defined.

(** C6, as stated, fails: both chunks belong to group ["doc-1"] and the
    second carries the full text, yet [get_full_context "doc-1"] returns
    the empty string as [full_content], read from the first chunk. *)
Lemma full_content_of_later_chunk_is_missed :
  exists w1 w2 ctx,
    @add_documents demo_backend demo_store
      [chunk_without_full; chunk_with_full] empty_index = (w1, Ok tt)
    /\ in_group "doc-1" (metadata chunk_without_full)
    /\ in_group "doc-1" (metadata chunk_with_full)
    /\ metadata chunk_with_full !! "full_content" = Some (PStr "page one page two")
    /\ @get_full_context demo_backend demo_store "doc-1" w1 = (w2, Ok ctx)
    /\ ctx !! "full_content" = Some (PStr EmptyString)
    /\ ctx !! "full_content" <> Some (PStr "page one page two").
Proof.
  eexists _, _, _. split; [vm_compute; reflexivity|].
  split; [vm_compute; reflexivity|]. split; [vm_compute; reflexivity|].
  split; [vm_compute; reflexivity|]. split; [vm_compute; reflexivity|].
  split; [vm_compute; reflexivity|].
  vm_compute. discriminate.
Qed.

(** The same two chunks, the one with the full text first. *)
Lemma full_context_of_first_chunk_witness :
  exists w1 w2 ctx,
    @add_documents demo_backend demo_store
      [chunk_with_full; chunk_without_full] empty_index = (w1, Ok tt)
    /\ @get_full_context demo_backend demo_store "doc-1" w1 = (w2, Ok ctx)
    /\ ctx !! "full_content" = Some (PStr "page one page two").
Proof.
  apply (@StoreFacts.full_context_of_first_chunk demo_backend demo_store
           [chunk_with_full; chunk_without_full] "doc-1" empty_index
           [] chunk_with_full [chunk_without_full] (PStr "page one page two")).
  - reflexivity.
  - constructor.
  - reflexivity.
  - constructor.
  - vm_compute. reflexivity.
  - vm_compute. reflexivity.
  - reflexivity.
Defined.

End StoreRuns.

Module ToolsRuns.
Import Py tools tools_spec Scenario.

(** The endpoint times out over an index that holds the guide. *)
Lemma fallback_equals_local_search_witness :
  let w := @tools_world timing_out tt guide_index in
  @remote_failed demo_backend timing_out "full text" w tt
  /\ snd (@search_knowledge_base demo_runtime demo_backend timing_out "full text" w)
     = snd (@_search_local_knowledge_base demo_runtime demo_backend timing_out
              "full text" w).
Proof.
  assert (Hfail : @remote_failed demo_backend timing_out "full text"
                    (@tools_world timing_out tt guide_index) tt).
  { apply (@network_error demo_backend timing_out "full text" _ tt
             (Exc RequestException "Read timed out. (read timeout=30)"));
      reflexivity. }
  split; [exact Hfail|].
  apply (@ToolsFacts.fallback_equals_local_search demo_runtime demo_backend
           timing_out "full text" _ tt Hfail).
Defined.

(** An empty index, a reset one, a remote answer without results, and a
    failed remote search over an empty index. *)
Lemma no_results_give_fixed_message_witness :
  snd (@vector_store.search demo_backend demo_store "opening hours" 3 empty_index)
  = Ok []
  /\ snd (bind (@vector_store.reset_collection demo_backend demo_store)
            (fun _ => @vector_store.search demo_backend demo_store
                        "opening hours" 3) guide_index) = Ok []
  /\ snd (@search_knowledge_base demo_runtime demo_backend answering_nothing
            "opening hours" (@tools_world answering_nothing tt guide_index))
     = Ok NO_INFO
  /\ snd (@search_knowledge_base demo_runtime demo_backend unavailable
            "opening hours" (@tools_world unavailable tt empty_index))
     = Ok NO_INFO.
Proof.
  split; [|split; [|split]].
  - apply (proj1 (@ToolsFacts.no_results_give_fixed_message demo_runtime
                    demo_backend timing_out)); reflexivity.
  - apply (proj1 (proj2 (@ToolsFacts.no_results_give_fixed_message demo_runtime
                           demo_backend timing_out))).
    vm_compute. reflexivity.
  - apply (proj1 (proj2 (proj2 (@ToolsFacts.no_results_give_fixed_message
                                   demo_runtime demo_backend answering_nothing)))).
    apply (@no_remote_results demo_backend answering_nothing "opening hours" _ tt
             {| status_code := 200;
                json := Returns (PDict {[ "results" := PList [] ]}) |}
             (PDict {[ "results" := PList [] ]}) (PList []));
      reflexivity.
  - apply (proj1 (proj2 (proj2 (proj2 (proj2
             (@ToolsFacts.no_results_give_fixed_message demo_runtime
                demo_backend unavailable))))) "opening hours" _ tt).
    + apply (@bad_status demo_backend unavailable "opening hours" _ tt
               {| status_code := 503;
                  json := Raises (Exc RequestException "Expecting value") |});
        [reflexivity | discriminate].
    + reflexivity.
    + reflexivity.
Defined.

End ToolsRuns.

(** ** Further facts about the conversation loop *)
Module AgentMore.
Import Py agent agent_spec agent_more PyFacts AgentFacts.
Local Open Scope py_scope.

Section Loop.
Context `{Provider} `{ToolEnv}.

Lemma drop_appended j : forall turns,
  drop (2 * j) (appended turns) = appended (drop j turns).
Proof.
  induction j as [|j IH]; intros turns; [reflexivity|].
  destruct turns as [|t turns]; [reflexivity|].
  replace (2 * S j)%nat with (S (S (2 * j))) by lia.
  unfold appended in *. rewrite bind_cons. cbn [app drop]. apply IH.
Qed.

Lemma lastn_appended k turns :
  lastn (2 * k) (appended turns) = appended (lastn k turns).
Proof.
  unfold lastn. rewrite length_appended.
  replace (2 * length turns - 2 * k)%nat with (2 * (length turns - k))%nat by lia.
  apply drop_appended.
Qed.

(** X1: trimming never splits an exchange.  With a positive
    [max_history = M], after [N] successful calls on a new assistant the
    history is made of the last [min(N, M)] exchanges, each with its user
    entry followed by its assistant entry. *)
Theorem history_keeps_whole_exchanges st turns st' :
  successful_calls st turns st' ->
  history st = [] ->
  (0 < limit st)%Z ->
  history st' = appended (lastn (Z.to_nat (limit st)) turns).
Proof.
  intros Hrun Hnil Hpos.
  destruct (history_bound_positive st turns st' Hrun Hnil Hpos) as [_ Hh].
  cbv zeta in Hh. rewrite Hh.
  destruct (Z.le_gt_cases (2 * Z.of_nat (length turns)) (2 * limit st)) as [Hle|Hgt].
  - rewrite Z.min_l by assumption.
    rewrite (lastn_all (Z.to_nat (limit st)) turns) by lia.
    apply lastn_all. rewrite length_appended. lia.
  - rewrite Z.min_r by lia.
    replace (Z.to_nat (2 * limit st)) with (2 * Z.to_nat (limit st))%nat by lia.
    apply lastn_appended.
Qed.

Lemma texts_of_nonempty ps :
  Forall (fun t => t <> EmptyString) (texts_of ps).
Proof.
  unfold texts_of. induction ps as [|p ps IH]; [constructor|].
  cbn [omap list_omap]. unfold has_text at 1.
  destruct (text p) as [t|]; [|exact IH].
  destruct t as [|c t]; [exact IH|].
  constructor; [discriminate | exact IH].
Qed.

Lemma join_nonempty sep t rest :
  t <> EmptyString -> join sep (t :: rest) <> EmptyString.
Proof.
  intros Ht. destruct t as [|c t]; [contradiction|].
  destruct rest; simpl; discriminate.
Qed.

Lemma extract_from_candidates_nonempty response :
  extract_from_candidates response <> EmptyString.
Proof.
  unfold extract_from_candidates.
  destruct (candidates response) as [[|candidate cs]|]; try discriminate.
  match goal with
  | |- context [match ?l with [] => _ | _ :: _ => _ end] =>
      assert (Hl : Forall (fun t => t <> EmptyString) l);
      [| destruct l as [|t ts]]
  end.
  - destruct (candidate_content candidate) as [c|]; [|constructor].
    destruct (parts c); [apply texts_of_nonempty | constructor].
  - destruct (finish_reason candidate) as [z|]; [|discriminate].
    repeat match goal with
           | |- context [match ?x with _ => _ end] => destruct x
           end; discriminate.
  - apply join_nonempty. apply Forall_cons in Hl as [Ht _]. exact Ht.
Qed.

Lemma extract_response_text_nonempty response :
  _extract_response_text response <> EmptyString.
Proof.
  unfold _extract_response_text.
  destruct (response_text response) as [|t|e].
  - apply extract_from_candidates_nonempty.
  - destruct t as [|c t]; [apply extract_from_candidates_nonempty | discriminate].
  - destruct (exc_cls e); try discriminate.
    apply extract_from_candidates_nonempty.
Qed.

Lemma chat_handler_nonempty e : chat_handler e <> EmptyString.
Proof. unfold chat_handler. destruct (contains _ _); discriminate. Qed.

(** X2: no exception leaves [chat], and a reply it returns is never the
    empty string: it is the text of the model, one of the fixed
    apologies, or a message built around the text of the error. *)
Theorem chat_reply_never_empty fuel user_message st :
  (forall st' e, chat fuel user_message st <> (st', Raise e))
  /\ (forall st' reply,
        chat fuel user_message st = (st', Ok reply) -> reply <> EmptyString).
Proof.
  unfold chat, try_except. split.
  - intros st' e. destruct (chat_body fuel user_message st) as [s1 [a|x|]];
      discriminate.
  - intros st' reply.
    destruct (chat_body fuel user_message st) as [s1 [a|x|]] eqn:E;
      intros Hc; try discriminate.
    + injection Hc as <- <-. rewrite chat_body_split in E.
      apply bind_inv_ok in E as (s2 & response & _ & Es).
      destruct (chat_suffix_spec user_message response s2) as (s3 & Es' & _).
      rewrite Es in Es'. injection Es' as _ ->.
      apply extract_response_text_nonempty.
    + injection Hc as _ <-. apply chat_handler_nonempty.
Qed.

Lemma keeps_session_ret {A} (a : A) : keeps_session (ret a).
Proof. intros st Hs. exact Hs. Qed.

Lemma keeps_session_lift {A} (r : result A) : keeps_session (lift r).
Proof. intros st Hs. unfold lift. destruct r; exact Hs. Qed.

Lemma keeps_session_bind {A B} (c : M State A) (k : A -> M State B) :
  keeps_session c -> (forall a, keeps_session (k a)) -> keeps_session (bind c k).
Proof.
  intros Hc Hk st Hs. unfold bind. specialize (Hc st Hs).
  destruct (c st) as [s1 [a|e|]]; simpl in *; [apply Hk; exact Hc | exact Hc | exact Hc].
Qed.

Lemma keeps_session_try_except {A} (c : M State A) (h : exc -> M State A) :
  keeps_session c -> (forall e, keeps_session (h e)) ->
  keeps_session (try_except c h).
Proof.
  intros Hc Hh st Hs. unfold try_except. specialize (Hc st Hs).
  destruct (c st) as [s1 [a|e|]]; simpl in *; [exact Hc | apply Hh; exact Hc | exact Hc].
Qed.

Lemma keeps_session_execute_tool fc : keeps_session (_execute_tool fc).
Proof.
  unfold _execute_tool. apply keeps_session_bind.
  - intros st Hs. exact Hs.
  - intros _. destruct (TOOL_MAP !! name fc) as [tool_func|];
      [|apply keeps_session_ret].
    apply keeps_session_try_except; [|intros e; apply keeps_session_ret].
    intros st Hs. unfold call_tool.
    destruct (tool_func (args fc) (world st)) as [w [r|e]]; exact Hs.
Qed.

Lemma keeps_session_session_send msg : keeps_session (session_send msg).
Proof.
  intros st Hs. unfold session_send.
  destruct (chat_session (self st)) as [cs|]; [|exact Hs].
  destruct (send_message cs msg) as [cs' [r|e]]; eexists; reflexivity.
Qed.

Lemma keeps_session_chat_loop fuel :
  forall response, keeps_session (chat_loop fuel response).
Proof.
  induction fuel as [|fuel IH]; intros response; simpl.
  - intros st Hs. exact Hs.
  - apply keeps_session_bind.
    + unfold chat_cycle. apply keeps_session_bind; [apply keeps_session_lift|].
      intros [|p ps]; [apply keeps_session_ret|].
      destruct (scan_parts (p :: ps) []) as [[fc|] texts];
        [|apply keeps_session_ret].
      apply keeps_session_bind; [apply keeps_session_execute_tool|].
      intros tool_result.
      apply keeps_session_bind; [apply keeps_session_session_send|].
      intros r. apply keeps_session_ret.
    + intros [response'|final]; [apply IH | apply keeps_session_ret].
Qed.

Lemma keeps_session_chat_suffix user_message response :
  keeps_session (chat_suffix user_message response).
Proof.
  unfold chat_suffix.
  apply keeps_session_bind; [intros st Hs; exact Hs|]. intros _.
  apply keeps_session_bind; [intros st Hs; exact Hs|]. intros _.
  apply keeps_session_bind; [|intros _; apply keeps_session_ret].
  intros st Hs. unfold _trim_history. rewrite (bind_ok get _ st st st eq_refl).
  destruct (Z.of_nat (length (chat_history (self st))) >? max_history (self st) * 2)%Z;
    exact Hs.
Qed.

Lemma started_has_session st : has_session (started st).
Proof.
  unfold started, has_session.
  destruct (chat_session (self st)) as [cs|] eqn:E.
  - rewrite E. eexists. reflexivity.
  - eexists. reflexivity.
Qed.

Lemma chat_body_has_session fuel user_message st :
  has_session (fst (chat_body fuel user_message st)).
Proof.
  rewrite chat_body_split.
  rewrite (bind_unfold (chat_prefix fuel user_message)), chat_prefix_started.
  rewrite <- bind_unfold.
  apply keeps_session_bind; [|intros r; apply keeps_session_chat_suffix|].
  - apply keeps_session_bind; [apply keeps_session_session_send|].
    apply keeps_session_chat_loop.
  - apply started_has_session.
Qed.

(** X3: a call of [chat] that returns leaves [max_history] as it was and
    leaves the assistant with a dialogue session, also when the reply is
    the apology of the [except] block: a failed turn does not reset the
    dialogue. *)
Theorem chat_keeps_bound_and_session fuel user_message st st' reply :
  chat fuel user_message st = (st', Ok reply) ->
  limit st' = limit st /\ has_session st'.
Proof.
  intros Hc. pose proof (chat_body_has_session fuel user_message st) as Hs.
  unfold chat, try_except in Hc.
  destruct (chat_body fuel user_message st) as [s1 [a|e|]] eqn:E;
    try discriminate; injection Hc as <- _; cbn [fst] in Hs.
  - split; [apply (chat_body_ok _ _ _ _ _ E) | exact Hs].
  - split; [apply (chat_body_raise _ _ _ _ _ E) | exact Hs].
Qed.





(** X5: [clear_history] forgets the conversation.  The history is empty,
    the next message opens a new dialogue with the model, and (for a
    positive [max_history]) a successful call leaves in the history the
    one exchange it made, whatever the history and the session were. *)
Theorem clear_history_starts_over fuel user_message st st' reply :
  (0 < limit st)%Z ->
  chat_body fuel user_message (cleared st) = (st', Ok reply) ->
  get_history_length (cleared st) = 0%Z
  /\ started (cleared st) = set_session (Some start_chat) (cleared st)
  /\ history st' = [user_entry user_message; assistant_entry reply].
Proof.
  intros Hpos E. split; [reflexivity|]. split; [reflexivity|].
  apply chat_body_ok in E as [Hh _]. rewrite Hh.
  change (limit (cleared st)) with (limit st).
  change (history (cleared st)) with (@nil Entry).
  rewrite trimmed_lastn by assumption. apply lastn_all. simpl. lia.
Qed.

Lemma append_cons c s t : String c s +:+ t = String c (s +:+ t).
Proof. reflexivity. Qed.

Lemma append_nil t : EmptyString +:+ t = t.
Proof. reflexivity. Qed.

Lemma is_prefix_spec p : forall s,
  is_prefix p s = true <-> exists after, s = p +:+ after.
Proof.
  induction p as [|a p IH]; intros s.
  - split; [intros _; exists s; reflexivity | reflexivity].
  - destruct s as [|b s]; cbn [is_prefix].
    + split; [discriminate|]. intros [after E]. rewrite append_cons in E.
      discriminate.
    + destruct (Ascii.eqb_spec a b) as [->|Hne].
      * rewrite IH. split; intros [after E]; exists after;
          rewrite append_cons in *; congruence.
      * split; [discriminate|]. intros [after E]. rewrite append_cons in E.
        congruence.
Qed.

Lemma contains_spec needle : forall haystack,
  contains needle haystack = true <-> occurs_in needle haystack.
Proof.
  induction haystack as [|c rest IH].
  - cbn [contains]. destruct (is_prefix needle EmptyString) eqn:Hp.
    + split; [intros _ | reflexivity].
      apply is_prefix_spec in Hp as [after E]. exists EmptyString, after. exact E.
    + split; [discriminate|]. intros (before & after & E).
      destruct before; [|rewrite append_cons in E; discriminate].
      rewrite append_nil in E.
      assert (Hp' : is_prefix needle EmptyString = true)
        by (apply is_prefix_spec; exists after; exact E).
      congruence.
  - cbn [contains]. destruct (is_prefix needle (String c rest)) eqn:Hp.
    + split; [intros _ | reflexivity].
      apply is_prefix_spec in Hp as [after E]. exists EmptyString, after. exact E.
    + rewrite IH. split.
      * intros (before & after & E). exists (String c before), after.
        rewrite append_cons, E. reflexivity.
      * intros (before & after & E). destruct before as [|c' before].
        -- rewrite append_nil in E.
           assert (Hp' : is_prefix needle (String c rest) = true)
             by (apply is_prefix_spec; exists after; exact E).
           congruence.
        -- rewrite append_cons in E. injection E as _ E.
           exists before, after. exact E.
Qed.

(** X6: on the exception path the reply is the request to rephrase
    exactly when the text of the exception mentions [finish_reason];
    otherwise it is the message that quotes the error. *)
Theorem rephrase_reply_iff_finish_reason fuel user_message st st' e :
  chat_body fuel user_message st = (st', Raise e) ->
  (snd (chat fuel user_message st) = Ok REPHRASE_REPLY
   <-> occurs_in "finish_reason" (exc_str e))
  /\ (~ occurs_in "finish_reason" (exc_str e) ->
      snd (chat fuel user_message st)
      = Ok ("I encountered an error: " +:+ exc_str e
            +:+ ". Please try again or rephrase your request.")).
Proof.
  intros E. unfold chat. rewrite (try_except_raise _ _ _ _ _ E).
  cbn [snd ret]. unfold chat_handler. rewrite <- contains_spec.
  destruct (contains "finish_reason" (exc_str e)).
  - split; [split; reflexivity | intros Hn; exfalso; apply Hn; reflexivity].
  - split; [split; intros Hx; discriminate | reflexivity].
Qed.

End Loop.
End AgentMore.

(** ** Further facts about the index *)
Module StoreMore.
Import Py vector_store store_spec store_more vector_store_stats PyFacts StoreFacts.
Local Open Scope py_scope.

Section Store.
Context `{Backend} `{Config}.

Lemma mapM_seq {St A B} (f : nat -> M St B) (g : A -> B) (l : list A) :
  forall j s,
    (forall i x, l !! i = Some x -> f (j + i)%nat s = (s, Ok (g x))) ->
    mapM f (seq j (length l)) s = (s, Ok (g <$> l)).
Proof.
  induction l as [|x l IH]; intros j s Hf; [reflexivity|].
  cbn [length seq mapM]. rewrite bind_unfold.
  pose proof (Hf 0%nat x eq_refl) as Hx. rewrite Nat.add_0_r in Hx. rewrite Hx.
  rewrite bind_unfold, (IH (S j) s); [reflexivity|].
  intros i y Hy. replace (S j + i)%nat with (j + S i)%nat by lia.
  apply (Hf (S i) y Hy).
Qed.

Lemma hit_lookup (h : list (float * EmbeddingRecord)) i x w :
  h !! i = Some x ->
  hit {| q_documents := [(rec_document ∘ snd) <$> h];
         q_metadatas := [(rec_metadata ∘ snd) <$> h];
         q_distances := [fst <$> h] |} i w
  = (w, Ok (result_of x)).
Proof.
  intros Hx. unfold hit, bind, lift, index. cbn [q_documents q_metadatas q_distances].
  cbn [lookup list_lookup]. rewrite !list_lookup_fmap, Hx. reflexivity.
Qed.

(** What [search] returns from an available index. *)
Lemma search_available self query top_k w :
  fault w = None ->
  exists w' query_embedding,
    search self query top_k w
    = (w', Ok (result_of <$> nearest query_embedding top_k (records w)))
    /\ records w' = records w
    /\ fault w' = None.
Proof.
  intros Hf. unfold search.
  rewrite bind_unfold, get_query_embedding_eq, bind_unfold.
  unfold collection_query. rewrite store_call_available by exact Hf.
  cbn [fst snd records log set_embedder].
  set (qe := embedded _). set (w' := log (CollectionQuery top_k) _).
  exists w', qe. split; [|split; [reflexivity | exact Hf]].
  cbn [fmap list_fmap q_documents].
  generalize (nearest qe top_k (records w)). intros hs.
  destruct hs as [|x t]; [reflexivity|].
  change (mapM (hit {| q_documents := [(rec_document ∘ snd) <$> (x :: t)];
                       q_metadatas := [(rec_metadata ∘ snd) <$> (x :: t)];
                       q_distances := [fst <$> (x :: t)] |})
            (seq 0 (length ((rec_document ∘ snd) <$> (x :: t)))) w'
          = (w', Ok (result_of <$> x :: t))).
  rewrite length_fmap. apply mapM_seq. intros i y Hy. apply hit_lookup, Hy.
Qed.

Lemma insert_by_distance_perm x l : insert_by_distance x l ≡ₚ x :: l.
Proof.
  induction l as [|y l IH]; [reflexivity|].
  cbn [insert_by_distance]. destruct (PrimFloat.leb x.1 y.1); [reflexivity|].
  rewrite IH. apply Permutation_swap.
Qed.

Lemma sorted_perm (l : list (float * EmbeddingRecord)) :
  foldr insert_by_distance [] l ≡ₚ l.
Proof.
  induction l as [|x l IH]; [reflexivity|].
  cbn [foldr]. rewrite insert_by_distance_perm, IH. reflexivity.
Qed.




Lemma zip_records_documents ids : forall es ms ds,
  length es = length ids -> length ms = length ids -> length ds = length ids ->
  rec_document <$> zip_records ids es ms ds = ds.
Proof.
  induction ids as [|x ids IH]; intros [|e es] [|m ms] [|d ds] He Hm Hd;
    try discriminate; [reflexivity|].
  cbn [zip_records fmap list_fmap rec_document]. f_equal.
  apply IH; simpl in *; lia.
Qed.

Lemma contents_results (hs : list (float * EmbeddingRecord)) :
  contents (result_of <$> hs) = (fun x => Some (PStr (rec_document x.2))) <$> hs.
Proof.
  unfold contents. rewrite <- list_fmap_compose. apply list_fmap_ext.
  intros i x _. reflexivity.
Qed.

(** X8: what is stored can be found.  After [add_documents] on an
    available index, a search asking for at least as many results as the
    index has records returns, in some order, the text of every record:
    those that were there and those of the batch. *)
Theorem stored_documents_are_found self documents query top_k w :
  fault w = None ->
  (Z.of_nat (length (records w) + length documents) <= top_k)%Z ->
  exists w1 w2 results,
    add_documents self documents w = (w1, Ok tt)
    /\ search self query top_k w1 = (w2, Ok results)
    /\ contents results
       ≡ₚ (fun t => Some (PStr t))
            <$> ((rec_document <$> records w) ++ (content <$> documents)).
Proof.
  intros Hf Hk.
  destruct (add_documents_spec self documents w Hf)
    as (w1 & es & E & Hlen & Hr & Hf1 & _).
  destruct (search_available self query top_k w1 Hf1) as (w2 & qe & Es & _ & _).
  exists w1, w2, (result_of <$> nearest qe top_k (records w1)).
  split; [exact E|]. split; [exact Es|].
  rewrite contents_results. unfold nearest.
  assert (Hn : length (records w1) = (length (records w) + length documents)%nat).
  { rewrite Hr, length_app, length_zip_records;
      rewrite ?length_fmap, ?length_seq; auto. }
  rewrite take_ge.
  2:{ rewrite (Permutation_length (sorted_perm _)), length_fmap. lia. }
  rewrite sorted_perm, <- list_fmap_compose.
  rewrite (list_fmap_compose rec_document (fun t => Some (PStr t))).
  rewrite Hr, fmap_app, zip_records_documents;
    rewrite ?length_fmap, ?length_seq; auto.
Qed.

Lemma first_or_none {A} (P : A -> Prop) (f : A -> bool) (l : list A) :
  (forall x, f x = true <-> P x) ->
  Forall (fun x => ~ P x) l
  \/ exists before r after,
       l = before ++ r :: after /\ Forall (fun x => ~ P x) before /\ P r.
Proof.
  intros Hf. induction l as [|x l IH]; [left; constructor|].
  destruct (f x) eqn:Hx.
  - right. exists [], x, l. repeat split; [constructor | apply Hf, Hx].
  - assert (Hn : ~ P x) by (intros Hp; apply Hf in Hp; congruence).
    destruct IH as [Hall | (before & r & after & -> & Hb & Hr)].
    + left. constructor; assumption.
    + right. exists (x :: before), r, after.
      repeat split; [constructor; assumption | exact Hr].
Qed.

Lemma first_in_group X (l : list EmbeddingRecord) :
  Forall (fun r => ~ in_group X (rec_metadata r)) l
  \/ exists before r after,
       l = before ++ r :: after
       /\ Forall (fun r0 => ~ in_group X (rec_metadata r0)) before
       /\ in_group X (rec_metadata r).
Proof.
  apply (first_or_none (fun r => in_group X (rec_metadata r))
           (matches "original_document_id" (PStr X))).
  intros r. apply matches_group.
Qed.

Lemma context_of_found md : context_of md <> NOT_FOUND.
Proof.
  intros E. apply (f_equal (fun m => m !! "full_content")) in E.
  unfold context_of, NOT_FOUND in E.
  rewrite lookup_insert_eq, lookup_singleton_ne in E by discriminate.
  discriminate.
Qed.

(** What [get_full_context] returns, case by case. *)
Lemma get_full_context_cases self X w :
  exists ctx,
    get_full_context self X w = (log CollectionGet w, Ok ctx)
    /\ (ctx = NOT_FOUND
        <-> fault w <> None
            \/ Forall (fun r => ~ in_group X (rec_metadata r)) (records w)).
Proof.
  destruct (fault w) as [e|] eqn:Hf.
  - exists NOT_FOUND. split.
    + unfold get_full_context, try_except, bind, collection_get, store_call.
      rewrite Hf. reflexivity.
    + split; [intros _; left; discriminate | reflexivity].
  - destruct (first_in_group X (records w))
      as [Hnone | (before & r & after & Hrec & Hb & Hr)].
    + exists NOT_FOUND. split.
      * unfold get_full_context, try_except. rewrite bind_unfold.
        unfold collection_get. rewrite store_call_available by assumption.
        cbn [fst snd records log]. rewrite filter_none; [reflexivity|].
        eapply Forall_impl; [exact Hnone|]. intros r0 Hn Hm. apply Hn.
        apply matches_group. exact Hm.
      * split; [intros _; right; exact Hnone | reflexivity].
    + exists (context_of (rec_metadata r)). split.
      * apply (get_full_context_first self X w before r after Hf Hrec Hb Hr).
      * split.
        -- intros E. exfalso. apply (context_of_found _ E).
        -- intros [Hx | Hall]; [congruence|]. exfalso.
           rewrite Hrec in Hall. apply Forall_app in Hall as [_ Hall].
           apply Forall_cons in Hall as [Hn _]. apply Hn, Hr.
Qed.

(** X9: [get_full_context] never raises and never writes.  Its answer is
    the dict [{'error': 'Document not found'}] exactly when the index
    is unavailable or no stored record has the given
    [original_document_id]; otherwise it has a [full_content] entry and
    no [error] entry. *)
Theorem get_full_context_not_found_iff self X w :
  exists w' ctx,
    get_full_context self X w = (w', Ok ctx)
    /\ records w' = records w
    /\ (ctx = NOT_FOUND
        <-> fault w <> None
            \/ Forall (fun r => ~ in_group X (rec_metadata r)) (records w))
    /\ (ctx <> NOT_FOUND ->
        is_Some (ctx !! "full_content") /\ ctx !! "error" = None).
Proof.
  destruct (get_full_context_cases self X w) as (ctx & E & Hiff).
  exists (log CollectionGet w), ctx. split; [exact E|]. split; [reflexivity|].
  split; [exact Hiff|]. intros Hne.
  destruct (fault w) as [e|] eqn:Hf.
  { exfalso. apply Hne, Hiff. left. discriminate. }
  destruct (first_in_group X (records w))
    as [Hnone | (before & r & after & Hrec & Hb & Hr)].
  { exfalso. apply Hne, Hiff. right. exact Hnone. }
  rewrite (get_full_context_first self X w before r after Hf Hrec Hb Hr) in E.
  injection E as <-. unfold context_of. split.
  - rewrite lookup_insert_eq. eexists. reflexivity.
  - rewrite !lookup_insert_ne by discriminate. apply lookup_empty.
Qed.

(** X10: the count of [get_collection_stats] follows the writes.  On an
    available index, after [add_documents] the count is the count before
    plus the number of documents of the batch, and after
    [reset_collection] it is zero; asking for the statistics changes
    nothing. *)
Theorem stats_count_follows_writes self documents w :
  fault w = None ->
  exists w1 w2 stats stats0,
    add_documents self documents w = (w1, Ok tt)
    /\ get_collection_stats self w1 = (w1, Ok stats)
    /\ stats !! "total_documents"
       = Some (PInt (Z.of_nat (length (records w)) + Z.of_nat (length documents)))
    /\ reset_collection self w1 = (w2, Ok tt)
    /\ get_collection_stats self w2 = (w2, Ok stats0)
    /\ stats0 !! "total_documents" = Some (PInt 0).
Proof.
  intros Hf.
  destruct (add_documents_spec self documents w Hf)
    as (w1 & es & E & Hlen & Hr & Hf1 & _).
  destruct (reset_collection_empties self w1 Hf1) as (w2 & E2 & Hr2 & Hf2).
  assert (Hstats : forall w0, fault w0 = None ->
            get_collection_stats self w0
            = (w0, Ok (<["total_documents" := PInt (Z.of_nat (length (records w0)))]>
                      (<["collection_name" := PStr COLLECTION_NAME]>
                      (<["embedding_model" := PStr (embedding_model_name self)]> ∅))))).
  { intros w0 Hf0. unfold get_collection_stats, bind, collection_count.
    rewrite Hf0. reflexivity. }
  eexists w1, w2, _, _. split; [exact E|].
  split; [apply (Hstats w1 Hf1)|]. split.
  { rewrite lookup_insert_eq, Hr, length_app, length_zip_records;
      rewrite ?length_fmap, ?length_seq; auto.
    rewrite Nat2Z.inj_add. reflexivity. }
  split; [exact E2|]. split; [apply (Hstats w2 Hf2)|].
  rewrite lookup_insert_eq, Hr2. reflexivity.
Qed.

(** X11: the endpoint [GET /context/{document_id}] never answers with
    the [HTTPException] of its [except] block: [get_full_context] keeps
    every failure to itself, so an unknown document and an unavailable
    index are both answered with the body
    [{'error': 'Document not found'}]. *)
Theorem get_context_never_fails vector_store document_id w :
  exists w' body,
    get_context vector_store document_id w = (w', Ok (Respond body))
    /\ (fault w <> None
        \/ Forall (fun r => ~ in_group document_id (rec_metadata r)) (records w)
        -> body = NOT_FOUND).
Proof.
  destruct (get_full_context_cases vector_store document_id w)
    as (ctx & E & Hiff).
  exists (log CollectionGet w), ctx. split.
  - unfold get_context, try_except. rewrite (bind_ok _ _ _ _ _ E). reflexivity.
  - apply Hiff.
Qed.

Lemma search_unavailable self query top_k w e :
  fault w = Some e ->
  exists w',
    search self query top_k w = (w', Raise e)
    /\ records w' = records w /\ fault w' = Some e.
Proof.
  intros Hf. unfold search. rewrite bind_unfold, get_query_embedding_eq.
  rewrite bind_unfold. unfold collection_query, store_call.
  cbn [fault set_embedder log]. rewrite Hf.
  eexists. split; [reflexivity|]. split; [reflexivity | exact Hf].
Qed.

Lemma init_unavailable w e :
  fault w = Some e -> __init__ w = (log CollectionCreate w, Raise e).
Proof.
  intros Hf. unfold __init__. rewrite bind_unfold.
  unfold get_or_create_collection, store_call. rewrite Hf. reflexivity.
Qed.

(** X30: what an index that cannot be reached does to each method.
    While every call into the persistent store raises [e], a non-empty
    [add_documents] raises [e] after it has requested every embedding
    and asked for the one write, [search], [reset_collection] and
    [get_collection_stats] raise [e] as well ([reset_collection]
    swallows the failure of the delete, not that of the re-creation),
    and only [get_full_context] answers, with
    [{'error': 'Document not found'}]; no stored record is changed. *)
Theorem unreachable_index_raises self documents query top_k w e :
  fault w = Some e ->
  documents <> [] ->
  (exists w1,
      add_documents self documents w = (w1, Raise e)
      /\ records w1 = records w
      /\ trace w1
         = trace w ++ (embed_event <$> documents)
           ++ [CollectionAdd (length documents)])
  /\ (exists w2, search self query top_k w = (w2, Raise e)
                 /\ records w2 = records w)
  /\ (exists w3, reset_collection self w = (w3, Raise e)
                 /\ records w3 = records w
                 /\ trace w3 = trace w ++ [CollectionDelete; CollectionCreate])
  /\ get_collection_stats self w = (w, Raise e)
  /\ (exists w4, get_full_context self query w = (w4, Ok NOT_FOUND)
                 /\ records w4 = records w).
Proof.
  intros Hf Hne. split; [|split; [|split; [|split]]].
  - destruct documents as [|doc rest]; [contradiction|].
    unfold add_documents. rewrite bind_unfold.
    destruct (add_loop_spec self (doc :: rest)
                {| ids := []; embeddings := []; metadatas := [];
                   documents_text := [] |} w)
      as (w1 & b & E & Hi & _ & _ & _ & Hr & Hf1 & _ & Ht).
    rewrite E. unfold collection_add, store_call. rewrite Hf1, Hf.
    eexists. split; [reflexivity|]. cbn [records trace log].
    split; [exact Hr|]. rewrite Ht, <- app_assoc. do 3 f_equal.
    rewrite Hi. cbn [ids app]. rewrite length_fmap, length_seq. reflexivity.
  - destruct (search_unavailable self query top_k w e Hf) as (w2 & E & Hr & _).
    exists w2. split; assumption.
  - unfold reset_collection, try_except, delete_collection,
      get_or_create_collection.
    rewrite bind_unfold. unfold store_call at 1. rewrite Hf.
    unfold ret at 1. unfold store_call. cbn [fault log]. rewrite Hf.
    eexists. split; [reflexivity|]. cbn [records trace log].
    split; [reflexivity|]. rewrite <- app_assoc. reflexivity.
  - unfold get_collection_stats. rewrite bind_unfold.
    unfold collection_count. rewrite Hf. reflexivity.
  - destruct (get_full_context_cases self query w) as (ctx & E & Hiff).
    exists (log CollectionGet w). split; [|reflexivity].
    rewrite E. do 2 f_equal. apply Hiff. left. congruence.
Qed.

End Store.
End StoreMore.

(** ** Further facts about the retrieval tool *)
Module ToolsMore.
Import Py tools tools_spec tools_more PyFacts ToolsFacts.
Local Open Scope py_scope.

Section Retrieval.
Context `{Runtime} `{vector_store.Backend} `{Network}.

Lemma get_vector_store_cached w vs :
  _vector_store w = Some vs -> get_vector_store w = (w, Ok vs).
Proof.
  intros Hvs. unfold get_vector_store. rewrite (bind_unfold get). unfold get.
  rewrite Hvs. reflexivity.
Qed.

Lemma get_vector_store_cases w :
  match _vector_store w, vector_store.fault (index w) with
  | Some vs, _ => get_vector_store w = (w, Ok vs)
  | None, None =>
      get_vector_store w
      = ({| net := net w;
            _vector_store :=
              Some {| vector_store.embedding_model_name := "models/embedding-001" |};
            index := vector_store.log vector_store.CollectionCreate (index w) |},
         Ok {| vector_store.embedding_model_name := "models/embedding-001" |})
  | None, Some e =>
      get_vector_store w
      = ({| net := net w; _vector_store := None;
            index := vector_store.log vector_store.CollectionCreate (index w) |},
         Raise e)
  end.
Proof.
  destruct (_vector_store w) as [vs|] eqn:Hvs;
    [apply get_vector_store_cached, Hvs|].
  destruct (vector_store.fault (index w)) as [e|] eqn:Hf;
    unfold get_vector_store; rewrite (bind_unfold get); unfold get; rewrite Hvs;
    rewrite (bind_unfold (on_index _)); unfold on_index at 1.
  - rewrite (StoreMore.init_unavailable _ _ Hf), Hvs. reflexivity.
  - rewrite StoreFacts.init_available by exact Hf. reflexivity.
Qed.

(** X12: the store object is created once.  Whenever [get_vector_store]
    returns, the module global [_vector_store] holds the object it
    returned, a second call returns the same object and changes nothing,
    and no stored record was touched; when the constructor raises, the
    global stays [None], so that the next call tries again. *)
Theorem vector_store_is_created_once w :
  (forall w1 vs,
      get_vector_store w = (w1, Ok vs) ->
      _vector_store w1 = Some vs
      /\ get_vector_store w1 = (w1, Ok vs)
      /\ vector_store.records (index w1) = vector_store.records (index w)
      /\ (forall vs0, _vector_store w = Some vs0 -> vs = vs0 /\ w1 = w))
  /\ (forall w1 e,
        get_vector_store w = (w1, Raise e) ->
        _vector_store w = None /\ _vector_store w1 = None
        /\ vector_store.fault (index w) = Some e).
Proof.
  pose proof (get_vector_store_cases w) as Hc.
  destruct (_vector_store w) as [vs0|] eqn:Hvs;
    [|destruct (vector_store.fault (index w)) as [e0|] eqn:Hf].
  - split.
    + intros w1 vs E. rewrite Hc in E. injection E as <- <-.
      split; [exact Hvs|]. split; [exact Hc|]. split; [reflexivity|].
      intros vs1 E1. split; congruence.
    + intros w1 e E. rewrite Hc in E. discriminate.
  - split.
    + intros w1 vs E. rewrite Hc in E. discriminate.
    + intros w1 e E. rewrite Hc in E. injection E as <- <-.
      repeat split.
  - split.
    + intros w1 vs E. rewrite Hc in E. injection E as <- <-.
      split; [reflexivity|].
      split; [apply get_vector_store_cached; reflexivity|].
      split; [reflexivity|]. intros vs1 E1. discriminate.
    + intros w1 e E. rewrite Hc in E. discriminate.
Qed.

Lemma search_local_unavailable query w e :
  vector_store.fault (index w) = Some e ->
  exists w',
    _search_local_knowledge_base query w
    = (w', Ok ("Error searching local knowledge base: " +:+ exc_str e))
    /\ _vector_store w' = _vector_store w
    /\ vector_store.records (index w') = vector_store.records (index w).
Proof.
  intros Hf. pose proof (get_vector_store_cases w) as Hc.
  unfold _search_local_knowledge_base, try_except. rewrite bind_unfold.
  rewrite Hf in Hc. destruct (_vector_store w) as [vs|] eqn:Hvs; rewrite Hc.
  - rewrite bind_unfold. unfold on_index.
    destruct (StoreMore.search_unavailable vs query TOP_K (index w) e Hf)
      as (i & Es & Hr & _).
    rewrite Es. eexists. split; [reflexivity|]. split; [exact Hvs | exact Hr].
  - eexists. split; [reflexivity|]. split; reflexivity.
Qed.

(** X13: an index that cannot be reached is reported, not raised.  While
    every call into the persistent store raises [e], the local search
    returns ["Error searching local knowledge base: " + str(e)], whether
    or not the store object exists yet; so does [search_knowledge_base]
    after a recoverable failure of the remote search.  No record is
    touched and no store object is kept from the failed attempt. *)
Theorem unreachable_index_is_reported query w e :
  vector_store.fault (index w) = Some e ->
  (exists w',
      _search_local_knowledge_base query w
      = (w', Ok ("Error searching local knowledge base: " +:+ exc_str e))
      /\ _vector_store w' = _vector_store w
      /\ vector_store.records (index w') = vector_store.records (index w))
  /\ (forall n,
        remote_failed query w n ->
        snd (search_knowledge_base query w)
        = Ok ("Error searching local knowledge base: " +:+ exc_str e)).
Proof.
  intros Hf. split; [apply search_local_unavailable, Hf|].
  intros n Hfail.
  rewrite (search_falls_back _ _ _ Hfail), (net_frame_search_local query n w).
  destruct (search_local_unavailable query w e Hf) as (w' & E & _).
  rewrite E. reflexivity.
Qed.

Lemma format_block_dict d : exists b, format_block (PDict d) = Returns b.
Proof. unfold format_block, py_get. eexists. reflexivity. Qed.

Lemma format_blocks_dicts rs :
  exists parts, format_blocks (PDict <$> rs) = Returns parts.
Proof.
  induction rs as [|d rs (parts & IH)]; [exists []; reflexivity|].
  destruct (format_block_dict d) as (b & Eb).
  exists (b :: parts). cbn [fmap list_fmap format_blocks].
  rewrite Eb. change (list_fmap _ _ PDict rs) with (PDict <$> rs).
  rewrite IH. reflexivity.
Qed.

Lemma remote_body query w n data :
  remote_answers query w n data ->
  search_knowledge_base query w
  = try_except2
      (results <- lift (py_get data "results" (PList [])) ;;
       if negb (truthy results) then ret NO_INFO
       else
         items <- lift (py_iter results) ;;
         context_parts <- lift (format_blocks items) ;;
         ret (join SEPARATOR context_parts))
      is_request_exception
      (fun e => _search_local_knowledge_base query)
      (fun e => ret ("Error searching knowledge base: " +:+ exc_str e))
      (set_net n w).
Proof.
  intros (r & Hpost & Hstatus & Hjson).
  unfold search_knowledge_base, try_except2. rewrite bind_unfold.
  unfold post_search. unfold search_request in Hpost. rewrite Hpost.
  rewrite Hstatus. cbn [Z.eqb Pos.eqb negb].
  rewrite bind_unfold, Hjson. unfold lift at 1. reflexivity.
Qed.

(** X14: both search paths format alike.  When the remote search
    answers 200 with the list of results the local search would find,
    [search_knowledge_base] returns the very string the local search
    returns, and it does so without creating the store object or
    touching the index: only the network state moves. *)
Theorem remote_and_local_format_alike query w n d rs :
  remote_answers query w n (PDict d) ->
  d !! "results" = Some (PList (PDict <$> rs)) ->
  local_finds query w rs ->
  exists answer,
    search_knowledge_base query w = (set_net n w, Ok answer)
    /\ snd (_search_local_knowledge_base query w) = Ok answer.
Proof.
  intros Hremote Hres (vs & w1 & w2 & Hvs & Hsearch).
  rewrite (remote_body _ _ _ _ Hremote).
  unfold _search_local_knowledge_base, try_except, try_except2.
  rewrite (bind_ok _ _ _ _ _ Hvs), (bind_ok _ _ _ _ _ Hsearch).
  rewrite bind_unfold. unfold py_get, lift at 1. rewrite Hres.
  cbn [default from_option id].
  destruct rs as [|r rs]; [exists NO_INFO; split; reflexivity|].
  destruct (format_blocks_dicts (r :: rs)) as (parts & Ep).
  exists (join SEPARATOR parts).
  cbn [fmap list_fmap] in Ep |- *. cbn [truthy negb py_iter].
  rewrite !bind_unfold. unfold lift. rewrite Ep. split; reflexivity.
Qed.

Lemma format_blocks_first_bad pre v post :
  Forall (fun x => exists d, x = PDict d) pre ->
  (forall d, v <> PDict d) ->
  format_blocks (pre ++ v :: post)
  = Raises (Exc AttributeError
              ("'" +:+ type_name v +:+ "' object has no attribute 'get'")).
Proof.
  intros Hpre Hv. induction Hpre as [|x pre (d & ->) _ IH].
  - cbn [app format_blocks]. unfold format_block, py_get.
    destruct v; try reflexivity. exfalso. apply (Hv d). reflexivity.
  - cbn [app format_blocks]. destruct (format_block_dict d) as (b & ->).
    rewrite IH. reflexivity.
Qed.

(** X15: [search_knowledge_base] never raises, and what is wrong with a
    remote answer comes back as text.  Every call returns a string.  When
    the request raises an exception that is not a [RequestException], the
    string is ["Error searching knowledge base: " + str(e)]; when the
    answer has status 200 and its [results] hold something that is not a
    dict, it is that prefix followed by the interpreter's
    ['<type>' object has no attribute 'get'] for the first such item.
    In both cases the local index is not consulted. *)
Theorem search_knowledge_base_reports_errors query w :
  (exists w' answer, search_knowledge_base query w = (w', Ok answer))
  /\ (forall n e,
        requests_post (net w) API_URL (search_request query) 30 = (n, Raises e) ->
        exc_cls e <> RequestException ->
        search_knowledge_base query w
        = (set_net n w, Ok ("Error searching knowledge base: " +:+ exc_str e)))
  /\ (forall n d pre v post,
        remote_answers query w n (PDict d) ->
        d !! "results" = Some (PList (pre ++ v :: post)) ->
        Forall (fun x => exists d0, x = PDict d0) pre ->
        (forall d0, v <> PDict d0) ->
        search_knowledge_base query w
        = (set_net n w,
           Ok ("Error searching knowledge base: '" +:+ type_name v
               +:+ "' object has no attribute 'get'"))).
Proof.
  split; [|split].
  - unfold search_knowledge_base, try_except2.
    match goal with
    | |- context [match ?c with _ => _ end] =>
        assert (Hfin : snd c <> OutOfFuel); [|destruct c as [w1 [a|e|]]]
    end.
    + apply finishes_bind.
      * intros s. unfold post_search.
        destruct (requests_post _ _ _ _) as [n [r|e]]; discriminate.
      * intros r. destruct (negb _).
        -- intros s. destruct (search_local_returns query s) as (w' & a & ->).
           discriminate.
        -- apply finishes_bind; [apply finishes_lift|]. intros data.
           apply finishes_bind; [apply finishes_lift|]. intros results.
           destruct (negb _); [apply finishes_ret|].
           apply finishes_bind; [apply finishes_lift|]. intros items.
           apply finishes_bind; [apply finishes_lift|]. intros parts.
           apply finishes_ret.
    + exists w1, a. reflexivity.
    + destruct (is_request_exception e).
      * apply search_local_returns.
      * eexists _, _. reflexivity.
    + exfalso. apply Hfin. reflexivity.
  - intros n e Hpost Hcls.
    unfold search_knowledge_base, try_except2. rewrite bind_unfold.
    unfold post_search. unfold search_request in Hpost. rewrite Hpost.
    unfold is_request_exception. destruct (exc_cls e); try reflexivity.
    contradiction.
  - intros n d pre v post Hremote Hres Hpre Hv.
    rewrite (remote_body _ _ _ _ Hremote). unfold try_except2.
    rewrite bind_unfold. unfold py_get, lift at 1. rewrite Hres.
    cbn [default from_option id].
    assert (Ht : truthy (PList (pre ++ v :: post)) = true)
      by (destruct pre; reflexivity).
    rewrite Ht. cbn [negb py_iter]. rewrite !bind_unfold. unfold lift.
    rewrite (format_blocks_first_bad pre v post Hpre Hv).
    cbn [is_request_exception exc_cls exc_str].
    reflexivity.
Qed.

(** X29: a 200 answer whose body cannot be decoded.  When
    [response.json()] raises [e], the order of the [except] clauses
    decides: if [e] is a [RequestException] (the decoding error of
    [requests] is one), the tool falls back and returns what the local
    search returns on the same index; otherwise it returns
    ["Error searching knowledge base: " + str(e)] and the local index is
    not consulted. *)
Theorem undecodable_answer_falls_back_or_reports query w n r e :
  requests_post (net w) API_URL (search_request query) 30 = (n, Returns r) ->
  status_code r = 200%Z ->
  json r = Raises e ->
  (exc_cls e = RequestException ->
   snd (search_knowledge_base query w) = snd (_search_local_knowledge_base query w)
   /\ index (fst (search_knowledge_base query w))
      = index (fst (_search_local_knowledge_base query w)))
  /\ (exc_cls e <> RequestException ->
      search_knowledge_base query w
      = (set_net n w, Ok ("Error searching knowledge base: " +:+ exc_str e))).
Proof.
  intros Hpost Hstatus Hjson.
  assert (E : search_knowledge_base query w
              = if is_request_exception e
                then _search_local_knowledge_base query (set_net n w)
                else (set_net n w,
                      Ok ("Error searching knowledge base: " +:+ exc_str e))).
  { unfold search_knowledge_base, try_except2. rewrite bind_unfold.
    unfold post_search. unfold search_request in Hpost. rewrite Hpost.
    rewrite Hstatus. cbn [Z.eqb Pos.eqb negb].
    rewrite bind_unfold, Hjson. unfold lift at 1. reflexivity. }
  rewrite E. unfold is_request_exception. split.
  - intros ->. rewrite (net_frame_search_local query n w).
    split; reflexivity.
  - intros Hcls. destruct (exc_cls e); try reflexivity. contradiction.
Qed.

End Retrieval.
End ToolsMore.

(** ** Facts about the booking tools *)
Module BookingFacts.
Import Py booking booking_spec PyFacts.
Local Open Scope py_scope.

Lemma largest_ge ids x : x ∈ ids -> (x <= largest ids)%Z.
Proof.
  induction 1 as [x l | x y l _ IH]; cbn [largest foldr]; [lia|].
  unfold largest in IH. lia.
Qed.



Lemma next_rowid_fresh seq ids x : x ∈ ids -> (x < next_rowid seq ids)%Z.
Proof. intros Hx. apply largest_ge in Hx. unfold next_rowid. lia. Qed.

Lemma next_rowid_new seq ids : next_rowid seq ids ∉ ids.
Proof. intros Hin. apply (next_rowid_fresh seq) in Hin. lia. Qed.

Lemma find_none_email e l :
  List.find (fun c => String.eqb (email c) e) l = None -> e ∉ (email <$> l).
Proof.
  induction l as [|x l IH]; cbn [List.find fmap list_fmap].
  - intros _ Hin. inversion Hin.
  - destruct (String.eqb_spec (email x) e) as [Heq|Hne]; [discriminate|].
    intros Hn Hin. inversion Hin; subst; [congruence|]. apply (IH Hn). assumption.
Qed.

Lemma find_some_email e l c0 :
  List.find (fun c => String.eqb (email c) e) l = Some c0 -> c0 ∈ l /\ email c0 = e.
Proof.
  induction l as [|x l IH]; cbn [List.find]; [discriminate|].
  destruct (String.eqb_spec (email x) e) as [Heq|Hne].
  - intros [= ->]. split; [constructor | exact Heq].
  - intros Hf. destruct (IH Hf) as [Hin He].
    split; [constructor; exact Hin | exact He].
Qed.

(** What [create_booking] does while the database can be used. *)
Lemma create_booking_available n e p ty da ti w :
  db_fault w = None ->
  exists d' cid,
    create_booking n e p ty da ti w
    = (set_db d' w,
       Ok (created_reply (next_rowid (bookings_seq (db w)) (id <$> bookings (db w)))
             n ty da ti))
    /\ bookings d'
       = bookings (db w)
         ++ [{| id := next_rowid (bookings_seq (db w)) (id <$> bookings (db w));
                booking_customer_id := cid; booking_type := ty;
                date := da; time := ti; status := "confirmed";
                created_at := now w |}]
    /\ bookings_seq d' = next_rowid (bookings_seq (db w)) (id <$> bookings (db w))
    /\ ((exists c0,
           c0 ∈ customers (db w) /\ email c0 = e /\ cid = customer_id c0
           /\ customers d'
              = (fun c => if (customer_id c =? cid)%Z
                          then {| customer_id := customer_id c; name := n;
                                  email := email c; phone := p |}
                          else c) <$> customers (db w)
           /\ customers_seq d' = customers_seq (db w))
        \/ ((e ∉ (email <$> customers (db w)))
            /\ cid = next_rowid (customers_seq (db w))
                       (customer_id <$> customers (db w))
            /\ customers d'
               = customers (db w)
                 ++ [{| customer_id := cid; name := n; email := e; phone := p |}]
            /\ customers_seq d' = cid)).
Proof.
  intros Hf. destruct w as [d f nw env imf sf ob]. cbn [db_fault] in Hf. subst f.
  unfold create_booking, try_except, with_connection, bind, connect, execute,
    get, ret, select_customer_id, update_customer, insert_customer,
    insert_booking, set_db.
  cbn [db db_fault now environ import_fault send_fault outbox].
  destruct (List.find (fun c => String.eqb (email c) e) (customers d))
    as [c0|] eqn:Efind.
  - apply find_some_email in Efind as [Hin He].
    cbn [fmap option_fmap option_map db db_fault now environ import_fault
           send_fault outbox customers bookings customers_seq bookings_seq].
    eexists _, (customer_id c0). split; [reflexivity|].
    split; [reflexivity|]. split; [reflexivity|]. left. exists c0.
    repeat split; assumption.
  - pose proof (find_none_email _ _ Efind) as Hnot.
    cbn [fmap option_fmap option_map db db_fault now environ import_fault
           send_fault outbox customers bookings customers_seq bookings_seq].
    assert (Hex : existsb (fun c => String.eqb (email c) e) (customers d) = false).
    { clear -Efind. induction (customers d) as [|x l IH]; [reflexivity|].
      cbn [List.find existsb] in *. destruct (String.eqb (email x) e);
        [discriminate | apply IH, Efind]. }
    rewrite Hex.
    cbn [db db_fault now environ import_fault
           send_fault outbox customers bookings customers_seq bookings_seq].
    eexists _, _. split; [reflexivity|].
    split; [reflexivity|]. split; [reflexivity|]. right.
    repeat split; assumption.
Qed.

Lemma create_booking_unavailable n e p ty da ti w x :
  db_fault w = Some x ->
  create_booking n e p ty da ti w
  = (w, Ok ("‚ùå Error creating booking: " +:+ exc_str x)).
Proof.
  intros Hf. destruct w as [d f nw env imf sf ob]. cbn [db_fault] in Hf. subst f.
  reflexivity.
Qed.

(** What [get_booking_info] does, case by case. *)
Lemma get_booking_info_cases bid w :
  get_booking_info bid w
  = (w, Ok match db_fault w with
           | Some x => "Error retrieving booking: " +:+ exc_str x
           | None =>
               match lookup_booking bid (db w) with
               | Some (b, c) => booking_details b c
               | None => "No booking found with ID " +:+ pretty bid +:+ "."
               end
           end).
Proof.
  destruct w as [d [x|] nw env imf sf ob]; [reflexivity|].
  unfold get_booking_info, try_except, with_connection, bind, connect, execute,
    select_booking, lookup_booking, set_db, ret.
  cbn [db db_fault now environ import_fault send_fault outbox].
  destruct (head _) as [[b c]|]; reflexivity.
Qed.

(** What [send_confirmation_email] does, case by case. *)
Lemma send_confirmation_email_cases bid w :
  send_confirmation_email bid w
  = match import_fault w, db_fault w with
    | Some x, _ | None, Some x =>
        (w, Ok ("‚ùå Failed to send email: " +:+ exc_str x))
    | None, None =>
        match lookup_booking bid (db w) with
        | None =>
            (w, Ok ("‚ùå Booking with ID " +:+ pretty bid +:+ " not found."))
        | Some (b, c) =>
            match configured_key w with
            | None => (w, Ok NOT_CONFIGURED)
            | Some key =>
                match send_fault w with
                | Some x => (w, Ok ("‚ùå Failed to send email: " +:+ exc_str x))
                | None =>
                    ({| db := db w; db_fault := db_fault w; now := now w;
                        environ := environ w; import_fault := import_fault w;
                        send_fault := send_fault w;
                        outbox :=
                          outbox w ++ [(key, confirmation (sender_of w) b c)] |},
                     Ok ("‚úÖ Confirmation email sent to " +:+ email c +:+ "!"))
                end
            end
        end
    end.
Proof.
  destruct w as [d [x|] nw env [y|] sf ob]; try reflexivity.
  unfold send_confirmation_email, try_except, with_connection, bind, connect,
    execute, import_sendgrid, select_booking, lookup_booking, configured_key,
    sender_of, sendgrid_send, get, set_db, ret.
  cbn [db db_fault now environ import_fault send_fault outbox].
  destruct (head _) as [[b c]|]; [|reflexivity].
  cbn [db db_fault now environ import_fault send_fault outbox].
  destruct (env !! "SENDGRID_API_KEY") as [[|k key]|]; try reflexivity.
  cbn [db db_fault now environ import_fault send_fault outbox].
  destruct sf as [z|]; reflexivity.
Qed.








Lemma fmap_updated {A} (g : Customer -> A) (f : Customer -> Customer)
    (l : list Customer) :
  (forall c, g (f c) = g c) -> g <$> (f <$> l) = g <$> l.
Proof.
  intros Hg. rewrite <- list_fmap_compose. apply list_fmap_ext.
  intros i c _. apply Hg.
Qed.

Lemma NoDup_snoc {A} (l : list A) x : NoDup l -> x ∉ l -> NoDup (l ++ [x]).
Proof.
  intros Hl Hx. apply NoDup_app. split; [exact Hl|]. split.
  - intros y Hy Hin. apply list_elem_of_singleton in Hin. subst. contradiction.
  - apply NoDup_singleton.
Qed.

(** X17: [create_booking] keeps the schema of main.py.  If, before the
    call, [customer_id] and [id] are keys of their tables, no two
    customers share an email, and every booking is the booking of a
    stored customer, the same holds after the call, whether it succeeds
    or fails. *)
Theorem create_booking_keeps_schema n e p ty da ti w :
  keys_hold (db w) -> emails_unique (db w) -> references_hold (db w) ->
  keys_hold (db (fst (create_booking n e p ty da ti w)))
  /\ emails_unique (db (fst (create_booking n e p ty da ti w)))
  /\ references_hold (db (fst (create_booking n e p ty da ti w))).
Proof.
  intros [Hkc Hkb] Hem Href.
  destruct (db_fault w) as [x|] eqn:Hf.
  { rewrite (create_booking_unavailable _ _ _ _ _ _ _ _ Hf).
    repeat split; assumption. }
  destruct (create_booking_available n e p ty da ti w Hf)
    as (d' & cid & E & Hb & _ & Hc).
  rewrite E. cbn [fst db set_db].
  assert (Hkb' : NoDup (id <$> bookings d')).
  { rewrite Hb, fmap_app. apply NoDup_snoc; [exact Hkb|]. apply next_rowid_new. }
  unfold keys_hold, emails_unique, references_hold.
  destruct Hc as [(c0 & Hin & He & Hcid & Hcs & _) | (Hnew & Hcid & Hcs & _)];
    rewrite Hcs.
  - rewrite !fmap_updated by (intros c; destruct (_ =? _)%Z; reflexivity).
    split; [split; assumption|]. split; [assumption|].
    intros b Hbin. rewrite Hb in Hbin. apply elem_of_app in Hbin as [Hold|Hnewb].
    + destruct (Href b Hold) as (c & Hcin & Hcb).
      eexists. split; [apply list_elem_of_fmap; exists c; split; [reflexivity|exact Hcin]|].
      destruct (_ =? _)%Z; exact Hcb.
    + apply list_elem_of_singleton in Hnewb. subst b. cbn [booking_customer_id].
      eexists. split; [apply list_elem_of_fmap; exists c0; split; [reflexivity|exact Hin]|].
      destruct (_ =? _)%Z; symmetry; exact Hcid.
  - rewrite !fmap_app. cbn [fmap list_fmap customer_id email].
    split; [split; [|assumption]|].
    { apply NoDup_snoc; [exact Hkc|]. rewrite Hcid. apply next_rowid_new. }
    split; [apply NoDup_snoc; assumption|].
    intros b Hbin. rewrite Hb in Hbin. apply elem_of_app in Hbin as [Hold|Hnewb].
    + destruct (Href b Hold) as (c & Hcin & Hcb).
      exists c. split; [apply elem_of_app; left; exact Hcin | exact Hcb].
    + apply list_elem_of_singleton in Hnewb. subst b. cbn [booking_customer_id].
      eexists. split; [apply elem_of_app; right; apply list_elem_of_singleton; reflexivity|].
      reflexivity.
Qed.


(** X19: a database that cannot be used is reported, not raised.  While
    [sqlite3] raises [x], each of the three tools returns its own error
    text ending in [str(x)] and changes nothing: no row is written and
    no mail is sent. *)
Theorem unusable_database_is_reported n e p ty da ti bid w x :
  db_fault w = Some x ->
  create_booking n e p ty da ti w
  = (w, Ok ("‚ùå Error creating booking: " +:+ exc_str x))
  /\ get_booking_info bid w
     = (w, Ok ("Error retrieving booking: " +:+ exc_str x))
  /\ (import_fault w = None ->
      send_confirmation_email bid w
      = (w, Ok ("‚ùå Failed to send email: " +:+ exc_str x))).
Proof.
  intros Hf. split; [apply create_booking_unavailable, Hf|]. split.
  - rewrite get_booking_info_cases, Hf. reflexivity.
  - intros Hi. rewrite send_confirmation_email_cases, Hi, Hf. reflexivity.
Qed.



(** X21: [send_confirmation_email] sends at most one mail, and only a
    justified one.  The call never raises and never writes to the
    database.  Either nothing is sent, or exactly one mail is: then the
    booking exists, the API key is set and not empty, the mail goes to
    the email of the booking's customer from the configured sender under
    that key, and the answer names that email.  An answer that reports
    success is given only when the mail was accepted. *)
Theorem confirmation_is_sent_once_and_justified bid w :
  exists w' answer,
    send_confirmation_email bid w = (w', Ok answer)
    /\ db w' = db w
    /\ (outbox w' = outbox w
        /\ (forall to, answer <> "‚úÖ Confirmation email sent to " +:+ to +:+ "!")
        \/ exists b c key,
             lookup_booking bid (db w) = Some (b, c)
             /\ environ w !! "SENDGRID_API_KEY" = Some key
             /\ key <> EmptyString
             /\ outbox w' = outbox w ++ [(key, confirmation (sender_of w) b c)]
             /\ to_emails (confirmation (sender_of w) b c) = email c
             /\ answer = "‚úÖ Confirmation email sent to " +:+ email c +:+ "!").
Proof.
  rewrite send_confirmation_email_cases.
  assert (Hfail : forall x to,
            "‚ùå Failed to send email: " +:+ exc_str x
            <> "‚úÖ Confirmation email sent to " +:+ to +:+ "!") by (intros x to; discriminate).
  destruct (import_fault w) as [x|];
    [eexists _, _; split; [reflexivity|]; split; [reflexivity|]; left;
     split; [reflexivity | apply Hfail]|].
  destruct (db_fault w) as [x|];
    [eexists _, _; split; [reflexivity|]; split; [reflexivity|]; left;
     split; [reflexivity | apply Hfail]|].
  destruct (lookup_booking bid (db w)) as [[b c]|] eqn:Hl;
    [|eexists _, _; split; [reflexivity|]; split; [reflexivity|]; left;
      split; [reflexivity | intros to; discriminate]].
  destruct (configured_key w) as [key|] eqn:Hk;
    [|eexists _, _; split; [reflexivity|]; split; [reflexivity|]; left;
      split; [reflexivity | intros to; discriminate]].
  destruct (send_fault w) as [x|];
    [eexists _, _; split; [reflexivity|]; split; [reflexivity|]; left;
     split; [reflexivity | apply Hfail]|].
  eexists _, _. split; [reflexivity|]. split; [reflexivity|]. right.
  exists b, c, key. unfold configured_key in Hk.
  destruct (environ w !! "SENDGRID_API_KEY") as [[|k0 key0]|]; try discriminate.
  injection Hk as <-. cbn [outbox]. repeat split. discriminate.
Qed.


End BookingFacts.

(** ** The further facts on concrete inputs *)
Module AgentMoreRuns.
Import Py agent agent_spec agent_more Scenario Scenario_more.

(** Two exchanges under [max_history = 1]: the second one is what is
    left. *)
Lemma history_keeps_whole_exchanges_witness :
  let st := @fresh chatty demo_tools 1 0%nat in
  exists st',
    @successful_calls chatty demo_tools st [("a", "one"); ("b", "two")] st'
    /\ @history chatty demo_tools st' = [user_entry "b"; assistant_entry "two"].
Proof.
  set (st := @fresh chatty demo_tools 1 0%nat).
  set (st1 := fst (@chat_body chatty demo_tools 1 "a" st)).
  set (st2 := fst (@chat_body chatty demo_tools 1 "b" st1)).
  assert (Hcalls : @successful_calls chatty demo_tools st
                     [("a", "one"); ("b", "two")] st2).
  { refine (@next_call chatty demo_tools st [("a", "one")] st1 1%nat "b" "two" st2 _ _);
      [|vm_compute; reflexivity].
    refine (@next_call chatty demo_tools st [] st 1%nat "a" "one" st1 _ _);
      [apply no_call | vm_compute; reflexivity]. }
  exists st2. split; [exact Hcalls|].
  exact (@AgentMore.history_keeps_whole_exchanges chatty demo_tools st _ st2
           Hcalls eq_refl eq_refl).
Defined.

(** The model's answer is blocked: the bound is kept and the session
    stays. *)
Lemma chat_keeps_bound_and_session_witness :
  let st := @fresh refusing demo_tools 20 0%nat in
  let st' := fst (@chat refusing demo_tools 3 "hi" st) in
  @chat refusing demo_tools 3 "hi" st = (st', Ok (chat_handler blocked))
  /\ @limit refusing demo_tools st' = 20%Z
  /\ @has_session refusing demo_tools st'.
Proof.
  split; [vm_compute; reflexivity|].
  apply (@AgentMore.chat_keeps_bound_and_session refusing demo_tools 3 "hi"
           (@fresh refusing demo_tools 20 0%nat) _ (chat_handler blocked)).
  vm_compute. reflexivity.
Defined.


(** After one exchange the history is cleared; the next exchange is
    alone in the history, and the model starts its script again. *)
Lemma clear_history_starts_over_witness :
  let st := fst (@chat_body chatty demo_tools 1 "a"
                   (@fresh chatty demo_tools 20 0%nat)) in
  let st' := fst (@chat_body chatty demo_tools 1 "b"
                    (@cleared chatty demo_tools st)) in
  @history chatty demo_tools st = [user_entry "a"; assistant_entry "one"]
  /\ @get_history_length chatty demo_tools (@cleared chatty demo_tools st) = 0%Z
  /\ @history chatty demo_tools st' = [user_entry "b"; assistant_entry "one"].
Proof.
  split; [vm_compute; reflexivity|].
  destruct (@AgentMore.clear_history_starts_over chatty demo_tools 1 "b"
              (fst (@chat_body chatty demo_tools 1 "a"
                      (@fresh chatty demo_tools 20 0%nat)))
              (fst (@chat_body chatty demo_tools 1 "b"
                      (@cleared chatty demo_tools
                         (fst (@chat_body chatty demo_tools 1 "a"
                                 (@fresh chatty demo_tools 20 0%nat))))))
              "one") as (Hlen & _ & Hhist);
    [reflexivity | vm_compute; reflexivity |].
  split; [exact Hlen | exact Hhist].
Defined.

(** A blocked answer mentions [finish_reason]: the reply asks to
    rephrase. *)
Lemma rephrase_reply_iff_finish_reason_witness :
  let st := @fresh refusing demo_tools 20 0%nat in
  occurs_in "finish_reason" (exc_str blocked)
  /\ snd (@chat refusing demo_tools 3 "hi" st) = Ok REPHRASE_REPLY.
Proof.
  assert (Hocc : occurs_in "finish_reason" (exc_str blocked))
    by (exists EmptyString, ": SAFETY"; reflexivity).
  split; [exact Hocc|].
  destruct (@AgentMore.rephrase_reply_iff_finish_reason refusing demo_tools 3 "hi"
              (@fresh refusing demo_tools 20 0%nat)
              (fst (@chat_body refusing demo_tools 3 "hi"
                      (@fresh refusing demo_tools 20 0%nat)))
              blocked) as [Hiff _]; [vm_compute; reflexivity|].
  apply Hiff, Hocc.
Defined.

End AgentMoreRuns.

Module StoreMoreRuns.
Import Py vector_store store_spec store_more vector_store_stats Scenario Scenario_more.


(** Both chunks of the guide are found once they are stored. *)
Lemma stored_documents_are_found_witness :
  exists w1 w2 results,
    @add_documents demo_backend demo_store [chunk_with_full; chunk_without_full]
      empty_index = (w1, Ok tt)
    /\ @search demo_backend demo_store "full text" 5 w1 = (w2, Ok results)
    /\ contents results ≡ₚ [Some (PStr "page two"); Some (PStr "page one")].
Proof.
  exact (@StoreMore.stored_documents_are_found demo_backend demo_store
           [chunk_with_full; chunk_without_full] "full text" 5 empty_index
           eq_refl ltac:(vm_compute; discriminate)).
Defined.

(** The count after the two chunks were stored, and after a reset. *)
Lemma stats_count_follows_writes_witness :
  exists w1 w2 stats stats0,
    @add_documents demo_backend demo_store [chunk_with_full; chunk_without_full]
      empty_index = (w1, Ok tt)
    /\ @get_collection_stats demo_backend demo_config demo_store w1 = (w1, Ok stats)
    /\ stats !! "total_documents" = Some (PInt 2)
    /\ @reset_collection demo_backend demo_store w1 = (w2, Ok tt)
    /\ @get_collection_stats demo_backend demo_config demo_store w2 = (w2, Ok stats0)
    /\ stats0 !! "total_documents" = Some (PInt 0).
Proof.
  exact (@StoreMore.stats_count_follows_writes demo_backend demo_config demo_store
           [chunk_with_full; chunk_without_full] empty_index eq_refl).
Defined.

End StoreMoreRuns.

Module ToolsMoreRuns.
Import Py tools tools_spec tools_more Scenario Scenario_more.

(** The endpoint times out and the index cannot be reached. *)
Lemma unreachable_index_is_reported_witness :
  let w := @tools_world timing_out tt broken_index in
  @vector_store.fault demo_backend (@index demo_backend timing_out w)
  = Some (Exc RuntimeError "disk I/O error")
  /\ snd (@_search_local_knowledge_base demo_runtime demo_backend timing_out
            "opening hours" w)
     = Ok "Error searching local knowledge base: disk I/O error"
  /\ snd (@search_knowledge_base demo_runtime demo_backend timing_out
            "opening hours" w)
     = Ok "Error searching local knowledge base: disk I/O error".
Proof.
  split; [reflexivity|].
  destruct (@ToolsMore.unreachable_index_is_reported demo_runtime demo_backend
              timing_out "opening hours" (@tools_world timing_out tt broken_index)
              (Exc RuntimeError "disk I/O error") eq_refl)
    as [(w' & E & _) Hremote].
  split; [rewrite E; reflexivity|].
  apply (Hremote tt).
  apply (@network_error demo_backend timing_out "opening hours" _ tt
           (Exc RequestException "Read timed out. (read timeout=30)"));
    reflexivity.
Defined.

(** The endpoint answers what the local search over the guide finds. *)
Lemma remote_and_local_format_alike_witness :
  let w := @tools_world mirroring tt guide_index in
  exists answer,
    @search_knowledge_base demo_runtime demo_backend mirroring "full text" w
    = (@set_net demo_backend mirroring tt w, Ok answer)
    /\ snd (@_search_local_knowledge_base demo_runtime demo_backend mirroring
              "full text" w) = Ok answer.
Proof.
  apply (@ToolsMore.remote_and_local_format_alike demo_runtime demo_backend
           mirroring "full text" (@tools_world mirroring tt guide_index) tt
           {[ "results" := PList (PDict <$> guide_results) ]} guide_results).
  - eexists. split; [reflexivity|]. split; reflexivity.
  - vm_compute. reflexivity.
  - eexists _, _, _. split; vm_compute; reflexivity.
Defined.

End ToolsMoreRuns.

Module BookingRuns.
Import Py booking booking_spec Scenario_more.



Lemma office_schema :
  keys_hold (db office) /\ emails_unique (db office) /\ references_hold (db office).
Proof.
  split; [split; apply NoDup_singleton|]. split; [apply NoDup_singleton|].
  intros b Hb. apply list_elem_of_singleton in Hb. subst b.
  exists ada. split; [constructor | reflexivity].
Qed.

(** The schema holds in the office and after a booking there. *)
Lemma create_booking_keeps_schema_witness :
  let w1 := fst (create_booking "Grace" "grace@example.org" "555-0101" "Movie"
                   "2025-06-02" "20:00" office) in
  keys_hold (db w1) /\ emails_unique (db w1) /\ references_hold (db w1).
Proof.
  exact (BookingFacts.create_booking_keeps_schema "Grace" "grace@example.org"
           "555-0101" "Movie" "2025-06-02" "20:00" office
           (proj1 office_schema) (proj1 (proj2 office_schema))
           (proj2 (proj2 office_schema))).
Defined.


(** The database file is locked. *)
Lemma unusable_database_is_reported_witness :
  create_booking "Grace" "grace@example.org" "555-0101" "Movie" "2025-06-02"
    "20:00" locked_office
  = (locked_office, Ok ("‚ùå Error creating booking: " +:+ "database is locked"))
  /\ get_booking_info 1 locked_office
     = (locked_office, Ok "Error retrieving booking: database is locked")
  /\ send_confirmation_email 1 locked_office
     = (locked_office, Ok ("‚ùå Failed to send email: " +:+ "database is locked")).
Proof.
  destruct (BookingFacts.unusable_database_is_reported "Grace" "grace@example.org"
              "555-0101" "Movie" "2025-06-02" "20:00" 1 locked_office locked
              eq_refl) as (Hc & Hg & Hs).
  split; [exact Hc|]. split; [exact Hg|]. exact (Hs eq_refl).
Defined.


End BookingRuns.

(** ** Facts about the booking endpoints of main.py *)
Module MainApiFacts.
Import Py booking booking_spec vector_store_stats PyFacts BookingFacts.
Local Open Scope py_scope.




(** What [POST /booking/send-email] does, case by case. *)
Lemma send_booking_email_cases request w :
  main_api.send_booking_email request w
  = match db_fault w with
    | Some x =>
        (w, Ok (HTTPException 500 ("Failed to send email: " +:+ exc_str x)))
    | None =>
        match lookup_booking (main_api.email_booking_id request) (db w) with
        | None => (w, Ok (HTTPException 404 "Booking not found"))
        | Some (b, c) =>
            match configured_key w with
            | None =>
                (w, Ok (HTTPException 500
                          "SENDGRID_API_KEY not configured in .env file"))
            | Some key =>
                match send_fault w with
                | Some x =>
                    (w, Ok (HTTPException 500
                              ("Failed to send email: " +:+ exc_str x)))
                | None =>
                    ({| db := db w; db_fault := db_fault w; now := now w;
                        environ := environ w; import_fault := import_fault w;
                        send_fault := send_fault w;
                        outbox :=
                          outbox w
                          ++ [(key, main_api.booking_mail (sender_of w)
                                      (main_api.recipient request c) b c)] |},
                     Ok (Respond
                           {| main_api.success := true;
                              main_api.email_message :=
                                "Email sent successfully to "
                                +:+ main_api.recipient request c;
                              main_api.email_response_booking_id := id b |}))
                end
            end
        end
    end.
Proof.
  destruct w as [d [x|] nw env imf sf ob]; [reflexivity|].
  unfold main_api.send_booking_email, try_except, with_connection, bind, connect,
    execute, select_booking, lookup_booking, configured_key,
    sender_of, sendgrid_send, get, set_db, ret.
  cbn [db db_fault now environ import_fault send_fault outbox].
  destruct (head _) as [[b c]|]; [|reflexivity].
  cbn [db db_fault now environ import_fault send_fault outbox].
  destruct (env !! "SENDGRID_API_KEY") as [[|k key]|]; try reflexivity.
  cbn [db db_fault now environ import_fault send_fault outbox].
  destruct sf as [z|]; reflexivity.
Qed.


(** The envelope of a mail: the key it was sent under, sender, recipient
    and subject. *)
Lemma envelope_eq sender b c to :
  to = email c ->
  (from_email (main_api.booking_mail sender to b c),
   to_emails (main_api.booking_mail sender to b c),
   subject (main_api.booking_mail sender to b c))
  = (from_email (confirmation sender b c),
     to_emails (confirmation sender b c),
     subject (confirmation sender b c)).
Proof. intros ->. reflexivity. Qed.

(** X26: the endpoint and the tool mail the same people.  For a request
    without a recipient of its own, and [sendgrid] being importable,
    [POST /booking/send-email] and the tool [send_confirmation_email]
    leave the same database and outboxes with the same envelopes (API
    key, sender, recipient, subject), and the endpoint answers with a
    body exactly when the tool reports that the mail was sent. *)
Theorem endpoint_and_tool_mail_alike request w :
  import_fault w = None ->
  (main_api.recipient_email request = None
   \/ main_api.recipient_email request = Some EmptyString) ->
  db (fst (main_api.send_booking_email request w))
  = db (fst (send_confirmation_email (main_api.email_booking_id request) w))
  /\ (fun km => (km.1, from_email km.2, to_emails km.2, subject km.2))
       <$> outbox (fst (main_api.send_booking_email request w))
     = (fun km => (km.1, from_email km.2, to_emails km.2, subject km.2))
         <$> outbox (fst (send_confirmation_email
                            (main_api.email_booking_id request) w))
  /\ ((exists r, snd (main_api.send_booking_email request w) = Ok (Respond r))
      <-> exists to,
            snd (send_confirmation_email (main_api.email_booking_id request) w)
            = Ok ("‚úÖ Confirmation email sent to " +:+ to +:+ "!")).
Proof.
  intros Hi Hr.
  rewrite send_booking_email_cases, send_confirmation_email_cases, Hi.
  destruct (db_fault w) as [x|];
    [split; [reflexivity|]; split; [reflexivity|];
     split; intros [y E]; discriminate|].
  destruct (lookup_booking _ (db w)) as [[b c]|];
    [|split; [reflexivity|]; split; [reflexivity|];
      split; intros [y E]; discriminate].
  destruct (configured_key w) as [key|];
    [|split; [reflexivity|]; split; [reflexivity|];
      split; intros [y E]; discriminate].
  destruct (send_fault w) as [x|];
    [split; [reflexivity|]; split; [reflexivity|];
     split; intros [y E]; discriminate|].
  cbn [fst snd db outbox]. split; [reflexivity|]. split.
  - rewrite !fmap_app. f_equal. cbn [fmap list_fmap fst snd]. f_equal.
    assert (Hto : main_api.recipient request c = email c)
      by (unfold main_api.recipient; destruct Hr as [-> | ->]; reflexivity).
    rewrite Hto. reflexivity.
  - split; intros _; eexists; reflexivity.
Qed.

End MainApiFacts.

(** ** Facts about the movie search tool *)
Module MoviesFacts.
Import Py movies PyFacts.
Local Open Scope py_scope.

Section Movies.
Context `{Runtime} `{Tavily}.

(** The tool once the key is known and the client exists. *)
Lemma web_search_movies_configured query w k key client :
  import_fault w = None ->
  environ w !! "TAVILY_API_KEY" = Some (String k key) ->
  TavilyClient (String k key) = Returns client ->
  web_search_movies query w
  = try_except
      (response <- search client
                     (query +:+ " movies currently running in theaters 2026")
                     "advanced" 5 ;;
       found <- lift (py_get response "results" PNone) ;;
       if negb (truthy found) then ret NO_MOVIES
       else
         results <- lift (py_getitem response "results") ;;
         items <- lift (py_iter results) ;;
         lift (movie_loop items 1 HEADER))
      (fun e => ret (ERROR_PREFIX +:+ exc_str e)) w.
Proof.
  intros Hi Hk Hc. unfold web_search_movies, try_except.
  rewrite bind_unfold. unfold import_tavily at 1. rewrite Hi.
  rewrite (bind_unfold get). unfold get at 1. rewrite Hk.
  rewrite (bind_unfold (lift _)). unfold lift at 1. rewrite Hc. reflexivity.
Qed.

Lemma web_search_movies_answer query w k key client t d :
  import_fault w = None ->
  environ w !! "TAVILY_API_KEY" = Some (String k key) ->
  TavilyClient (String k key) = Returns client ->
  client_search (tavily w) client
    (query +:+ " movies currently running in theaters 2026") "advanced" 5
  = (t, Returns (PDict d)) ->
  snd (web_search_movies query w)
  = match d !! "results" with
    | None => Ok NO_MOVIES
    | Some found =>
        if truthy found
        then match py_iter found with
             | Raises e => Ok (ERROR_PREFIX +:+ exc_str e)
             | Returns items =>
                 match movie_loop items 1 HEADER with
                 | Raises e => Ok (ERROR_PREFIX +:+ exc_str e)
                 | Returns text => Ok text
                 end
             end
        else Ok NO_MOVIES
    end.
Proof.
  intros Hi Hk Hc Hs.
  rewrite (web_search_movies_configured query w k key client Hi Hk Hc).
  unfold try_except. rewrite bind_unfold. unfold search at 1. rewrite Hs.
  rewrite bind_unfold. unfold py_get, lift at 1.
  destruct (d !! "results") as [found|] eqn:Hd; cbn [default from_option];
    [|reflexivity].
  change (id found) with found.
  destruct (truthy found); cbn [negb]; [|reflexivity].
  rewrite bind_unfold. unfold py_getitem, lift at 1. rewrite Hd.
  rewrite bind_unfold. unfold lift at 1.
  destruct (py_iter found) as [items|e]; [|reflexivity].
  unfold lift. destruct (movie_loop items 1 HEADER); reflexivity.
Qed.

(** X27: [web_search_movies] never raises, and asks nothing without a
    key.  Every call returns a string.  With [tavily] importable and
    [TAVILY_API_KEY] unset or empty, it returns the fixed
    not-configured message and the search service is not called; a
    failing import, and an exception of the search call, come back as
    the error text that ends in [str(e)]; an answer whose [results] are
    missing, [null] or empty gives the fixed no-information message. *)
Theorem web_search_movies_reports_errors query w :
  (exists w' answer, web_search_movies query w = (w', Ok answer))
  /\ (import_fault w = None ->
      environ w !! "TAVILY_API_KEY" = None
      \/ environ w !! "TAVILY_API_KEY" = Some EmptyString ->
      web_search_movies query w = (w, Ok NOT_CONFIGURED))
  /\ (forall x, import_fault w = Some x ->
        web_search_movies query w = (w, Ok (ERROR_PREFIX +:+ exc_str x)))
  /\ (forall k key client t x,
        import_fault w = None ->
        environ w !! "TAVILY_API_KEY" = Some (String k key) ->
        TavilyClient (String k key) = Returns client ->
        client_search (tavily w) client
          (query +:+ " movies currently running in theaters 2026") "advanced" 5
        = (t, Raises x) ->
        snd (web_search_movies query w) = Ok (ERROR_PREFIX +:+ exc_str x))
  /\ (forall k key client t d,
        import_fault w = None ->
        environ w !! "TAVILY_API_KEY" = Some (String k key) ->
        TavilyClient (String k key) = Returns client ->
        client_search (tavily w) client
          (query +:+ " movies currently running in theaters 2026") "advanced" 5
        = (t, Returns (PDict d)) ->
        d !! "results" = None \/ d !! "results" = Some PNone
        \/ d !! "results" = Some (PList []) ->
        snd (web_search_movies query w) = Ok NO_MOVIES).
Proof.
  split; [|split; [|split; [|split]]].
  - unfold web_search_movies, try_except.
    match goal with
    | |- context [match ?c with _ => _ end] =>
        assert (Hfin : snd c <> OutOfFuel); [|destruct c as [w1 [a|e|]]]
    end.
    + apply finishes_bind.
      * intros s. unfold import_tavily. destruct (import_fault s); discriminate.
      * intros _. apply finishes_bind; [intros s; discriminate|]. intros w0.
        destruct (environ w0 !! "TAVILY_API_KEY") as [[|k key]|];
          try apply finishes_ret.
        apply finishes_bind; [apply finishes_lift|]. intros client.
        apply finishes_bind.
        { intros s. unfold search.
          destruct (client_search _ _ _ _ _) as [t [r|e]]; discriminate. }
        intros response. apply finishes_bind; [apply finishes_lift|].
        intros found. destruct (negb _); [apply finishes_ret|].
        apply finishes_bind; [apply finishes_lift|]. intros results.
        apply finishes_bind; [apply finishes_lift|]. intros items.
        apply finishes_lift.
    + eexists _, _. reflexivity.
    + eexists _, _. reflexivity.
    + exfalso. apply Hfin. reflexivity.
  - intros Hi Hk. unfold web_search_movies, try_except.
    rewrite bind_unfold. unfold import_tavily at 1. rewrite Hi.
    rewrite (bind_unfold get). unfold get at 1.
    destruct Hk as [-> | ->]; reflexivity.
  - intros x Hi. unfold web_search_movies, try_except.
    rewrite bind_unfold. unfold import_tavily at 1. rewrite Hi. reflexivity.
  - intros k key client t x Hi Hk Hc Hs.
    rewrite (web_search_movies_configured query w k key client Hi Hk Hc).
    unfold try_except. rewrite bind_unfold. unfold search at 1. rewrite Hs.
    reflexivity.
  - intros k key client t d Hi Hk Hc Hs Hd.
    rewrite (web_search_movies_answer query w k key client t d Hi Hk Hc Hs).
    destruct Hd as [-> | [-> | ->]]; reflexivity.
Qed.

Lemma append_empty_r s : s +:+ EmptyString = s.
Proof.
  induction s as [|a s IH]; [reflexivity|].
  change (String a (s +:+ EmptyString) = String a s). rewrite IH. reflexivity.
Qed.

Lemma append_assoc a b c : (a +:+ b) +:+ c = a +:+ (b +:+ c).
Proof.
  induction a as [|x a IH]; [reflexivity|].
  change (String x ((a +:+ b) +:+ c) = String x (a +:+ (b +:+ c))).
  rewrite IH. reflexivity.
Qed.

Lemma concat_cons b bs :
  String.concat EmptyString (b :: bs) = b +:+ String.concat EmptyString bs.
Proof.
  destruct bs as [|b2 bs]; [|reflexivity].
  change (b = b +:+ EmptyString). rewrite append_empty_r. reflexivity.
Qed.

Lemma imap_shift (i : Z) (items : list PyVal) :
  imap ((fun k item => ((i + Z.of_nat k)%Z, item)) ∘ S) items
  = imap (fun k item => ((i + 1 + Z.of_nat k)%Z, item)) items.
Proof. apply imap_ext. intros k x _. cbn. f_equal. lia. Qed.

Lemma movie_loop_blocks items : forall i acc blocks,
  Forall2 (fun ki b => movie_block ki.1 ki.2 = Returns b)
    (imap (fun k item => (i + Z.of_nat k, item)%Z) items) blocks ->
  movie_loop items i acc = Returns (acc +:+ String.concat EmptyString blocks).
Proof.
  induction items as [|item items IH]; intros i acc blocks Hb.
  - cbn [imap] in Hb. inversion Hb. subst. cbn [movie_loop String.concat].
    rewrite append_empty_r. reflexivity.
  - cbn [imap] in Hb. inversion Hb as [|ki b l bs Hhd Htl]; subst.
    cbn [fst snd] in Hhd. rewrite Z.add_0_r in Hhd.
    cbn [movie_loop]. rewrite Hhd. rewrite imap_shift in Htl.
    rewrite (IH (i + 1)%Z (acc +:+ b) bs Htl), concat_cons, append_assoc.
    reflexivity.
Qed.

Lemma movie_loop_first_bad pre bad post e : forall i acc blocks,
  Forall2 (fun ki b => movie_block ki.1 ki.2 = Returns b)
    (imap (fun k item => (i + Z.of_nat k, item)%Z) pre) blocks ->
  movie_block (i + Z.of_nat (length pre)) bad = Raises e ->
  movie_loop (pre ++ bad :: post) i acc = Raises e.
Proof.
  induction pre as [|item pre IH]; intros i acc blocks Hb Hbad.
  - cbn [app movie_loop length] in *. rewrite Z.add_0_r in Hbad.
    rewrite Hbad. reflexivity.
  - cbn [imap] in Hb. inversion Hb as [|ki b l bs Hhd Htl]; subst.
    cbn [fst snd] in Hhd. rewrite Z.add_0_r in Hhd.
    cbn [app movie_loop]. rewrite Hhd. rewrite imap_shift in Htl.
    apply (IH (i + 1)%Z _ bs Htl).
    cbn [length] in Hbad. rewrite <- Hbad. f_equal. lia.
Qed.

(** X28: the reply of [web_search_movies] is all or nothing.  When the
    service answers with a non-empty list of results and every result
    number [k] (counted from 1) gives its block, the reply is the header
    followed by the blocks in order.  When a result fails (a result
    that is not a dict, or one whose [content] is [null] and cannot be
    sliced), the reply is the error text alone: the results before it
    are dropped. *)
Theorem movie_reply_is_all_or_nothing query w k key client t d items :
  import_fault w = None ->
  environ w !! "TAVILY_API_KEY" = Some (String k key) ->
  TavilyClient (String k key) = Returns client ->
  client_search (tavily w) client
    (query +:+ " movies currently running in theaters 2026") "advanced" 5
  = (t, Returns (PDict d)) ->
  d !! "results" = Some (PList items) ->
  items <> [] ->
  (forall blocks,
      Forall2 (fun ki b => movie_block ki.1 ki.2 = Returns b)
        (imap (fun n item => (1 + Z.of_nat n, item)%Z) items) blocks ->
      snd (web_search_movies query w)
      = Ok (HEADER +:+ String.concat EmptyString blocks))
  /\ (forall pre bad post blocks e,
        items = pre ++ bad :: post ->
        Forall2 (fun ki b => movie_block ki.1 ki.2 = Returns b)
          (imap (fun n item => (1 + Z.of_nat n, item)%Z) pre) blocks ->
        movie_block (1 + Z.of_nat (length pre)) bad = Raises e ->
        snd (web_search_movies query w) = Ok (ERROR_PREFIX +:+ exc_str e))
  /\ (forall i m, m !! "content" = Some PNone ->
        movie_block i (PDict m)
        = Raises (Exc TypeError "'NoneType' object is not subscriptable"))
  /\ (forall i s,
        movie_block i (PStr s)
        = Raises (Exc AttributeError "'str' object has no attribute 'get'")).
Proof.
  intros Hi Hk Hc Hs Hd Hne.
  pose proof (web_search_movies_answer query w k key client t d Hi Hk Hc Hs) as E.
  rewrite Hd in E.
  assert (Ht : truthy (PList items) = true) by (destruct items; [contradiction|reflexivity]).
  rewrite Ht in E. cbn [py_iter] in E.
  split; [|split; [|split]].
  - intros blocks Hb. rewrite E, (movie_loop_blocks items 1 HEADER blocks Hb).
    reflexivity.
  - intros pre bad post blocks e -> Hb Hbad.
    rewrite E, (movie_loop_first_bad pre bad post e 1 HEADER blocks Hb Hbad).
    reflexivity.
  - intros i m Hm. unfold movie_block, py_get. rewrite Hm. reflexivity.
  - intros i s. reflexivity.
Qed.

End Movies.
End MoviesFacts.

Module MainApiRuns.
Import Py booking booking_spec vector_store_stats Scenario_more.



(** The first booking is confirmed to Ada by both. *)
Lemma endpoint_and_tool_mail_alike_witness :
  db (fst (main_api.send_booking_email mail_request office))
  = db (fst (send_confirmation_email 1 office))
  /\ (fun km => (km.1, from_email km.2, to_emails km.2, subject km.2))
       <$> outbox (fst (main_api.send_booking_email mail_request office))
     = [("SG.key", "bookings@example.com", "ada@example.org",
         "Booking Confirmation - Movie")]
  /\ exists r, snd (main_api.send_booking_email mail_request office)
               = Ok (Respond r).
Proof.
  destruct (MainApiFacts.endpoint_and_tool_mail_alike mail_request office eq_refl
              (or_introl eq_refl)) as (Hdb & Hout & Hiff).
  split; [exact Hdb|]. split.
  - rewrite Hout. vm_compute. reflexivity.
  - apply Hiff. exists "ada@example.org". vm_compute. reflexivity.
Defined.

End MainApiRuns.

Module MoviesRuns.
Import Py movies Scenario Scenario_more.

(** The second film has no text: the reply is the error alone. *)
Lemma movie_reply_is_all_or_nothing_witness :
  snd (@web_search_movies demo_runtime cinema "new" movie_world)
  = Ok (ERROR_PREFIX +:+ "'NoneType' object is not subscriptable").
Proof.
  destruct (@MoviesFacts.movie_reply_is_all_or_nothing demo_runtime cinema "new"
              movie_world "t" "vly-key" "tvly-key" 1%nat
              {[ "results" := PList [dune; untold] ]} [dune; untold]
              eq_refl eq_refl eq_refl eq_refl eq_refl ltac:(discriminate))
    as (_ & Hbad & _).
  refine (Hbad [dune] untold [] _ (Exc TypeError "'NoneType' object is not subscriptable")
            eq_refl _ _).
  - econstructor; [vm_compute; reflexivity | constructor].
  - vm_compute. reflexivity.
Defined.

End MoviesRuns.

Module ErrorRuns.
Import Py Scenario Scenario_more.

(** One chunk offered to the unreachable index. *)
Lemma unreachable_index_raises_witness :
  exists w1,
    @vector_store.add_documents demo_backend demo_store [chunk_with_full]
      broken_index
    = (w1, Raise (Exc RuntimeError "disk I/O error"))
    /\ @vector_store.records demo_backend w1 = []
    /\ @vector_store_stats.get_collection_stats demo_backend demo_config
         demo_store broken_index
       = (broken_index, Raise (Exc RuntimeError "disk I/O error")).
Proof.
  destruct (@StoreMore.unreachable_index_raises demo_backend demo_config
              demo_store [chunk_with_full] "full text" 3 broken_index
              (Exc RuntimeError "disk I/O error") eq_refl ltac:(discriminate))
    as ((w1 & E & Hr & _) & _ & _ & Hstats & _).
  exists w1. split; [exact E|]. split; [exact Hr | exact Hstats].
Defined.

(** The endpoint answers 200 with a page that is not JSON, over the
    index of the guide. *)
Lemma undecodable_answer_falls_back_or_reports_witness :
  let w := @tools_world garbled tt guide_index in
  snd (@tools.search_knowledge_base demo_runtime demo_backend garbled
         "full text" w)
  = snd (@tools._search_local_knowledge_base demo_runtime demo_backend garbled
           "full text" w).
Proof.
  apply (@ToolsMore.undecodable_answer_falls_back_or_reports demo_runtime
           demo_backend garbled "full text" (@tools_world garbled tt guide_index)
           tt _ (Exc RequestException "Expecting value: line 1 column 1 (char 0)")
           eq_refl eq_refl eq_refl).
  reflexivity.
Defined.

End ErrorRuns.
